(** * agent-replay: trace model, replay engine and diff engine

    A shallow embedding of [agent_replay/trace.py], [agent_replay/replay.py]
    and [agent_replay/diff.py], and the properties of the specification
    proved (or refuted) on it.

    Modelling conventions.
    - A Python [str] is a [string] (a sequence of bytes); [str.lower] is the
      ASCII lower-casing.
    - A Python [float] timestamp is an integer of [Z]: the code only orders
      timestamps, copies them and stores them, and the order of the finite
      floats is a total order.  NaN is outside the model.
    - A JSON-compatible value is a [json]; a [dict] with string keys is an
      association list in insertion order ([dict_wf]: keys are unique).
    - [uuid.uuid4] and [time.time] read an explicit [world].
    - A file is the list of its lines, each one blank, not JSON, or the
      JSON document that [json.loads] reads from it.
    - The records are typed as the dataclasses are annotated; reading a
      JSON value of another type into a field is [Untyped]. *)

From Stdlib Require Import List ZArith String Ascii Bool Lia.
From Stdlib Require Import Permutation Sorted DecimalString.
Import ListNotations.
Set Warnings "-register-all".
Local Open Scope string_scope.
Local Open Scope Z_scope.

(** ** Python values *)

Inductive json : Type :=
| JNull
| JBool (b : bool)
| JNum (n : Z)
| JStr (s : string)
| JList (l : list json)
| JDict (d : list (string * json)).

Definition dict : Type := list (string * json).

(** Induction on a JSON value, with the hypothesis on every item of a list
    and on every value of a dict. *)
Section JsonInduction.
Variable P : json -> Prop.
Hypothesis Hnull : P JNull.
Hypothesis Hbool : forall b, P (JBool b).
Hypothesis Hnum : forall n, P (JNum n).
Hypothesis Hstr : forall s, P (JStr s).
Hypothesis Hlist : forall l, Forall P l -> P (JList l).
Hypothesis Hdict : forall d, Forall (fun kv => P (snd kv)) d -> P (JDict d).

Fixpoint json_induction (v : json) : P v :=
  match v with
  | JNull => Hnull
  | JBool b => Hbool b
  | JNum n => Hnum n
  | JStr s => Hstr s
  | JList l =>
      Hlist l
        ((fix items (l : list json) : Forall P l :=
            match l with
            | [] => Forall_nil P
            | a :: l' => Forall_cons a (json_induction a) (items l')
            end) l)
  | JDict d =>
      Hdict d
        ((fix items (d : list (string * json)) : Forall (fun kv => P (snd kv)) d :=
            match d with
            | [] => Forall_nil _
            | (k, a) :: d' => Forall_cons (k, a) (json_induction a) (items d')
            end) d)
  end.
End JsonInduction.

(** [d.get(k)] as an option: the first (and, in a well-formed dict, only)
    binding of [k]. *)
Fixpoint dict_lookup (d : dict) (k : string) : option json :=
  match d with
  | [] => None
  | (k', v) :: d' => if String.eqb k' k then Some v else dict_lookup d' k
  end.

(** [d.get(k, default)] *)
Definition dict_get (d : dict) (k : string) (default : json) : json :=
  match dict_lookup d k with
  | Some v => v
  | None => default
  end.

(** [d[k] = v]: an existing key keeps its place, a new key goes last. *)
Fixpoint dict_set (d : dict) (k : string) (v : json) : dict :=
  match d with
  | [] => [(k, v)]
  | (k', v') :: d' =>
      if String.eqb k' k then (k', v) :: d' else (k', v') :: dict_set d' k v
  end.

(** [d.pop(k, None)], the value dropped. *)
Fixpoint dict_pop (d : dict) (k : string) : dict :=
  match d with
  | [] => []
  | (k', v') :: d' =>
      if String.eqb k' k then dict_pop d' k else (k', v') :: dict_pop d' k
  end.

(** [{**a, **b}] restricted to what the code needs: [{k: v, **d}]. *)
Definition dict_prepend (k : string) (v : json) (d : dict) : dict :=
  fold_left (fun acc kv => dict_set acc (fst kv) (snd kv)) d [(k, v)].

(** Python's [==] on JSON-compatible values: [bool] is an [int]
    ([True == 1]), lists compare pointwise, dicts compare as finite maps
    whatever the insertion order. *)
Fixpoint py_eq (a b : json) {struct a} : bool :=
  match a, b with
  | JNull, JNull => true
  | JBool x, JBool y => Bool.eqb x y
  | JBool x, JNum n => Z.eqb (Z.b2z x) n
  | JNum n, JBool y => Z.eqb n (Z.b2z y)
  | JNum x, JNum y => Z.eqb x y
  | JStr x, JStr y => String.eqb x y
  | JList x, JList y =>
      (fix eq_items (x y : list json) {struct x} : bool :=
         match x, y with
         | [], [] => true
         | a :: x', b :: y' => py_eq a b && eq_items x' y'
         | _, _ => false
         end) x y
  | JDict x, JDict y =>
      Nat.eqb (List.length x) (List.length y) &&
      (fix eq_bindings (x : list (string * json)) {struct x} : bool :=
         match x with
         | [] => true
         | (k, v) :: x' =>
             match dict_lookup y k with
             | Some w => py_eq v w
             | None => false
             end && eq_bindings x'
         end) x
  | _, _ => false
  end.

(** [a != b] *)
Definition py_ne (a b : json) : bool := negb (py_eq a b).

(** What a Python dict is by construction: its keys are unique, here and
    in the dicts below it. *)
Fixpoint unique_keys (l : list string) : bool :=
  match l with
  | [] => true
  | k :: l' => negb (existsb (String.eqb k) l') && unique_keys l'
  end.

Fixpoint json_wf (v : json) : bool :=
  match v with
  | JList l =>
      (fix all (l : list json) : bool :=
         match l with
         | [] => true
         | a :: l' => json_wf a && all l'
         end) l
  | JDict d =>
      unique_keys (map fst d) &&
      (fix all (d : list (string * json)) : bool :=
         match d with
         | [] => true
         | (_, a) :: d' => json_wf a && all d'
         end) d
  | _ => true
  end.

Definition dict_wf (d : dict) : bool := json_wf (JDict d).

(** ** Python strings *)

Definition lower_char (c : ascii) : ascii :=
  let n := nat_of_ascii c in
  if (Nat.leb 65 n && Nat.leb n 90)%bool then ascii_of_nat (n + 32) else c.

(** [s.lower()] *)
Fixpoint lower (s : string) : string :=
  match s with
  | EmptyString => EmptyString
  | String c s' => String (lower_char c) (lower s')
  end.

(** [q in s] *)
Fixpoint contains (s q : string) : bool :=
  String.prefix q s ||
  match s with
  | EmptyString => false
  | String _ s' => contains s' q
  end.

Fixpoint has_char (c : ascii) (s : string) : bool :=
  match s with
  | EmptyString => false
  | String c' s' => Ascii.eqb c c' || has_char c s'
  end.

Definition dquote : ascii := ascii_of_nat 34.

Definition hex_digit (n : nat) : ascii :=
  nth n (list_ascii_of_string "0123456789abcdef") "0"%char.

(** One character of [repr(s)], inside the quotes [quote]. *)
Definition repr_char (quote c : ascii) : string :=
  let n := nat_of_ascii c in
  if (Ascii.eqb c quote || Ascii.eqb c "\"%char)%bool then String "\"%char (String c "")
  else if Nat.eqb n 9 then "\t"
  else if Nat.eqb n 10 then "\n"
  else if Nat.eqb n 13 then "\r"
  else if (Nat.ltb n 32 || Nat.eqb n 127)%bool
       then "\x" ++ String (hex_digit (Nat.div n 16)) (String (hex_digit (Nat.modulo n 16)) "")
  else String c "".

Fixpoint repr_chars (quote : ascii) (s : string) : string :=
  match s with
  | EmptyString => EmptyString
  | String c s' => repr_char quote c ++ repr_chars quote s'
  end.

(** [repr(s)] of a string: single quotes, unless the string has a single
    quote and no double quote. *)
Definition repr_str (s : string) : string :=
  let quote :=
    if (has_char "'"%char s && negb (has_char dquote s))%bool
    then dquote else "'"%char in
  String quote (repr_chars quote s ++ String quote "").

Definition str_of_Z (n : Z) : string := NilZero.string_of_int (Z.to_int n).
Definition str_of_nat (n : nat) : string := NilZero.string_of_uint (Nat.to_uint n).

Fixpoint join (sep : string) (l : list string) : string :=
  match l with
  | [] => ""
  | [s] => s
  | s :: l' => s ++ sep ++ join sep l'
  end.

(** [repr(v)] *)
Fixpoint py_repr (v : json) : string :=
  match v with
  | JNull => "None"
  | JBool true => "True"
  | JBool false => "False"
  | JNum n => str_of_Z n
  | JStr s => repr_str s
  | JList l =>
      "[" ++ join ", "
        ((fix items (l : list json) : list string :=
            match l with
            | [] => []
            | a :: l' => py_repr a :: items l'
            end) l) ++ "]"
  | JDict d =>
      "{" ++ join ", "
        ((fix items (d : list (string * json)) : list string :=
            match d with
            | [] => []
            | (k, a) :: d' => (repr_str k ++ ": " ++ py_repr a) :: items d'
            end) d) ++ "}"
  end.

(** [str(v)], what an f-string field [{v}] prints. *)
Definition py_str (v : json) : string :=
  match v with
  | JStr s => s
  | _ => py_repr v
  end.

(** [l[i]] on a Python list: a negative index counts from the end; [None]
    stands for [IndexError]. *)
Definition py_getitem {A : Type} (l : list A) (i : Z) : option A :=
  let n := Z.of_nat (List.length l) in
  if (0 <=? i) && (i <? n) then nth_error l (Z.to_nat i)
  else if (- n <=? i) && (i <? 0) then nth_error l (Z.to_nat (n + i))
  else None.

(** [sorted(l, key=key)]: a stable sort that compares keys with [<] only. *)
Section Sorted.
Context {A : Type} (key : A -> Z).

Fixpoint insert_by (x : A) (l : list A) : list A :=
  match l with
  | [] => [x]
  | y :: l' => if key x <? key y then x :: y :: l' else y :: insert_by x l'
  end.

Definition py_sorted (l : list A) : list A :=
  fold_left (fun acc x => insert_by x acc) l [].
End Sorted.

(** ** Outcomes and effects *)

Inductive exn : Type :=
| KeyError (key : string)
| ValueError
| TypeError
| AttributeError
| IndexError
| JSONDecodeError.

(** What a call does: it returns, it raises, or it builds an object that
    the typed records below cannot hold ([Untyped]: Python stores any JSON
    value in a field without looking at it; nothing is claimed there). *)
Inductive result (A : Type) : Type :=
| Ok (a : A)
| Raise (e : exn)
| Untyped (field : string).
Arguments Ok {A} a.
Arguments Raise {A} e.
Arguments Untyped {A} field.

(** The sources of [uuid.uuid4().hex] and [time.time()], and how many
    values each has handed out. *)
Record world : Type := mkWorld {
  uuid_src : nat -> string;
  uuid_calls : nat;
  clock_src : nat -> Z;
  clock_calls : nat
}.

Definition M (A : Type) : Type := world -> result (A * world).

Definition ret {A} (a : A) : M A := fun w => Ok (a, w).

Definition bind {A B} (m : M A) (f : A -> M B) : M B :=
  fun w =>
    match m w with
    | Ok (a, w') => f a w'
    | Raise e => Raise e
    | Untyped fld => Untyped fld
    end.

Definition raise {A} (e : exn) : M A := fun _ => Raise e.
Definition untyped {A} (field : string) : M A := fun _ => Untyped field.

Declare Scope py_scope.
Delimit Scope py_scope with py.
Notation "x <- m ;; k" := (bind m (fun x => k))
  (at level 61, m at next level, right associativity) : py_scope.
Local Open Scope py_scope.

(** [uuid.uuid4().hex[:n]] *)
Definition uuid4_hex (n : nat) : M string :=
  fun w =>
    Ok (String.substring 0 n (uuid_src w (uuid_calls w)),
        mkWorld (uuid_src w) (S (uuid_calls w)) (clock_src w) (clock_calls w)).

(** [time.time()] *)
Definition time_time : M Z :=
  fun w =>
    Ok (clock_src w (clock_calls w),
        mkWorld (uuid_src w) (uuid_calls w) (clock_src w) (S (clock_calls w))).

(** [d[k]] *)
Definition getitem (d : dict) (k : string) : M json :=
  match dict_lookup d k with
  | Some v => ret v
  | None => raise (KeyError k)
  end.

(** Reading a JSON value into a typed field. *)
Definition as_str (field : string) (v : json) : M string :=
  match v with JStr s => ret s | _ => untyped field end.

Definition as_num (field : string) (v : json) : M Z :=
  match v with JNum n => ret n | _ => untyped field end.

Definition as_dict (field : string) (v : json) : M dict :=
  match v with JDict d => ret d | _ => untyped field end.

Definition as_opt_str (field : string) (v : json) : M (option string) :=
  match v with
  | JNull => ret None
  | JStr s => ret (Some s)
  | _ => untyped field
  end.

Definition as_opt_num (field : string) (v : json) : M (option Z) :=
  match v with
  | JNull => ret None
  | JNum n => ret (Some n)
  | _ => untyped field
  end.

Definition json_of_opt_str (o : option string) : json :=
  match o with Some s => JStr s | None => JNull end.

Definition json_of_opt_num (o : option Z) : json :=
  match o with Some n => JNum n | None => JNull end.

(** A list comprehension [[f(x) for x in l]], left to right. *)
Fixpoint mapM {A B} (f : A -> M B) (l : list A) : M (list B) :=
  match l with
  | [] => ret []
  | x :: l' => y <- f x ;; ys <- mapM f l' ;; ret (y :: ys)
  end.

(** ** trace.py *)

Inductive EventType : Type :=
| LLM_REQUEST
| LLM_RESPONSE
| TOOL_CALL
| TOOL_RESULT
| DECISION
| STATE_CHANGE
| ERROR
| LOG.

Module EventTypes.
Definition value (t : EventType) : string :=
  match t with
  | LLM_REQUEST => "llm_request"
  | LLM_RESPONSE => "llm_response"
  | TOOL_CALL => "tool_call"
  | TOOL_RESULT => "tool_result"
  | DECISION => "decision"
  | STATE_CHANGE => "state_change"
  | ERROR => "error"
  | LOG => "log"
  end.

Definition members : list EventType :=
  [LLM_REQUEST; LLM_RESPONSE; TOOL_CALL; TOOL_RESULT;
   DECISION; STATE_CHANGE; ERROR; LOG].

Definition eqb (a b : EventType) : bool := String.eqb (value a) (value b).

(** [EventType(v)]: the member whose value is [v], or [ValueError]. *)
Definition of_value (v : json) : M EventType :=
  match v with
  | JStr s =>
      match find (fun t => String.eqb (value t) s) members with
      | Some t => ret t
      | None => raise ValueError
      end
  | _ => raise ValueError
  end.
End EventTypes.

Module Event.
Record t : Type := mk {
  event_type : EventType;
  timestamp : Z;
  data : dict;
  event_id : string
}.

(** [Event(event_type=..., data=...)]: the defaults of the dataclass, in
    field order. *)
Definition new (event_type : EventType) (data : dict) : M t :=
  ts <- time_time ;;
  id <- uuid4_hex 12 ;;
  ret (mk event_type ts data id).

Definition to_dict (e : t) : dict :=
  let d := [("event_type", JStr (EventTypes.value (event_type e)));
            ("timestamp", JNum (timestamp e));
            ("data", JDict (data e));
            ("event_id", JStr (event_id e))] in
  dict_set d "event_type" (JStr (EventTypes.value (event_type e))).

Definition from_dict (d : dict) : M t :=
  v <- getitem d "event_type" ;;
  ty <- EventTypes.of_value v ;;
  v <- getitem d "timestamp" ;;
  ts <- as_num "timestamp" v ;;
  da <- as_dict "data" (dict_get d "data" (JDict [])) ;;
  fresh <- uuid4_hex 12 ;;
  id <- as_str "event_id" (dict_get d "event_id" (JStr fresh)) ;;
  ret (mk ty ts da id).
End Event.

(** [for x in v] over a JSON value: a list gives its items, a dict its
    keys, a string its characters; the rest is not iterable. *)
Definition iter_json (v : json) : M (list json) :=
  match v with
  | JList l => ret l
  | JDict d => ret (map (fun kv => JStr (fst kv)) d)
  | JStr s => ret (map (fun c => JStr (String c "")) (list_ascii_of_string s))
  | _ => raise TypeError
  end.

Module Span.
Record t : Type := mk {
  name : string;
  span_id : string;
  parent_id : option string;
  start_time : Z;
  end_time : option Z;
  events : list Event.t;
  metadata : dict
}.

(** [Span(name=name, parent_id=parent_id)] *)
Definition new (name : string) (parent_id : option string) : M t :=
  id <- uuid4_hex 12 ;;
  now <- time_time ;;
  ret (mk name id parent_id now None [] []).

Definition duration (s : t) : option Z :=
  match end_time s with
  | None => None
  | Some e => Some (e - start_time s)
  end.

Definition set_events (s : t) (es : list Event.t) : t :=
  mk (name s) (span_id s) (parent_id s) (start_time s) (end_time s) es (metadata s).

Definition set_end_time (s : t) (e : option Z) : t :=
  mk (name s) (span_id s) (parent_id s) (start_time s) e (events s) (metadata s).

Definition add_event (event_type : EventType) (data : option dict) (s : t)
  : M (Event.t * t) :=
  event <- Event.new event_type (match data with Some d => d | None => [] end) ;;
  ret (event, set_events s (events s ++ [event])%list).

Definition close (s : t) : M t :=
  now <- time_time ;;
  ret (set_end_time s (Some now)).

Definition to_dict (s : t) : dict :=
  [("name", JStr (name s));
   ("span_id", JStr (span_id s));
   ("parent_id", json_of_opt_str (parent_id s));
   ("start_time", JNum (start_time s));
   ("end_time", json_of_opt_num (end_time s));
   ("events", JList (map (fun e => JDict (Event.to_dict e)) (events s)));
   ("metadata", JDict (metadata s))].

(** [Event.from_dict(e)] on whatever the iteration hands over: indexing
    anything but a dict with a string is a [TypeError]. *)
Definition event_of_json (v : json) : M Event.t :=
  match v with
  | JDict d => Event.from_dict d
  | _ => raise TypeError
  end.

Definition from_dict (d : dict) : M t :=
  v <- getitem d "name" ;;
  nm <- as_str "name" v ;;
  v <- getitem d "span_id" ;;
  id <- as_str "span_id" v ;;
  pid <- as_opt_str "parent_id" (dict_get d "parent_id" JNull) ;;
  v <- getitem d "start_time" ;;
  st <- as_num "start_time" v ;;
  en <- as_opt_num "end_time" (dict_get d "end_time" JNull) ;;
  items <- iter_json (dict_get d "events" (JList [])) ;;
  es <- mapM event_of_json items ;;
  md <- as_dict "metadata" (dict_get d "metadata" (JDict [])) ;;
  ret (mk nm id pid st en es md).
End Span.

(** A line of a file, as [line.strip()] and [json.loads] see it: blank,
    not JSON, or a JSON document.  [json.dumps] writes a document on one
    line and [json.loads] reads the same document back. *)
Inductive line : Type :=
| Blank
| Garbage
| Doc (v : json).

Module Trace.
Record t : Type := mk {
  trace_id : string;
  name : string;
  start_time : Z;
  end_time : option Z;
  spans : list Span.t;
  metadata : dict
}.

(** [Trace(name=name)] *)
Definition new (name : string) : M t :=
  id <- uuid4_hex 16 ;;
  now <- time_time ;;
  ret (mk id name now None [] []).

Definition duration (tr : t) : option Z :=
  match end_time tr with
  | None => None
  | Some e => Some (e - start_time tr)
  end.

Definition event_count (tr : t) : nat :=
  fold_left (fun acc s => (acc + List.length (Span.events s))%nat) (spans tr) 0%nat.

Definition set_spans (tr : t) (ss : list Span.t) : t :=
  mk (trace_id tr) (name tr) (start_time tr) (end_time tr) ss (metadata tr).

Definition add_span (name : string) (parent_id : option string) (tr : t)
  : M (Span.t * t) :=
  span <- Span.new name parent_id ;;
  ret (span, set_spans tr (spans tr ++ [span])%list).

(** The span returned by [add_span] is the object stored in the trace:
    [trace.spans[i].add_event(event_type, data)]. *)
Definition span_add_event (i : nat) (event_type : EventType)
    (data : option dict) (tr : t) : M (Event.t * t) :=
  match nth_error (spans tr) i with
  | None => raise IndexError
  | Some s =>
      r <- Span.add_event event_type data s ;;
      ret (fst r, set_spans tr (firstn i (spans tr) ++ snd r :: skipn (S i) (spans tr))%list)
  end.

Definition close (tr : t) : M t :=
  now <- time_time ;;
  ss <- mapM (fun span =>
                match Span.end_time span with
                | None => Span.close span
                | Some _ => ret span
                end) (spans tr) ;;
  ret (mk (trace_id tr) (name tr) (start_time tr) (Some now) ss (metadata tr)).


Definition all_events (tr : t) : list Event.t :=
  let events := fold_left (fun events span => (events ++ Span.events span)%list) (spans tr) [] in
  py_sorted Event.timestamp events.

Definition to_dict (tr : t) : dict :=
  [("trace_id", JStr (trace_id tr));
   ("name", JStr (name tr));
   ("start_time", JNum (start_time tr));
   ("end_time", json_of_opt_num (end_time tr));
   ("spans", JList (map (fun s => JDict (Span.to_dict s)) (spans tr)));
   ("metadata", JDict (metadata tr))].

Definition span_of_json (v : json) : M Span.t :=
  match v with
  | JDict d => Span.from_dict d
  | _ => raise TypeError
  end.

Definition from_dict (d : dict) : M t :=
  v <- getitem d "trace_id" ;;
  id <- as_str "trace_id" v ;;
  nm <- as_str "name" (dict_get d "name" (JStr "unnamed")) ;;
  v <- getitem d "start_time" ;;
  st <- as_num "start_time" v ;;
  en <- as_opt_num "end_time" (dict_get d "end_time" JNull) ;;
  items <- iter_json (dict_get d "spans" (JList [])) ;;
  ss <- mapM span_of_json items ;;
  md <- as_dict "metadata" (dict_get d "metadata" (JDict [])) ;;
  ret (mk id nm st en ss md).

(** [save]: the lines written, the header first, then one per span. *)
Definition save (tr : t) : list line :=
  let header :=
    [("type", JStr "trace_header");
     ("trace_id", JStr (trace_id tr));
     ("name", JStr (name tr));
     ("start_time", JNum (start_time tr));
     ("end_time", json_of_opt_num (end_time tr));
     ("metadata", JDict (metadata tr))] in
  Doc (JDict header)
    :: map (fun span => Doc (JDict (dict_prepend "type" (JStr "span") (Span.to_dict span))))
         (spans tr).

(** One turn of the loop of [load], on the pair [(spans, header)]. *)
Definition load_line (st : list Span.t * dict) (l : line) : M (list Span.t * dict) :=
  match l with
  | Blank => ret st
  | Garbage => raise JSONDecodeError
  | Doc (JDict record) =>
      if py_eq (dict_get record "type" JNull) (JStr "trace_header") then
        ret (fst st, record)
      else if py_eq (dict_get record "type" JNull) (JStr "span") then
        span <- Span.from_dict (dict_pop record "type") ;;
        ret ((fst st ++ [span])%list, snd st)
      else ret st
  | Doc _ => raise AttributeError
  end.

Fixpoint load_lines (f : list line) (st : list Span.t * dict) : M (list Span.t * dict) :=
  match f with
  | [] => ret st
  | l :: f' => st' <- load_line st l ;; load_lines f' st'
  end.

Definition load (f : list line) : M t :=
  st <- load_lines f ([], []) ;;
  let header := snd st in
  fresh <- uuid4_hex 16 ;;
  id <- as_str "trace_id" (dict_get header "trace_id" (JStr fresh)) ;;
  nm <- as_str "name" (dict_get header "name" (JStr "unnamed")) ;;
  stt <- as_num "start_time" (dict_get header "start_time" (JNum 0)) ;;
  en <- as_opt_num "end_time" (dict_get header "end_time" JNull) ;;
  md <- as_dict "metadata" (dict_get header "metadata" (JDict [])) ;;
  ret (mk id nm stt en (fst st) md).
End Trace.

(** ** replay.py *)

Module ReplayEngine.
Definition entry : Type := (Span.t * Event.t)%type.

Record t : Type := mk {
  trace : Trace.t;
  _flat : list entry;
  _position : Z
}.

Definition _build_flat_list (tr : Trace.t) : list entry :=
  let pairs :=
    fold_left
      (fun pairs span =>
         fold_left (fun pairs event => (pairs ++ [(span, event)])%list)
           (Span.events span) pairs)
      (Trace.spans tr) [] in
  py_sorted (fun p : entry => Event.timestamp (snd p)) pairs.

(** [ReplayEngine(trace)] *)
Definition init (tr : Trace.t) : t := mk tr (_build_flat_list tr) 0.

Definition from_file (f : list line) : M t :=
  tr <- Trace.load f ;; ret (init tr).

Definition total_steps (e : t) : Z := Z.of_nat (List.length (_flat e)).
Definition position (e : t) : Z := _position e.

Definition has_next (e : t) : bool := _position e <? Z.of_nat (List.length (_flat e)).
Definition has_prev (e : t) : bool := 0 <? _position e.

Definition set_position (e : t) (p : Z) : t := mk (trace e) (_flat e) p.

(** The value returned (or the exception raised) and the engine after
    the call. *)
Definition step (e : t) : result (option entry) * t :=
  if negb (has_next e) then (Ok None, e)
  else
    match py_getitem (_flat e) (_position e) with
    | None => (Raise IndexError, e)
    | Some r => (Ok (Some r), set_position e (_position e + 1))
    end.

Definition step_back (e : t) : result (option entry) * t :=
  if negb (has_prev e) then (Ok None, e)
  else
    let e' := set_position e (_position e - 1) in
    match py_getitem (_flat e') (_position e') with
    | None => (Raise IndexError, e')
    | Some r => (Ok (Some r), e')
    end.

Definition peek (e : t) : result (option entry) * t :=
  if negb (has_next e) then (Ok None, e)
  else
    match py_getitem (_flat e) (_position e) with
    | None => (Raise IndexError, e)
    | Some r => (Ok (Some r), e)
    end.

Definition jump (position : Z) (e : t) : result (option entry) * t :=
  if (0 <=? position) && (position <? Z.of_nat (List.length (_flat e))) then
    let e' := set_position e position in
    match py_getitem (_flat e') (_position e') with
    | None => (Raise IndexError, e')
    | Some r => (Ok (Some r), e')
    end
  else (Ok None, e).

Definition reset (e : t) : t := set_position e 0.

Definition current_span_events (e : t) : result (list entry) * t :=
  let n := Z.of_nat (List.length (_flat e)) in
  if (match _flat e with [] => true | _ => false end) || (n <=? _position e)
  then (Ok [], e)
  else
    match py_getitem (_flat e) (Z.min (_position e) (n - 1)) with
    | None => (Raise IndexError, e)
    | Some current =>
        (Ok (filter (fun p : entry =>
                       String.eqb (Span.span_id (fst p)) (Span.span_id (fst current)))
               (_flat e)), e)
    end.

Definition searchable (p : entry) : string :=
  Span.name (fst p) ++ " " ++ EventTypes.value (Event.event_type (snd p))
    ++ " " ++ py_repr (JDict (Event.data (snd p))).

Definition search (query : string) (e : t) : list nat :=
  let query_lower := lower query in
  fold_left
    (fun results ip =>
       if contains (lower (searchable (snd ip))) query_lower
       then (results ++ [fst ip])%list else results)
    (combine (seq 0 (List.length (_flat e))) (_flat e)) [].
End ReplayEngine.

(** ** diff.py *)

Module Divergence.
Record t : Type := mk {
  position : nat;
  description : string;
  trace_a_event : option Event.t;
  trace_b_event : option Event.t;
  trace_a_span : string;
  trace_b_span : string;
  severity : string
}.
End Divergence.

Module DiffResult.
Record t : Type := mk {
  trace_a_id : string;
  trace_b_id : string;
  divergences : list Divergence.t;
  summary : string
}.

Definition identical (r : t) : bool :=
  Nat.eqb (List.length (divergences r)) 0.

Definition critical_count (r : t) : nat :=
  List.length
    (filter (fun d => String.eqb (Divergence.severity d) "critical") (divergences r)).
End DiffResult.

Definition _span_for_event (trace : Trace.t) (event : Event.t) : string :=
  match
    find (fun span =>
            existsb (fun e => String.eqb (Event.event_id e) (Event.event_id event))
              (Span.events span))
      (Trace.spans trace)
  with
  | Some span => Span.name span
  | None => "unknown"
  end.

(** The body of the loop of [diff_traces] at index [i]: the divergences
    appended there.  [ea] and [eb] are [events_a[i]] and [events_b[i]], or
    [None] past the end of the list; below [max_len] one of them is an
    event. *)
Definition diff_at (trace_a trace_b : Trace.t) (i : nat)
    (ea eb : option Event.t) : list Divergence.t :=
  match ea, eb with
  | None, None => []
  | None, Some eb =>
      [Divergence.mk i
         ("Trace B has extra event: " ++ EventTypes.value (Event.event_type eb))
         None (Some eb) "" (_span_for_event trace_b eb) "warning"]
  | Some ea, None =>
      [Divergence.mk i
         ("Trace A has extra event: " ++ EventTypes.value (Event.event_type ea))
         (Some ea) None (_span_for_event trace_a ea) "" "warning"]
  | Some ea, Some eb =>
      let both desc sev :=
        [Divergence.mk i desc (Some ea) (Some eb)
           (_span_for_event trace_a ea) (_span_for_event trace_b eb) sev] in
      if negb (EventTypes.eqb (Event.event_type ea) (Event.event_type eb)) then
        both ("Event type divergence: " ++ EventTypes.value (Event.event_type ea)
                ++ " vs " ++ EventTypes.value (Event.event_type eb)) "critical"
      else
        match Event.event_type ea with
        | TOOL_CALL =>
            let ta := dict_get (Event.data ea) "tool" JNull in
            let tb := dict_get (Event.data eb) "tool" JNull in
            if py_ne ta tb then
              both ("Different tool called: " ++ py_str ta ++ " vs " ++ py_str tb) "critical"
            else []
        | LLM_RESPONSE =>
            let content_a := dict_get (Event.data ea) "content" (JStr "") in
            let content_b := dict_get (Event.data eb) "content" (JStr "") in
            if py_ne content_a content_b then both "LLM response content differs" "info"
            else []
        | DECISION =>
            let ca := dict_get (Event.data ea) "choice" JNull in
            let cb := dict_get (Event.data eb) "choice" JNull in
            if py_ne ca cb then
              both ("Decision divergence: '" ++ py_str ca ++ "' vs '" ++ py_str cb ++ "'")
                "critical"
            else []
        | _ => []
        end
  end.

(** [span_lookup_a] and [span_lookup_b] are built and never read: they are
    left out. *)
Definition diff_traces (trace_a trace_b : Trace.t) : DiffResult.t :=
  let events_a := Trace.all_events trace_a in
  let events_b := Trace.all_events trace_b in
  let max_len := Nat.max (List.length events_a) (List.length events_b) in
  let divergences :=
    fold_left
      (fun divergences i =>
         (divergences ++ diff_at trace_a trace_b i (nth_error events_a i) (nth_error events_b i))%list)
      (seq 0 max_len) [] in
  let n := List.length divergences in
  let result := DiffResult.mk (Trace.trace_id trace_a) (Trace.trace_id trace_b) divergences "" in
  let summary :=
    if Nat.eqb n 0 then "Traces are identical in structure and content."
    else "Found " ++ str_of_nat n ++ " divergence(s): "
           ++ str_of_nat (DiffResult.critical_count result) ++ " critical, "
           ++ str_of_nat (n - DiffResult.critical_count result) ++ " informational." in
  DiffResult.mk (Trace.trace_id trace_a) (Trace.trace_id trace_b) divergences summary.

(** ** recorder.py *)

(** [{k1: v1, ..., **kwargs}]: the keys of [kwargs] are set in turn on the
    dict of the named entries. *)
Definition dict_update (d kwargs : dict) : dict :=
  fold_left (fun acc kv => dict_set acc (fst kv) (snd kv)) kwargs d.

Module Recorder.
(** The recorder keeps references to spans that are stored in
    [trace.spans]; a reference is the index of the span in that list, which
    only grows at its end.  An index outside the list stands for no Python
    object; reading it is [IndexError] here. *)
Record t : Type := mk {
  trace : Trace.t;
  output_path : option string;
  _span_stack : list nat;
  _current_span : option nat
}.

Definition set_trace (r : t) (tr : Trace.t) : t :=
  mk tr (output_path r) (_span_stack r) (_current_span r).

(** [Recorder(name, metadata, output_path)] *)
Definition init (name : string) (metadata : option dict) (output_path : option string)
  : M t :=
  id <- uuid4_hex 16 ;;
  now <- time_time ;;
  ret (mk (Trace.mk id name now None []
             (match metadata with Some d => d | None => [] end))
          (match output_path with
           | Some EmptyString => None
           | o => o
           end)
          [] None).

(** [trace.add_span(name, parent_id=parent_id, metadata=metadata)], the
    reference to the new span returned. *)
Definition add_span (name : string) (parent_id : option string) (metadata : dict)
    (tr : Trace.t) : M (nat * Trace.t) :=
  id <- uuid4_hex 12 ;;
  now <- time_time ;;
  ret (List.length (Trace.spans tr),
       Trace.set_spans tr
         (Trace.spans tr ++ [Span.mk name id parent_id now None [] metadata])%list).

(** A method call on the span behind a reference. *)
Definition on_span {A : Type} (i : nat) (f : Span.t -> M (A * Span.t)) (tr : Trace.t)
  : M (A * Trace.t) :=
  match nth_error (Trace.spans tr) i with
  | None => raise IndexError
  | Some s =>
      r <- f s ;;
      ret (fst r,
           Trace.set_spans tr
             (firstn i (Trace.spans tr) ++ snd r :: skipn (S i) (Trace.spans tr))%list)
  end.

(** The context manager [span], up to its [yield]: the span yielded, the
    local [prev], the recorder. *)
Definition span_enter (name : string) (metadata : option dict) (r : t)
  : M (nat * option nat * t) :=
  parent_id <-
    match _current_span r with
    | Some i =>
        match nth_error (Trace.spans (trace r)) i with
        | Some cur => ret (Some (Span.span_id cur))
        | None => raise IndexError
        end
    | None => ret None
    end ;;
  a <- add_span name parent_id (match metadata with Some d => d | None => [] end) (trace r) ;;
  ret (fst a, _current_span r,
       mk (snd a) (output_path r) (_span_stack r ++ [fst a])%list (Some (fst a))).

(** The [finally] block of [span]. *)
Definition span_exit (s : nat) (prev : option nat) (r : t) : M t :=
  a <- on_span s (fun sp => sp' <- Span.close sp ;; ret (tt, sp')) (trace r) ;;
  match _span_stack r with
  | [] => raise IndexError
  | _ => ret (mk (snd a) (output_path r) (removelast (_span_stack r)) prev)
  end.

(** [with rec.span(name, metadata) as s: body], for a body that returns.
    (When the body raises, the [finally] block runs and the exception goes
    on; the recorder it leaves is not kept by [M].) *)
Definition span {A : Type} (name : string) (metadata : option dict)
    (body : nat -> t -> M (A * t)) (r : t) : M (A * t) :=
  e <- span_enter name metadata r ;;
  x <- body (fst (fst e)) (snd e) ;;
  r2 <- span_exit (fst (fst e)) (snd (fst e)) (snd x) ;;
  ret (fst x, r2).

Definition _ensure_span (r : t) : M (nat * t) :=
  match _current_span r with
  | None =>
      a <- add_span "default" None [] (trace r) ;;
      ret (fst a, mk (snd a) (output_path r) (_span_stack r ++ [fst a])%list (Some (fst a)))
  | Some i => ret (i, r)
  end.

Definition event (event_type : EventType) (data : option dict) (r : t) : M t :=
  c <- _ensure_span r ;;
  a <- on_span (fst c) (Span.add_event event_type data) (trace (snd c)) ;;
  ret (set_trace (snd c) (snd a)).

Definition llm_request (model : string) (messages : option (list json)) (kwargs : dict)
  : t -> M t :=
  event LLM_REQUEST
    (Some (dict_update
             [("model", JStr model);
              ("messages", JList (match messages with Some l => l | None => [] end))]
             kwargs)).

Definition llm_response (content : string) (tokens : option Z) (kwargs : dict)
  : t -> M t :=
  event LLM_RESPONSE
    (Some (dict_update [("content", JStr content); ("tokens", json_of_opt_num tokens)]
             kwargs)).

Definition tool_call (tool : string) (args : option dict) (kwargs : dict) : t -> M t :=
  event TOOL_CALL
    (Some (dict_update
             [("tool", JStr tool);
              ("args", JDict (match args with Some d => d | None => [] end))]
             kwargs)).

Definition tool_result (tool : string) (result : json) (kwargs : dict) : t -> M t :=
  event TOOL_RESULT (Some (dict_update [("tool", JStr tool); ("result", result)] kwargs)).

Definition decision (description choice : string) (kwargs : dict) : t -> M t :=
  event DECISION
    (Some (dict_update [("description", JStr description); ("choice", JStr choice)] kwargs)).

Definition state_change (key : string) (old new : json) (kwargs : dict) : t -> M t :=
  event STATE_CHANGE
    (Some (dict_update [("key", JStr key); ("old", old); ("new", new)] kwargs)).

Definition log (message level : string) (kwargs : dict) : t -> M t :=
  event LOG (Some (dict_update [("message", JStr message); ("level", JStr level)] kwargs)).

Definition error (message : string) (exception : option string) (kwargs : dict)
  : t -> M t :=
  event ERROR
    (Some (dict_update
             [("message", JStr message); ("exception", json_of_opt_str exception)]
             kwargs)).

(** [finish()]: the trace returned, the recorder, and the file written
    (its path and its lines) when there is an [output_path]. *)
Definition finish (r : t) : M (Trace.t * t * option (string * list line)) :=
  tr <- Trace.close (trace r) ;;
  ret (tr, set_trace r tr,
       match output_path r with
       | Some p => Some (p, Trace.save tr)
       | None => None
       end).

(** [record_trace(name, output_path)(fn)(...)], for an [fn] that returns:
    the value of [fn] and the file written on leaving the [with] block. *)
Definition record_trace {A : Type} (name : string) (output_path : option string)
    (fn : t -> M (A * t)) : M (A * option (string * list line)) :=
  rec <- init name None output_path ;;
  x <- fn rec ;;
  f <- finish (snd x) ;;
  ret (fst x, snd f).
End Recorder.

(** ** exporters.py *)

(** [export_json]: the JSON document that [json.dump] writes to the file. *)
Definition export_json (tr : Trace.t) : json := JDict (Trace.to_dict tr).

(** ** Auxiliary definitions for the statements *)

Local Open Scope list_scope.

(** The events of a trace in storage order: spans in trace order, events
    in span order. *)
Definition stored_events (tr : Trace.t) : list Event.t :=
  List.concat (map Span.events (Trace.spans tr)).

(** The same with each event tagged by the span that stores it. *)
Definition stored_pairs (tr : Trace.t) : list ReplayEngine.entry :=
  List.concat (map (fun s => map (fun e => (s, e)) (Span.events s)) (Trace.spans tr)).

Definition ts_le (a b : Event.t) : Prop := Event.timestamp a <= Event.timestamp b.

Definition at_time (ts : Z) (e : Event.t) : bool := Event.timestamp e =? ts.

(** [n] calls of [step()] in a row: the values returned, in order, and the
    engine they leave. *)
Fixpoint steps (n : nat) (e : ReplayEngine.t)
  : list (result (option ReplayEngine.entry)) * ReplayEngine.t :=
  match n with
  | O => ([], e)
  | S n' =>
      let (r, e1) := ReplayEngine.step e in
      let (rs, e2) := steps n' e1 in
      (r :: rs, e2)
  end.

(** A call on the engine. *)
Inductive op : Type :=
| Step
| StepBack
| Peek
| Jump (k : Z)
| Reset
| Search (q : string)
| CurrentSpanEvents.

Definition is_ok {A : Type} (r : result A) : bool :=
  match r with Ok _ => true | _ => false end.

(** The engine after the call, and whether the call returned (rather than
    raised). *)
Definition apply_op (o : op) (e : ReplayEngine.t) : bool * ReplayEngine.t :=
  match o with
  | Step => let (r, e') := ReplayEngine.step e in (is_ok r, e')
  | StepBack => let (r, e') := ReplayEngine.step_back e in (is_ok r, e')
  | Peek => let (r, e') := ReplayEngine.peek e in (is_ok r, e')
  | Jump k => let (r, e') := ReplayEngine.jump k e in (is_ok r, e')
  | Reset => (true, ReplayEngine.reset e)
  | Search q => let _ := ReplayEngine.search q e in (true, e)
  | CurrentSpanEvents => let (r, e') := ReplayEngine.current_span_events e in (is_ok r, e')
  end.

Definition run (ops : list op) (e : ReplayEngine.t) : ReplayEngine.t :=
  fold_left (fun e o => snd (apply_op o e)) ops e.

(** The cursor is on the tape or just past its end. *)
Definition cursor_ok (e : ReplayEngine.t) : Prop :=
  0 <= ReplayEngine.position e <= ReplayEngine.total_steps e.

(** The test of the comprehension of [current_span_events]. *)
Definition same_span (current : ReplayEngine.entry) (p : ReplayEngine.entry) : bool :=
  String.eqb (Span.span_id (fst p)) (Span.span_id (fst current)).

(** The test of the loop of [search]: the query, lower-cased, occurs in the
    lower-cased line made of the span name, the type label and the payload,
    with a space between them. *)
Definition line_contains (query : string) (p : ReplayEngine.entry) : bool :=
  contains (lower (ReplayEngine.searchable p)) (lower query).

(** The query occurs, whatever the case, in the span name, in the event
    type label or in the stringified payload. *)
Definition field_contains (query : string) (p : ReplayEngine.entry) : bool :=
  contains (lower (Span.name (fst p))) (lower query)
  || contains (lower (EventTypes.value (Event.event_type (snd p)))) (lower query)
  || contains (lower (py_repr (JDict (Event.data (snd p))))) (lower query).

(** The world after [n] more calls of [uuid.uuid4]. *)
Definition uuid_tick (n : nat) (w : world) : world :=
  mkWorld (uuid_src w) (n + uuid_calls w) (clock_src w) (clock_calls w).

(** The line [save] writes for a span. *)
Definition span_line (span : Span.t) : line :=
  Doc (JDict (dict_prepend "type" (JStr "span") (Span.to_dict span))).

(** The payloads of the events of a trace are Python dicts. *)
Definition trace_wf (tr : Trace.t) : bool :=
  forallb (fun e => dict_wf (Event.data e)) (stored_events tr).

(** The divergence the loop of [diff_traces] appends at index [i] between
    two events. *)
Definition divergence_at (trace_a trace_b : Trace.t) (i : nat) (desc : string)
    (ea eb : Event.t) (sev : string) : Divergence.t :=
  Divergence.mk i desc (Some ea) (Some eb)
    (_span_for_event trace_a ea) (_span_for_event trace_b eb) sev.

(** Sample traces: the scenarios of the test suite, with fixed identifiers
    and clock readings. *)
Definition sample_span (name id : string) (events : list Event.t) : Span.t :=
  Span.mk name id None 0 (Some 9) events [].

Definition sample_two_spans : Trace.t :=
  Trace.mk "trace-0" "replay-test" 0 (Some 9)
    [sample_span "step-1" "span-1"
       [Event.mk LLM_REQUEST 1 [("model", JStr "gpt-4")] "ev-1";
        Event.mk LLM_RESPONSE 2 [("content", JStr "hello")] "ev-2"];
     sample_span "step-2" "span-2"
       [Event.mk TOOL_CALL 2 [("tool", JStr "search"); ("args", JDict [("q", JStr "test")])] "ev-3";
        Event.mk TOOL_RESULT 3 [("tool", JStr "search"); ("result", JDict [("r", JStr "found")])] "ev-4"]]
    [].

(** A recording session on the model's API: two spans, three events, the
    trace closed at the end. *)
Definition recorded_session : M Trace.t :=
  (tr <- Trace.new "session" ;;
   outer <- Trace.add_span "plan" None tr ;;
   r <- Trace.span_add_event 0 LLM_REQUEST (Some [("model", JStr "gpt-4")]) (snd outer) ;;
   inner <- Trace.add_span "act" (Some (Span.span_id (fst outer))) (snd r) ;;
   r <- Trace.span_add_event 1 DECISION (Some [("choice", JStr "search")]) (snd inner) ;;
   r <- Trace.span_add_event 0 LOG None (snd r) ;;
   Trace.close (snd r))%py.

Definition sample_request : Event.t := Event.mk LLM_REQUEST 1 [("model", JStr "gpt-4")] "ev-a1".
Definition sample_response : Event.t := Event.mk LLM_RESPONSE 2 [("content", JStr "extra")] "ev-b2".

Definition sample_short : Trace.t :=
  Trace.mk "trace-a" "a" 0 (Some 9) [sample_span "s" "span-a" [sample_request]] [].

Definition sample_long : Trace.t :=
  Trace.mk "trace-b" "b" 0 (Some 9)
    [sample_span "s" "span-b" [sample_request; sample_response]] [].

Definition sample_search : Trace.t :=
  Trace.mk "trace-a" "a" 0 (Some 9)
    [sample_span "s" "span-a" [Event.mk TOOL_CALL 1 [("tool", JStr "search"); ("args", JDict [])] "ev-a1"]] [].

Definition sample_browse : Trace.t :=
  Trace.mk "trace-b" "b" 0 (Some 9)
    [sample_span "s" "span-b" [Event.mk TOOL_CALL 1 [("tool", JStr "browse"); ("args", JDict [])] "ev-b1"]] [].

Definition sample_no_tool : Trace.t :=
  Trace.mk "trace-c" "c" 0 (Some 9)
    [sample_span "s" "span-c" [Event.mk TOOL_CALL 1 [] "ev-c1"]] [].

(** The header of [save], and the line written for it. *)
Definition header_dict (tr : Trace.t) : dict :=
  [("type", JStr "trace_header");
   ("trace_id", JStr (Trace.trace_id tr));
   ("name", JStr (Trace.name tr));
   ("start_time", JNum (Trace.start_time tr));
   ("end_time", json_of_opt_num (Trace.end_time tr));
   ("metadata", JDict (Trace.metadata tr))].

Definition header_line (tr : Trace.t) : line := Doc (JDict (header_dict tr)).

(** A line that [load] does something with: not blank, and not an object
    whose [type] is neither "trace_header" nor "span". *)
Definition significant (l : line) : bool :=
  match l with
  | Blank => false
  | Doc (JDict record) =>
      py_eq (dict_get record "type" JNull) (JStr "trace_header")
      || py_eq (dict_get record "type" JNull) (JStr "span")
  | _ => true
  end.

(** A line that is not a JSON object, and what reading it raises. *)
Definition not_an_object (l : line) : bool :=
  match l with
  | Garbage => true
  | Doc (JDict _) => false
  | Doc _ => true
  | Blank => false
  end.

Definition line_error (l : line) : exn :=
  match l with
  | Garbage => JSONDecodeError
  | _ => AttributeError
  end.

(** The span has an [end_time]. *)
Definition is_closed (s : Span.t) : bool :=
  match Span.end_time s with Some _ => true | None => false end.

(** What [Trace.close] does to a span at a time when the clock has been read
    [n] times or more: nothing when it is closed, else its [end_time] is a
    later reading of the clock. *)
Definition closed_from (w : world) (n : nat) (s s' : Span.t) : Prop :=
  (is_closed s = true /\ s' = s) \/
  (is_closed s = false /\
   exists k : nat, (n <= k)%nat /\ s' = Span.set_end_time s (Some (clock_src w k))).

(** The clock never goes back. *)
Definition monotone_clock (w : world) : Prop :=
  forall i j : nat, (i <= j)%nat -> clock_src w i <= clock_src w j.

(** The tests of the loop of [diff_traces] find nothing between two
    events: the types are equal, and so are the [tool] of two tool calls,
    the [content] of two responses, the [choice] of two decisions. *)
Definition agree (ea eb : Event.t) : bool :=
  EventTypes.eqb (Event.event_type ea) (Event.event_type eb) &&
  match Event.event_type ea with
  | TOOL_CALL =>
      py_eq (dict_get (Event.data ea) "tool" JNull) (dict_get (Event.data eb) "tool" JNull)
  | LLM_RESPONSE =>
      py_eq (dict_get (Event.data ea) "content" (JStr ""))
        (dict_get (Event.data eb) "content" (JStr ""))
  | DECISION =>
      py_eq (dict_get (Event.data ea) "choice" JNull)
        (dict_get (Event.data eb) "choice" JNull)
  | _ => true
  end.

(** The same for [events_a[i]] and [events_b[i]], either of which may be
    missing. *)
Definition quiet (oa ob : option Event.t) : bool :=
  match oa, ob with
  | None, None => true
  | Some ea, Some eb => agree ea eb
  | _, _ => false
  end.

Definition has_severity (sev : string) (d : Divergence.t) : bool :=
  String.eqb (Divergence.severity d) sev.


(** Client code of the recorder: events, and [with rec.span(...)] blocks
    whose bodies are client code again (and return). *)
Inductive prog : Type :=
| Ev (event_type : EventType) (data : option dict)
| Block (name : string) (metadata : option dict) (body : list prog).

Fixpoint run_prog (p : prog) (r : Recorder.t) {struct p} : M Recorder.t :=
  match p with
  | Ev event_type data => Recorder.event event_type data r
  | Block name metadata body =>
      (x <- Recorder.span name metadata
              (fun _ r1 =>
                 r2 <- (fix run_body (ps : list prog) (r : Recorder.t) {struct ps}
                          : M Recorder.t :=
                          match ps with
                          | [] => ret r
                          | p :: ps' => r' <- run_prog p r ;; run_body ps' r'
                          end) body r1 ;;
                 ret (tt, r2)) r ;;
       ret (snd x))%py
  end.

Fixpoint run_all (ps : list prog) (r : Recorder.t) {struct ps} : M Recorder.t :=
  match ps with
  | [] => ret r
  | p :: ps' => (r' <- run_prog p r ;; run_all ps' r')%py
  end.

(** The events and the blocks of client code. *)
Fixpoint count_events (p : prog) : nat :=
  match p with
  | Ev _ _ => 1
  | Block _ _ body =>
      (fix sum (ps : list prog) : nat :=
         match ps with
         | [] => 0
         | p :: ps' => count_events p + sum ps'
         end) body
  end%nat.

Fixpoint count_blocks (p : prog) : nat :=
  match p with
  | Ev _ _ => 0
  | Block _ _ body =>
      S ((fix sum (ps : list prog) : nat :=
            match ps with
            | [] => 0
            | p :: ps' => count_blocks p + sum ps'
            end) body)
  end%nat.

Definition count_events_all (ps : list prog) : nat :=
  fold_right (fun p n => (count_events p + n)%nat) 0%nat ps.

Definition count_blocks_all (ps : list prog) : nat :=
  fold_right (fun p n => (count_blocks p + n)%nat) 0%nat ps.

(** The references of the recorder are spans of its trace. *)
Definition recorder_wf (r : Recorder.t) : Prop :=
  Forall (fun i => (i < List.length (Trace.spans (Recorder.trace r)))%nat)
    (Recorder._span_stack r) /\
  match Recorder._current_span r with
  | Some i => (i < List.length (Trace.spans (Recorder.trace r)))%nat
  | None => True
  end.

(** A span later in a recording: the same name, identifier, parent, start
    and metadata; the events it had, then more; closed if it was. *)
Definition span_grows (s s' : Span.t) : Prop :=
  Span.name s' = Span.name s /\ Span.span_id s' = Span.span_id s /\
  Span.parent_id s' = Span.parent_id s /\ Span.start_time s' = Span.start_time s /\
  Span.metadata s' = Span.metadata s /\
  (exists more, Span.events s' = Span.events s ++ more) /\
  (is_closed s = true -> Span.end_time s' = Span.end_time s).

(** A trace later in a recording: the spans it had, grown, then more;
    the fields of the trace as they were. *)
Definition trace_grows (tr tr' : Trace.t) : Prop :=
  Trace.trace_id tr' = Trace.trace_id tr /\ Trace.name tr' = Trace.name tr /\
  Trace.start_time tr' = Trace.start_time tr /\ Trace.end_time tr' = Trace.end_time tr /\
  Trace.metadata tr' = Trace.metadata tr /\
  (List.length (Trace.spans tr) <= List.length (Trace.spans tr'))%nat /\
  forall i s, nth_error (Trace.spans tr) i = Some s ->
              exists s', nth_error (Trace.spans tr') i = Some s' /\ span_grows s s'.

(** The spans from index [n] on are closed. *)
Definition closed_from_index (n : nat) (tr : Trace.t) : Prop :=
  forall i s, (n <= i)%nat -> nth_error (Trace.spans tr) i = Some s -> is_closed s = true.

(** [l[i] = x] on a list, for an index of the list. *)
Definition list_update {X : Type} (i : nat) (x : X) (l : list X) : list X :=
  firstn i l ++ x :: skipn (S i) l.

(** Induction on client code, with the hypothesis on every item of the
    body of a block. *)
Section ProgInduction.
Variable P : prog -> Prop.
Hypothesis Hev : forall ty data, P (Ev ty data).
Hypothesis Hblock : forall name md body, Forall P body -> P (Block name md body).

Fixpoint prog_induction (p : prog) : P p :=
  match p with
  | Ev ty data => Hev ty data
  | Block name md body =>
      Hblock name md body
        ((fix items (ps : list prog) : Forall P ps :=
            match ps with
            | [] => Forall_nil P
            | q :: ps' => Forall_cons q (prog_induction q) (items ps')
            end) body)
  end.
End ProgInduction.

(** The span that [with rec.span(name, metadata)] opens on the recorder
    [r] gets as parent the span current at that time. *)
Definition parent_at (r : Recorder.t) : option string :=
  match Recorder._current_span r with
  | Some c =>
      match nth_error (Trace.spans (Recorder.trace r)) c with
      | Some cur => Some (Span.span_id cur)
      | None => None
      end
  | None => None
  end.

(** A piece of client code ran to its end from the recorder [r]: the
    current span and the stack are as before, the trace has [nb] more
    spans, all of them closed, and [ne] more events, and the spans it had
    have only grown. *)
Definition run_ok (nb ne : nat) (r : Recorder.t) (res : result (Recorder.t * world))
  : Prop :=
  exists (r' : Recorder.t) (w' : world),
    res = Ok (r', w') /\
    Recorder._current_span r' = Recorder._current_span r /\
    Recorder._span_stack r' = Recorder._span_stack r /\
    Recorder.output_path r' = Recorder.output_path r /\
    recorder_wf r' /\
    trace_grows (Recorder.trace r) (Recorder.trace r') /\
    List.length (Trace.spans (Recorder.trace r'))
    = (List.length (Trace.spans (Recorder.trace r)) + nb)%nat /\
    closed_from_index (List.length (Trace.spans (Recorder.trace r))) (Recorder.trace r') /\
    List.length (stored_events (Recorder.trace r'))
    = (List.length (stored_events (Recorder.trace r)) + ne)%nat.

(** Client code ran to its end from the recorder [r], whatever the
    current span was: the trace has [ne] more events and the spans it had
    have only grown. *)
Definition ran (ne : nat) (r : Recorder.t) (res : result (Recorder.t * world)) : Prop :=
  exists (r' : Recorder.t) (w' : world),
    res = Ok (r', w') /\
    Recorder.output_path r' = Recorder.output_path r /\
    recorder_wf r' /\
    trace_grows (Recorder.trace r) (Recorder.trace r') /\
    List.length (stored_events (Recorder.trace r'))
    = (List.length (stored_events (Recorder.trace r)) + ne)%nat.

(** A recorder inside an open span "outer", and a world to run it in. *)
Definition sample_recorder : Recorder.t :=
  Recorder.mk
    (Trace.mk "trace-n" "nested" 0 None [Span.mk "outer" "span-o" None 1 None [] []] [])
    (Some "out.jsonl") [0%nat] (Some 0%nat).

Definition sample_world : world :=
  mkWorld (fun n => "0123456789abcdef0123456789abcdef") 0 (fun n => 10 + Z.of_nat n) 0.

(** What a divergence tells apart from where the events came from. *)
Definition where_and_how (d : Divergence.t) : nat * string :=
  (Divergence.position d, Divergence.severity d).

(** * Properties *)

(** ** The stable sort *)

Section SortedFacts.
Context {A : Type} (key : A -> Z).

Let le (a b : A) : Prop := key a <= key b.

Lemma insert_by_perm (x : A) (l : list A) :
  Permutation (insert_by key x l) (x :: l).
Proof.
  induction l as [|y l IH]; simpl; [reflexivity|].
  destruct (key x <? key y); [reflexivity|].
  rewrite IH. apply perm_swap.
Qed.

Lemma fold_insert_perm (l acc : list A) :
  Permutation (fold_left (fun acc x => insert_by key x acc) l acc) (acc ++ l).
Proof.
  revert acc; induction l as [|x l IH]; intros acc; simpl.
  - now rewrite app_nil_r.
  - rewrite IH, insert_by_perm. apply Permutation_middle.
Qed.

Lemma py_sorted_perm (l : list A) : Permutation (py_sorted key l) l.
Proof. unfold py_sorted. apply (fold_insert_perm l []). Qed.

Lemma insert_by_sorted (x : A) (l : list A) :
  StronglySorted le l -> StronglySorted le (insert_by key x l).
Proof.
  induction 1 as [|y l Hs IH Hy]; simpl.
  - constructor; constructor.
  - destruct (key x <? key y) eqn:E.
    + apply Z.ltb_lt in E. constructor; [constructor; assumption|].
      constructor; [unfold le; lia|].
      eapply Forall_impl; [|exact Hy]. unfold le; intros; lia.
    + apply Z.ltb_ge in E. constructor; [assumption|].
      eapply Permutation_Forall; [symmetry; apply insert_by_perm|].
      constructor; [exact E | exact Hy].
Qed.

Lemma fold_insert_sorted (l acc : list A) :
  StronglySorted le acc ->
  StronglySorted le (fold_left (fun acc x => insert_by key x acc) l acc).
Proof.
  revert acc; induction l as [|x l IH]; intros acc H; simpl; [assumption|].
  apply IH, insert_by_sorted, H.
Qed.

Lemma py_sorted_sorted (l : list A) : StronglySorted le (py_sorted key l).
Proof. apply fold_insert_sorted. constructor. Qed.

Lemma filter_key_none (k : Z) (l : list A) :
  Forall (fun z => key z <> k) l -> filter (fun y => key y =? k) l = [].
Proof.
  induction 1 as [|z l Hz _ IH]; simpl; [reflexivity|].
  apply Z.eqb_neq in Hz. now rewrite Hz.
Qed.

(** An element inserted in a sorted list lands after every element of
    the same key. *)
Lemma insert_by_stable (k : Z) (x : A) (l : list A) :
  StronglySorted le l ->
  filter (fun y => key y =? k) (insert_by key x l)
  = filter (fun y => key y =? k) l ++ (if key x =? k then [x] else []).
Proof.
  induction 1 as [|y l Hs IH Hy]; simpl; [now destruct (key x =? k)|].
  destruct (key x <? key y) eqn:E; simpl.
  - apply Z.ltb_lt in E.
    assert (Hl : filter (fun y => key y =? k) l = [] \/ (key x =? k) = false).
    { destruct (key x =? k) eqn:Ex; [left | now right].
      apply Z.eqb_eq in Ex. apply filter_key_none.
      eapply Forall_impl; [|exact Hy]. unfold le; intros; lia. }
    destruct (key y =? k) eqn:Ey.
    + destruct (key x =? k) eqn:Ex.
      * apply Z.eqb_eq in Ey, Ex. lia.
      * now rewrite app_nil_r.
    + destruct Hl as [Hl|Hl]; rewrite Hl.
      * now destruct (key x =? k).
      * now rewrite app_nil_r.
  - rewrite IH. now destruct (key y =? k).
Qed.

Lemma fold_insert_stable (k : Z) (l acc : list A) :
  StronglySorted le acc ->
  filter (fun y => key y =? k) (fold_left (fun acc x => insert_by key x acc) l acc)
  = filter (fun y => key y =? k) acc ++ filter (fun y => key y =? k) l.
Proof.
  revert acc; induction l as [|x l IH]; intros acc H; simpl.
  - now rewrite app_nil_r.
  - rewrite IH by (apply insert_by_sorted, H).
    rewrite insert_by_stable by exact H.
    rewrite <- app_assoc. now destruct (key x =? k).
Qed.

(** Elements of equal key keep their relative order. *)
Lemma py_sorted_stable (k : Z) (l : list A) :
  filter (fun y => key y =? k) (py_sorted key l) = filter (fun y => key y =? k) l.
Proof. unfold py_sorted. rewrite fold_insert_stable; [reflexivity | constructor]. Qed.
End SortedFacts.

Lemma py_sorted_map {A B : Type} (f : A -> B) (key : B -> Z) (l : list A) :
  map f (py_sorted (fun a => key (f a)) l) = py_sorted key (map f l).
Proof.
  unfold py_sorted.
  assert (H : forall acc,
             map f (fold_left (fun acc x => insert_by (fun a => key (f a)) x acc) l acc)
             = fold_left (fun acc x => insert_by key x acc) (map f l) (map f acc)).
  { induction l as [|x l IH]; intros acc; simpl; [reflexivity|].
    rewrite IH. f_equal.
    induction acc as [|y acc IHa]; simpl; [reflexivity|].
    destruct (key (f x) <? key (f y)); simpl; [reflexivity | now rewrite IHa]. }
  apply (H []).
Qed.

(** ** The canonical event order *)

Lemma fold_left_app_concat {A B : Type} (f : A -> list B) (l : list A) (acc : list B) :
  fold_left (fun acc x => acc ++ f x) l acc = acc ++ List.concat (map f l).
Proof.
  revert acc; induction l as [|x l IH]; intros acc; simpl.
  - now rewrite app_nil_r.
  - now rewrite IH, app_assoc.
Qed.

Lemma fold_left_snoc_map {A B : Type} (f : A -> B) (l : list A) (acc : list B) :
  fold_left (fun acc x => acc ++ [f x]) l acc = acc ++ map f l.
Proof.
  revert acc; induction l as [|x l IH]; intros acc; simpl.
  - now rewrite app_nil_r.
  - now rewrite IH, <- app_assoc.
Qed.

Lemma all_events_unfold (tr : Trace.t) :
  Trace.all_events tr = py_sorted Event.timestamp (stored_events tr).
Proof.
  unfold Trace.all_events, stored_events. now rewrite fold_left_app_concat.
Qed.

Lemma fold_pairs (ss : list Span.t) (acc : list ReplayEngine.entry) :
  fold_left
    (fun pairs span =>
       fold_left (fun pairs event => pairs ++ [(span, event)]) (Span.events span) pairs)
    ss acc
  = acc ++ List.concat (map (fun s => map (fun e => (s, e)) (Span.events s)) ss).
Proof.
  revert acc; induction ss as [|s ss IH]; intros acc; simpl.
  - now rewrite app_nil_r.
  - now rewrite fold_left_snoc_map, IH, app_assoc.
Qed.

Lemma build_flat_list_unfold (tr : Trace.t) :
  ReplayEngine._build_flat_list tr
  = py_sorted (fun p : ReplayEngine.entry => Event.timestamp (snd p)) (stored_pairs tr).
Proof.
  unfold ReplayEngine._build_flat_list, stored_pairs. now rewrite fold_pairs.
Qed.

Lemma stored_pairs_events (tr : Trace.t) : map snd (stored_pairs tr) = stored_events tr.
Proof.
  unfold stored_pairs, stored_events.
  induction (Trace.spans tr) as [|s ss IH]; simpl; [reflexivity|].
  rewrite map_app, IH, map_map. simpl. now rewrite map_id.
Qed.

Lemma stored_pairs_owner (tr : Trace.t) (s : Span.t) (e : Event.t) :
  In (s, e) (stored_pairs tr) <-> In s (Trace.spans tr) /\ In e (Span.events s).
Proof.
  unfold stored_pairs. rewrite in_concat. split.
  - intros (l & Hl & Hin). apply in_map_iff in Hl as (s' & <- & Hs').
    apply in_map_iff in Hin as (e' & [= <- <-] & He'). now split.
  - intros [Hs He]. exists (map (fun e => (s, e)) (Span.events s)). split.
    + apply in_map_iff. now exists s.
    + apply in_map_iff. now exists e.
Qed.

(** C1: [all_events] holds every stored event (a permutation of the events
    in storage order), is sorted by timestamp in non-decreasing order, and
    keeps the storage order among the events of one timestamp; the tape of
    the replay engine is that sequence, every event paired with a span of
    the trace that stores it, every stored pair is on the tape once, and
    the pairs of one timestamp are in storage order. *)
Theorem all_events_canonical_order (tr : Trace.t) :
  Permutation (Trace.all_events tr) (stored_events tr) /\
  StronglySorted ts_le (Trace.all_events tr) /\
  (forall ts : Z,
      filter (at_time ts) (Trace.all_events tr) = filter (at_time ts) (stored_events tr)) /\
  map snd (ReplayEngine._flat (ReplayEngine.init tr)) = Trace.all_events tr /\
  Permutation (ReplayEngine._flat (ReplayEngine.init tr)) (stored_pairs tr) /\
  (forall ts : Z,
      filter (fun p => at_time ts (snd p)) (ReplayEngine._flat (ReplayEngine.init tr))
      = filter (fun p => at_time ts (snd p)) (stored_pairs tr)) /\
  (forall (s : Span.t) (e : Event.t),
      In (s, e) (ReplayEngine._flat (ReplayEngine.init tr)) ->
      In s (Trace.spans tr) /\ In e (Span.events s)).
Proof.
  rewrite all_events_unfold. unfold ReplayEngine.init. cbn [ReplayEngine._flat].
  rewrite build_flat_list_unfold.
  repeat split.
  - apply py_sorted_perm.
  - apply (py_sorted_sorted Event.timestamp).
  - intros ts. apply (py_sorted_stable Event.timestamp).
  - rewrite <- stored_pairs_events. apply (py_sorted_map snd Event.timestamp).
  - apply py_sorted_perm.
  - intros ts.
    apply (py_sorted_stable (fun p : ReplayEngine.entry => Event.timestamp (snd p))).
  - eapply Permutation_in in H; [|apply py_sorted_perm].
    now apply stored_pairs_owner in H.
  - eapply Permutation_in in H; [|apply py_sorted_perm].
    now apply stored_pairs_owner in H.
Qed.

Lemma all_events_canonical_order_witness :
  let s2 := sample_span "step-2" "span-2"
              [Event.mk TOOL_CALL 2
                 [("tool", JStr "search"); ("args", JDict [("q", JStr "test")])] "ev-3";
               Event.mk TOOL_RESULT 3
                 [("tool", JStr "search"); ("result", JDict [("r", JStr "found")])] "ev-4"] in
  let e3 := Event.mk TOOL_CALL 2
              [("tool", JStr "search"); ("args", JDict [("q", JStr "test")])] "ev-3" in
  map Event.event_id (Trace.all_events sample_two_spans)
  = ["ev-1"; "ev-2"; "ev-3"; "ev-4"]%string /\
  In s2 (Trace.spans sample_two_spans) /\ In e3 (Span.events s2).
Proof.
  intros s2 e3. split; [reflexivity|].
  apply (proj2 (proj2 (proj2 (proj2 (proj2 (proj2
           (all_events_canonical_order sample_two_spans)))))) s2 e3).
  vm_compute. tauto.
Defined.

(** ** The cursor *)

Lemma py_getitem_in_range {A : Type} (l : list A) (i : Z) :
  0 <= i < Z.of_nat (List.length l) ->
  exists x, nth_error l (Z.to_nat i) = Some x /\ py_getitem l i = Some x.
Proof.
  intros H. unfold py_getitem.
  destruct (0 <=? i) eqn:E1; [|apply Z.leb_gt in E1; lia].
  destruct (i <? Z.of_nat (List.length l)) eqn:E2; [|apply Z.ltb_ge in E2; lia].
  simpl. destruct (nth_error l (Z.to_nat i)) as [x|] eqn:E.
  - now exists x.
  - apply nth_error_None in E. lia.
Qed.

(** Reading the tape at an index that [lia] finds in range. *)
Ltac getitem_in_range l i :=
  let p := fresh "p" in
  destruct (py_getitem_in_range l i) as (p & _ & ->); [lia|].

Lemma step_at_end (e : ReplayEngine.t) :
  ReplayEngine.total_steps e <= ReplayEngine.position e ->
  ReplayEngine.step e = (Ok None, e).
Proof.
  unfold ReplayEngine.step, ReplayEngine.has_next, ReplayEngine.total_steps,
    ReplayEngine.position.
  intros H. destruct (_ <? _) eqn:E; [apply Z.ltb_lt in E; lia | reflexivity].
Qed.

Lemma step_in_range (e : ReplayEngine.t) :
  0 <= ReplayEngine.position e < ReplayEngine.total_steps e ->
  exists p, nth_error (ReplayEngine._flat e) (Z.to_nat (ReplayEngine.position e)) = Some p /\
            ReplayEngine.step e
            = (Ok (Some p), ReplayEngine.set_position e (ReplayEngine.position e + 1)).
Proof.
  unfold ReplayEngine.step, ReplayEngine.has_next, ReplayEngine.total_steps,
    ReplayEngine.position.
  intros H. destruct (py_getitem_in_range _ _ H) as (p & Hn & Hg).
  exists p. split; [exact Hn|].
  destruct (_ <? _) eqn:E; [|apply Z.ltb_ge in E; lia].
  simpl. now rewrite Hg.
Qed.

(** [k] steps from position [p] return the [k] tape entries from index [p]
    on and leave the cursor at [p + k]. *)
Lemma steps_from (k : nat) (e : ReplayEngine.t) :
  0 <= ReplayEngine.position e ->
  ReplayEngine.position e + Z.of_nat k <= ReplayEngine.total_steps e ->
  steps k e
  = (map (fun p => Ok (Some p))
       (firstn k (skipn (Z.to_nat (ReplayEngine.position e)) (ReplayEngine._flat e))),
     ReplayEngine.set_position e (ReplayEngine.position e + Z.of_nat k)).
Proof.
  unfold ReplayEngine.position, ReplayEngine.total_steps.
  revert e; induction k as [|k IH]; intros e H0 Hk.
  - simpl. rewrite Z.add_0_r. now destruct e.
  - destruct (step_in_range e) as (p & Hn & Hs);
      [unfold ReplayEngine.position, ReplayEngine.total_steps; lia|].
    unfold ReplayEngine.position in Hn, Hs.
    cbn [steps]. rewrite Hs.
    rewrite IH; cbn [ReplayEngine._position ReplayEngine.set_position ReplayEngine._flat];
      try lia.
    f_equal.
    + replace (Z.to_nat (ReplayEngine._position e + 1))
        with (S (Z.to_nat (ReplayEngine._position e))) by lia.
      revert Hn. generalize (Z.to_nat (ReplayEngine._position e)).
      generalize (ReplayEngine._flat e). clear.
      induction l as [|x l IHl]; intros [|n] Hn; simpl in *; try discriminate.
      * now injection Hn as ->.
      * now apply IHl.
    + unfold ReplayEngine.set_position. cbn. f_equal. lia.
Qed.

(** C3: from position 0, [total_steps] calls of [step()] return the tape
    entries 0 .. total_steps-1 once each and in order, and one more
    [step()] returns [None] and leaves the position alone; [step_back()]
    at position 0 returns [None] and leaves the position alone; [jump(k)]
    with 0 <= k < total_steps moves the cursor to [k] and returns the
    entry there, which a following [peek()] returns again; [jump(k)] with
    k < 0 or k >= total_steps returns [None] and leaves the engine
    alone. *)
Theorem cursor_navigation (e : ReplayEngine.t) :
  (ReplayEngine.position e = 0 ->
   let e' := snd (steps (List.length (ReplayEngine._flat e)) e) in
   fst (steps (List.length (ReplayEngine._flat e)) e)
   = map (fun p => Ok (Some p)) (ReplayEngine._flat e) /\
   ReplayEngine.position e' = ReplayEngine.total_steps e /\
   ReplayEngine.step e' = (Ok None, e')) /\
  (ReplayEngine.position e = ReplayEngine.total_steps e ->
   ReplayEngine.step e = (Ok None, e)) /\
  (ReplayEngine.position e = 0 -> ReplayEngine.step_back e = (Ok None, e)) /\
  (forall k : Z,
      0 <= k < ReplayEngine.total_steps e ->
      exists p,
        nth_error (ReplayEngine._flat e) (Z.to_nat k) = Some p /\
        ReplayEngine.jump k e = (Ok (Some p), ReplayEngine.set_position e k) /\
        ReplayEngine.position (snd (ReplayEngine.jump k e)) = k /\
        ReplayEngine.peek (snd (ReplayEngine.jump k e))
        = (Ok (Some p), snd (ReplayEngine.jump k e))) /\
  (forall k : Z,
      k < 0 \/ ReplayEngine.total_steps e <= k ->
      ReplayEngine.jump k e = (Ok None, e)).
Proof.
  repeat split.
  - rewrite steps_from; [|lia|unfold ReplayEngine.total_steps; lia].
    rewrite H. simpl. now rewrite firstn_all.
  - rewrite steps_from; [|lia|unfold ReplayEngine.total_steps; lia].
    cbn. rewrite H. reflexivity.
  - rewrite steps_from; [|lia|unfold ReplayEngine.total_steps; lia].
    apply step_at_end. cbn. rewrite H. unfold ReplayEngine.total_steps. cbn. lia.
  - intros H. apply step_at_end. lia.
  - intros H. unfold ReplayEngine.step_back, ReplayEngine.has_prev.
    unfold ReplayEngine.position in H. now rewrite H.
  - intros k Hk. unfold ReplayEngine.total_steps in Hk.
    destruct (py_getitem_in_range _ _ Hk) as (p & Hn & Hg).
    assert (Hj : ReplayEngine.jump k e = (Ok (Some p), ReplayEngine.set_position e k)).
    { unfold ReplayEngine.jump.
      destruct (0 <=? k) eqn:E1; [|apply Z.leb_gt in E1; lia].
      destruct (k <? _) eqn:E2; [|apply Z.ltb_ge in E2; lia].
      cbn. now rewrite Hg. }
    exists p. rewrite Hj. repeat split; [exact Hn|].
    unfold ReplayEngine.peek, ReplayEngine.has_next. cbn.
    destruct (k <? _) eqn:E2; [|apply Z.ltb_ge in E2; lia].
    cbn. now rewrite Hg.
  - intros k Hk. unfold ReplayEngine.jump, ReplayEngine.total_steps in *.
    destruct Hk as [Hk|Hk].
    + destruct (0 <=? k) eqn:E1; [apply Z.leb_le in E1; lia | reflexivity].
    + destruct (k <? _) eqn:E2; [apply Z.ltb_lt in E2; lia|].
      now rewrite andb_false_r.
Qed.

Lemma cursor_navigation_witness :
  let e := ReplayEngine.init sample_two_spans in
  fst (steps 4 e) = map (fun p => Ok (Some p)) (ReplayEngine._flat e) /\
  ReplayEngine.step (snd (steps 4 e)) = (Ok None, snd (steps 4 e)) /\
  ReplayEngine.step_back e = (Ok None, e) /\
  ReplayEngine.position (snd (ReplayEngine.jump 2 e)) = 2 /\
  ReplayEngine.jump 4 e = (Ok None, e) /\
  ReplayEngine.jump (-1) e = (Ok None, e).
Proof.
  intros e.
  destruct (cursor_navigation e) as (H1 & _ & H3 & H4 & H5).
  destruct (H1 eq_refl) as (Ha & _ & Hb).
  assert (Hr : 0 <= 2 < ReplayEngine.total_steps e) by (vm_compute; split; congruence).
  destruct (H4 2 Hr) as (p & _ & _ & Hp & _).
  split; [exact Ha|]. split; [exact Hb|]. split; [exact (H3 eq_refl)|].
  split; [exact Hp|]. split.
  - apply H5. right. vm_compute. congruence.
  - apply H5. left. reflexivity.
Defined.

Lemma apply_op_preserves (o : op) (e : ReplayEngine.t) :
  cursor_ok e ->
  cursor_ok (snd (apply_op o e)) /\
  ReplayEngine._flat (snd (apply_op o e)) = ReplayEngine._flat e /\
  fst (apply_op o e) = true.
Proof.
  unfold cursor_ok, ReplayEngine.position, ReplayEngine.total_steps.
  intros H. destruct o; cbn [apply_op].
  - (* step *)
    unfold ReplayEngine.step, ReplayEngine.has_next.
    destruct (_ <? _) eqn:E; cbn; [|auto].
    apply Z.ltb_lt in E.
    getitem_in_range (ReplayEngine._flat e) (ReplayEngine._position e).
    cbn. repeat split; lia.
  - (* step_back *)
    unfold ReplayEngine.step_back, ReplayEngine.has_prev.
    destruct (0 <? _) eqn:E; cbn; [|auto].
    apply Z.ltb_lt in E.
    getitem_in_range (ReplayEngine._flat e) (ReplayEngine._position e - 1).
    cbn. repeat split; lia.
  - (* peek *)
    unfold ReplayEngine.peek, ReplayEngine.has_next.
    destruct (_ <? _) eqn:E; cbn; [|auto].
    apply Z.ltb_lt in E.
    getitem_in_range (ReplayEngine._flat e) (ReplayEngine._position e).
    cbn. auto.
  - (* jump *)
    unfold ReplayEngine.jump.
    destruct (0 <=? k) eqn:E1; cbn; [|auto].
    destruct (k <? _) eqn:E2; cbn; [|auto].
    apply Z.leb_le in E1. apply Z.ltb_lt in E2.
    getitem_in_range (ReplayEngine._flat e) k.
    cbn. repeat split; lia.
  - (* reset *)
    cbn. repeat split; lia.
  - (* search *)
    cbn. auto.
  - (* current_span_events *)
    unfold ReplayEngine.current_span_events.
    destruct (ReplayEngine._flat e) as [|x l] eqn:El.
    + cbn. rewrite El. auto.
    + cbn [orb].
      destruct (Z.of_nat (List.length (x :: l)) <=? ReplayEngine._position e) eqn:E.
      * cbn. rewrite El. auto.
      * apply Z.leb_gt in E.
        getitem_in_range (x :: l)
          (Z.min (ReplayEngine._position e) (Z.of_nat (List.length (x :: l)) - 1)).
        cbn [fst snd is_ok]. rewrite El. auto.
Qed.

Lemma run_preserves (ops : list op) (e : ReplayEngine.t) :
  cursor_ok e ->
  cursor_ok (run ops e) /\ ReplayEngine._flat (run ops e) = ReplayEngine._flat e.
Proof.
  unfold run. revert e; induction ops as [|o ops IH]; intros e H; cbn; [auto|].
  destruct (apply_op_preserves o e H) as (H1 & H2 & _).
  destruct (IH _ H1) as (H3 & H4). split; [exact H3 | congruence].
Qed.

Lemma init_cursor_ok (tr : Trace.t) : cursor_ok (ReplayEngine.init tr).
Proof.
  unfold cursor_ok, ReplayEngine.position, ReplayEngine.total_steps. cbn. lia.
Qed.

(** C10: whatever calls are made on an engine built from a trace, the
    position stays within 0 .. total_steps, the tape is the one built at
    construction, and no call raises; [peek], [search] and
    [current_span_events] leave the engine, hence the position, as it
    was. *)
Theorem cursor_stays_in_range (tr : Trace.t) (ops : list op) :
  let e := run ops (ReplayEngine.init tr) in
  (0 <= ReplayEngine.position e <= ReplayEngine.total_steps e) /\
  ReplayEngine.total_steps e = ReplayEngine.total_steps (ReplayEngine.init tr) /\
  (forall o : op, fst (apply_op o e) = true) /\
  ReplayEngine.position (snd (ReplayEngine.peek e)) = ReplayEngine.position e /\
  ReplayEngine.position (snd (ReplayEngine.current_span_events e)) = ReplayEngine.position e /\
  (forall q : string, ReplayEngine.position (snd (apply_op (Search q) e)) = ReplayEngine.position e).
Proof.
  intros e.
  destruct (run_preserves ops _ (init_cursor_ok tr)) as (H1 & H2). fold e in H1, H2.
  split; [exact H1|]. split; [unfold ReplayEngine.total_steps; now rewrite H2|].
  split; [intros o; apply (apply_op_preserves o e H1)|].
  repeat split.
  - unfold ReplayEngine.peek. destruct (negb _); [reflexivity|].
    now destruct (py_getitem _ _).
  - unfold ReplayEngine.current_span_events. destruct (_ || _); [reflexivity|].
    now destruct (py_getitem _ _).
Qed.

Lemma run_example :
  ReplayEngine.position
    (run [Step; Step; Jump 7; StepBack; StepBack; StepBack; Jump 3; Step; Step; Peek]
       (ReplayEngine.init sample_two_spans)) = 4.
Proof. reflexivity. Qed.

(** ** [current_span_events] *)

(** C8, as the code has it: with the cursor on the tape,
    [current_span_events()] returns the tape pairs whose [span_id] is that
    of the pair under the cursor (that pair among them); with the cursor at
    the end of the tape it returns the empty list, whether the tape is
    empty or not. *)
Theorem current_span_events_spec (e : ReplayEngine.t) :
  (0 <= ReplayEngine.position e < ReplayEngine.total_steps e ->
   exists current,
     nth_error (ReplayEngine._flat e) (Z.to_nat (ReplayEngine.position e)) = Some current /\
     ReplayEngine.current_span_events e
     = (Ok (filter (same_span current) (ReplayEngine._flat e)), e) /\
     In current (filter (same_span current) (ReplayEngine._flat e))) /\
  (ReplayEngine.total_steps e <= ReplayEngine.position e ->
   ReplayEngine.current_span_events e = (Ok [], e)).
Proof.
  unfold ReplayEngine.position, ReplayEngine.total_steps, ReplayEngine.current_span_events.
  split; intros H.
  - destruct (py_getitem_in_range _ _ H) as (p & Hn & Hg).
    exists p. split; [exact Hn|].
    destruct (ReplayEngine._flat e) as [|x l] eqn:El; [cbn in H; lia|].
    cbn [orb].
    destruct (_ <=? _) eqn:E; [apply Z.leb_le in E; lia|].
    rewrite Z.min_l by lia. rewrite Hg. split; [reflexivity|].
    apply filter_In. split; [eapply nth_error_In; exact Hn|].
    unfold same_span. apply String.eqb_refl.
  - destruct (_ <=? _) eqn:E; [|apply Z.leb_gt in E; lia].
    now rewrite orb_true_r.
Qed.

Lemma current_span_events_spec_witness :
  let e := ReplayEngine.init sample_two_spans in
  (exists current,
      nth_error (ReplayEngine._flat e) 0 = Some current /\
      ReplayEngine.current_span_events e
      = (Ok (filter (same_span current) (ReplayEngine._flat e)), e)) /\
  ReplayEngine.current_span_events (snd (steps 4 e)) = (Ok [], snd (steps 4 e)).
Proof.
  intros e. split.
  - destruct (proj1 (current_span_events_spec e)) as (c & H1 & H2 & _).
    + vm_compute. split; congruence.
    + exists c. split; [exact H1 | exact H2].
  - apply (proj2 (current_span_events_spec (snd (steps 4 e)))).
    vm_compute. congruence.
Defined.

(** C8 as stated fails: after four steps over a tape of four entries the
    cursor is past the end; the pairs of the span of the last valid
    location are two, and [current_span_events()] returns none. *)
Lemma current_span_events_past_end :
  let e := snd (steps 4 (ReplayEngine.init sample_two_spans)) in
  ReplayEngine.position e = ReplayEngine.total_steps e /\
  ReplayEngine._flat e <> [] /\
  fst (ReplayEngine.current_span_events e) = Ok [] /\
  exists last,
    nth_error (ReplayEngine._flat e) (Z.to_nat (ReplayEngine.total_steps e - 1)) = Some last /\
    List.length (filter (same_span last) (ReplayEngine._flat e)) = 2%nat /\
    fst (ReplayEngine.current_span_events e)
    <> Ok (filter (same_span last) (ReplayEngine._flat e)).
Proof.
  cbv zeta. split; [reflexivity|]. split; [vm_compute; discriminate|].
  split; [reflexivity|].
  eexists. split; [vm_compute; reflexivity|]. split; [reflexivity|].
  vm_compute. discriminate.
Qed.

(** ** [search] *)

Lemma lower_app (a b : string) : lower (a ++ b)%string = (lower a ++ lower b)%string.
Proof. induction a as [|c a IH]; simpl; [reflexivity | now rewrite IH]. Qed.

Lemma prefix_app (q a b : string) :
  String.prefix q a = true -> String.prefix q (a ++ b)%string = true.
Proof.
  revert a; induction q as [|c q IH]; intros a H; [now destruct (a ++ b)%string|].
  destruct a as [|c' a]; simpl in *; [discriminate|].
  destruct (ascii_dec c c'); [now apply IH | discriminate].
Qed.

Lemma contains_app_l (a b q : string) :
  contains a q = true -> contains (a ++ b)%string q = true.
Proof.
  induction a as [|c a IH]; intros H.
  - destruct q; [now destruct b | discriminate].
  - cbn [contains] in H. apply orb_true_iff in H as [H|H].
    + change (contains (String c a ++ b)%string q)
        with (String.prefix q (String c a ++ b)%string || contains (a ++ b)%string q).
      now rewrite (prefix_app _ _ _ H).
    + change (contains (String c a ++ b)%string q)
        with (String.prefix q (String c a ++ b)%string || contains (a ++ b)%string q).
      rewrite (IH H). apply orb_true_r.
Qed.

Lemma contains_app_r (a b q : string) :
  contains b q = true -> contains (a ++ b)%string q = true.
Proof.
  intros H. induction a as [|c a IH]; [exact H|].
  change (contains (String c a ++ b)%string q)
    with (String.prefix q (String c a ++ b)%string || contains (a ++ b)%string q).
  rewrite IH. apply orb_true_r.
Qed.

Lemma fold_left_select {A : Type} (f : A -> bool) (l : list (nat * A)) (acc : list nat) :
  fold_left (fun results ip => if f (snd ip) then results ++ [fst ip] else results) l acc
  = acc ++ map fst (filter (fun ip => f (snd ip)) l).
Proof.
  revert acc; induction l as [|x l IH]; intros acc; simpl.
  - now rewrite app_nil_r.
  - rewrite IH. destruct (f (snd x)); simpl; [now rewrite <- app_assoc | reflexivity].
Qed.

Lemma in_combine_seq {A : Type} (l : list A) (s i : nat) (p : A) :
  In (i, p) (combine (seq s (List.length l)) l)
  <-> (s <= i)%nat /\ nth_error l (i - s) = Some p.
Proof.
  revert s; induction l as [|x l IH]; intros s; simpl.
  - split; [tauto|]. intros [_ H]. now destruct (i - s)%nat.
  - rewrite IH. split.
    + intros [[= <- <-]|[H1 H2]].
      * split; [lia|]. now rewrite Nat.sub_diag.
      * split; [lia|]. now replace (i - s)%nat with (S (i - S s)) by lia.
    + intros [H1 H2]. destruct (Nat.eq_dec s i) as [->|Hne].
      * left. rewrite Nat.sub_diag in H2. simpl in H2. congruence.
      * right. split; [lia|].
        now replace (i - s)%nat with (S (i - S s)) in H2 by lia.
Qed.

Lemma search_unfold (query : string) (e : ReplayEngine.t) :
  ReplayEngine.search query e
  = map fst (filter (fun ip => line_contains query (snd ip))
               (combine (seq 0 (List.length (ReplayEngine._flat e))) (ReplayEngine._flat e))).
Proof.
  unfold ReplayEngine.search.
  now rewrite (fold_left_select (line_contains query)).
Qed.

Lemma field_contains_line (query : string) (p : ReplayEngine.entry) :
  field_contains query p = true -> line_contains query p = true.
Proof.
  unfold field_contains, line_contains, ReplayEngine.searchable.
  rewrite !lower_app. intros H.
  apply orb_true_iff in H as [H|H]; [apply orb_true_iff in H as [H|H]|].
  - now apply contains_app_l.
  - apply contains_app_r, contains_app_r. now apply contains_app_l.
  - now do 4 apply contains_app_r.
Qed.

(** C9, as the code has it: [search(query)] returns, in increasing order
    and once each, exactly the tape indices whose line "name label
    payload" contains the query as a case-insensitive substring; every
    index whose span name, type label or stringified payload contains the
    query is among them. *)
Theorem search_spec (e : ReplayEngine.t) (query : string) :
  ReplayEngine.search query e
  = filter (fun i => match nth_error (ReplayEngine._flat e) i with
                     | Some p => line_contains query p
                     | None => false
                     end)
      (seq 0 (List.length (ReplayEngine._flat e))) /\
  (forall i : nat,
      In i (ReplayEngine.search query e)
      <-> exists p, nth_error (ReplayEngine._flat e) i = Some p /\ line_contains query p = true) /\
  (forall (i : nat) (p : ReplayEngine.entry),
      nth_error (ReplayEngine._flat e) i = Some p ->
      field_contains query p = true ->
      In i (ReplayEngine.search query e)).
Proof.
  assert (Hin : forall i : nat,
             In i (ReplayEngine.search query e)
             <-> exists p, nth_error (ReplayEngine._flat e) i = Some p
                           /\ line_contains query p = true).
  { intros i. rewrite search_unfold, in_map_iff. split.
    - intros ([i' p] & <- & H). apply filter_In in H as [H1 H2].
      apply in_combine_seq in H1 as [_ H1]. rewrite Nat.sub_0_r in H1.
      now exists p.
    - intros (p & H1 & H2). exists (i, p). split; [reflexivity|].
      apply filter_In. split; [|exact H2].
      apply in_combine_seq. rewrite Nat.sub_0_r. split; [lia | exact H1]. }
  split; [|split].
  - rewrite search_unfold.
    generalize (ReplayEngine._flat e) as l. intros l.
    assert (H : forall s,
               map fst (filter (fun ip => line_contains query (snd ip))
                          (combine (seq s (List.length l)) l))
               = filter (fun i => match nth_error l (i - s) with
                                  | Some p => line_contains query p
                                  | None => false
                                  end) (seq s (List.length l))).
    { induction l as [|x l IH]; intros s; simpl; [reflexivity|].
      rewrite Nat.sub_diag. simpl.
      assert (Ht : filter (fun i => match nth_error (x :: l) (i - s) with
                                    | Some p => line_contains query p
                                    | None => false
                                    end) (seq (S s) (List.length l))
                   = filter (fun i => match nth_error l (i - S s) with
                                      | Some p => line_contains query p
                                      | None => false
                                      end) (seq (S s) (List.length l))).
      { apply filter_ext_in. intros i Hi. apply in_seq in Hi.
        now replace (i - s)%nat with (S (i - S s)) by lia. }
      rewrite Ht, <- IH. now destruct (line_contains query x). }
    rewrite H. apply filter_ext. intros i. now rewrite Nat.sub_0_r.
  - exact Hin.
  - intros i p H1 H2. apply Hin. exists p. split; [exact H1|].
    now apply field_contains_line.
Qed.

Lemma search_spec_witness :
  In 2%nat (ReplayEngine.search "SEARCH" (ReplayEngine.init sample_two_spans)).
Proof.
  eapply (proj2 (proj2 (search_spec (ReplayEngine.init sample_two_spans) "SEARCH")) 2%nat).
  - vm_compute. reflexivity.
  - vm_compute. reflexivity.
Defined.

(** C9 as stated fails: the query "s tool" occurs in none of the span
    name "s", the label "tool_call" and the payload, and [search] returns
    index 0, because it occurs in the line "s tool_call {...}". *)
Lemma search_across_fields :
  let e := ReplayEngine.init sample_search in
  ReplayEngine.search "s tool" e = [0%nat] /\
  exists p, nth_error (ReplayEngine._flat e) 0 = Some p /\
            Span.name (fst p) = "s"%string /\
            field_contains "s tool" p = false.
Proof.
  cbv zeta. split; [vm_compute; reflexivity|].
  eexists. split; [vm_compute; reflexivity|]. split; vm_compute; reflexivity.
Qed.

(** ** Persistence *)

Lemma uuid_tick_add (a b : nat) (w : world) :
  uuid_tick a (uuid_tick b w) = uuid_tick (a + b) w.
Proof. unfold uuid_tick. cbn. f_equal. lia. Qed.

Lemma event_type_roundtrip (ty : EventType) (w : world) :
  EventTypes.of_value (JStr (EventTypes.value ty)) w = Ok (ty, w).
Proof. now destruct ty. Qed.

Lemma event_roundtrip (e : Event.t) (w : world) :
  Event.from_dict (Event.to_dict e) w = Ok (e, uuid_tick 1 w).
Proof.
  destruct e as [ty ts da id]. now destruct ty.
Qed.

Lemma events_roundtrip (es : list Event.t) (w : world) :
  mapM Span.event_of_json (map (fun e => JDict (Event.to_dict e)) es) w
  = Ok (es, uuid_tick (List.length es) w).
Proof.
  revert w; induction es as [|e es IH]; intros w.
  - now destruct w.
  - cbn [map mapM Span.event_of_json]. unfold bind at 1.
    rewrite event_roundtrip. unfold bind at 1. rewrite IH. cbn [ret].
    rewrite uuid_tick_add. cbn [List.length]. now rewrite Nat.add_comm.
Qed.

Lemma span_roundtrip (s : Span.t) (w : world) :
  Span.from_dict (dict_pop (dict_prepend "type" (JStr "span") (Span.to_dict s)) "type") w
  = Ok (s, uuid_tick (List.length (Span.events s)) w).
Proof.
  destruct s as [nm id pid st en es md].
  unfold Span.from_dict, bind. cbn.
  destruct pid, en; cbn; rewrite events_roundtrip; reflexivity.
Qed.

Lemma span_line_load (s : Span.t) (acc : list Span.t) (header : dict) (w : world) :
  Trace.load_line (acc, header) (span_line s) w
  = Ok ((acc ++ [s], header), uuid_tick (List.length (Span.events s)) w).
Proof.
  unfold span_line, Trace.load_line.
  change (dict_get (dict_prepend "type" (JStr "span") (Span.to_dict s)) "type" JNull)
    with (JStr "span").
  cbn [py_eq String.eqb Ascii.eqb Bool.eqb fst snd].
  unfold bind. now rewrite span_roundtrip.
Qed.

Lemma span_lines_load (ss acc : list Span.t) (header : dict) (w : world) :
  Trace.load_lines (map span_line ss) (acc, header) w
  = Ok ((acc ++ ss, header),
        uuid_tick (List.length (List.concat (map Span.events ss))) w).
Proof.
  revert acc w; induction ss as [|s ss IH]; intros acc w.
  - cbn. rewrite app_nil_r. now destruct w.
  - cbn [map Trace.load_lines]. unfold bind. rewrite span_line_load, IH.
    rewrite uuid_tick_add, <- app_assoc. cbn [List.concat map].
    rewrite length_app. do 2 f_equal. f_equal. lia.
Qed.

Lemma load_save_identity (tr : Trace.t) (w : world) :
  exists w', Trace.load (Trace.save tr) w = Ok (tr, w').
Proof.
  exists (uuid_tick (S (List.length (stored_events tr))) w).
  destruct tr as [id nm st en ss md]. unfold Trace.save, Trace.load.
  cbn [Trace.trace_id Trace.name Trace.start_time Trace.end_time Trace.spans
       Trace.metadata].
  change (map (fun span => Doc (JDict (dict_prepend "type" (JStr "span") (Span.to_dict span)))) ss)
    with (map span_line ss).
  unfold bind at 1. cbn [Trace.load_lines]. unfold bind at 1.
  cbn [Trace.load_line dict_get dict_lookup py_eq String.eqb Ascii.eqb Bool.eqb fst snd ret].
  rewrite span_lines_load. unfold stored_events. cbn [Trace.spans app].
  destruct en; reflexivity.
Qed.

(** C2: loading what [save] wrote gives the trace back: the same
    [trace_id] and [name], as many spans, and in each span as many events,
    of the same types and with the same payloads (indeed every field of
    the trace, of its spans and of their events). *)
Theorem save_load_roundtrip (tr : Trace.t) (w : world) :
  exists (loaded : Trace.t) (w' : world),
    Trace.load (Trace.save tr) w = Ok (loaded, w') /\
    Trace.trace_id loaded = Trace.trace_id tr /\
    Trace.name loaded = Trace.name tr /\
    List.length (Trace.spans loaded) = List.length (Trace.spans tr) /\
    Forall2
      (fun s s' =>
         List.length (Span.events s) = List.length (Span.events s') /\
         map Event.event_type (Span.events s) = map Event.event_type (Span.events s') /\
         map Event.data (Span.events s) = map Event.data (Span.events s'))
      (Trace.spans loaded) (Trace.spans tr) /\
    loaded = tr.
Proof.
  destruct (load_save_identity tr w) as (w' & H).
  exists tr, w'. split; [exact H|]. repeat split.
  induction (Trace.spans tr) as [|s ss IH]; constructor; auto.
Qed.

(** A trace recorded through [add_span], [add_event] and [close] comes
    back from its file, whatever the clock and the identifiers were. *)
Lemma recorded_session_roundtrip (w : world) :
  exists (tr : Trace.t) (w1 : world),
    recorded_session w = Ok (tr, w1) /\
    List.length (Trace.spans tr) = 2%nat /\
    Trace.event_count tr = 3%nat /\
    exists w2 : world, Trace.load (Trace.save tr) w1 = Ok (tr, w2).
Proof.
  destruct w as [us uc cs cc]. eexists. eexists.
  split; [vm_compute; reflexivity|].
  split; [reflexivity|]. split; [reflexivity|].
  apply load_save_identity.
Qed.

Lemma save_load_example :
  exists w', Trace.load (Trace.save sample_two_spans) (mkWorld (fun _ => "") 0 (fun _ => 0) 0)
             = Ok (sample_two_spans, w').
Proof. eexists. vm_compute. reflexivity. Qed.

(** ** Malformed files *)

Lemma dict_pop_lookup_none (d : dict) (k k' : string) :
  dict_lookup d k' = None -> dict_lookup (dict_pop d k) k' = None.
Proof.
  induction d as [|[k0 v0] d IH]; simpl; [reflexivity|].
  destruct (String.eqb k0 k') eqn:E; [discriminate|]. intros H.
  destruct (String.eqb k0 k); simpl; [auto|]. rewrite E. auto.
Qed.

Lemma load_lines_app (pre post : list line) (st : list Span.t * dict) (w : world) :
  Trace.load_lines (pre ++ post) st w
  = match Trace.load_lines pre st w with
    | Ok (st', w') => Trace.load_lines post st' w'
    | Raise e => Raise e
    | Untyped fld => Untyped fld
    end.
Proof.
  revert st w; induction pre as [|l pre IH]; intros st w; [reflexivity|].
  cbn [app Trace.load_lines]. unfold bind.
  destruct (Trace.load_line st l w) as [[st' w']| |]; auto.
Qed.

Lemma nameless_span_raises (record : dict) (st : list Span.t * dict) (w : world) :
  dict_lookup record "type" = Some (JStr "span") ->
  dict_lookup record "name" = None ->
  Trace.load_line st (Doc (JDict record)) w = Raise (KeyError "name").
Proof.
  intros Ht Hn. unfold Trace.load_line, dict_get. rewrite Ht.
  cbn [py_eq String.eqb Ascii.eqb Bool.eqb].
  unfold bind, Span.from_dict, bind, getitem.
  now rewrite (dict_pop_lookup_none record "type" "name" Hn).
Qed.

(** C7 (amended): loading a file one of whose lines is a span record
    without a [name] never returns a trace, whatever the other lines hold;
    when the lines before that record load, the call raises Python's
    [KeyError] of the missing field, which neither [load] nor [from_file]
    catches: it reaches the caller, and the spans read so far are dropped
    with it.  The code defines no exception class of its own. *)
Theorem load_span_without_name (f : list line) (record : dict) (w : world) :
  In (Doc (JDict record)) f ->
  dict_lookup record "type" = Some (JStr "span") ->
  dict_lookup record "name" = None ->
  (forall (tr : Trace.t) (w' : world), Trace.load f w <> Ok (tr, w')) /\
  (forall pre post st w',
      f = pre ++ Doc (JDict record) :: post ->
      Trace.load_lines pre ([], []) w = Ok (st, w') ->
      Trace.load f w = Raise (KeyError "name") /\
      ReplayEngine.from_file f w = Raise (KeyError "name")).
Proof.
  intros Hin Ht Hn. split.
  - intros tr w' H. apply in_split in Hin as (pre & post & ->).
    unfold Trace.load, bind in H. rewrite load_lines_app in H.
    destruct (Trace.load_lines pre ([], []) w) as [[st1 w1]| |]; try discriminate.
    cbn [Trace.load_lines] in H. unfold bind in H.
    now rewrite (nameless_span_raises record st1 w1 Ht Hn) in H.
  - intros pre post st w' -> Hpre.
    assert (H : Trace.load (pre ++ Doc (JDict record) :: post) w = Raise (KeyError "name")).
    { unfold Trace.load, bind. rewrite load_lines_app, Hpre.
      cbn [Trace.load_lines]. unfold bind.
      now rewrite (nameless_span_raises record st w' Ht Hn). }
    split; [exact H|]. unfold ReplayEngine.from_file, bind. now rewrite H.
Qed.

Lemma load_span_without_name_witness :
  let bad := [("type", JStr "span"); ("span_id", JStr "span-9"); ("start_time", JNum 0)] in
  let f := (Trace.save sample_two_spans ++ [Blank; Doc (JDict bad)])%list in
  Trace.load f (mkWorld (fun _ => "") 0 (fun _ => 0) 0) = Raise (KeyError "name").
Proof.
  intros bad f.
  refine (proj1 (proj2 (load_span_without_name f bad _ _ eq_refl eq_refl)
                   (Trace.save sample_two_spans ++ [Blank])%list [] _ _ _ _)).
  - vm_compute. tauto.
  - vm_compute. reflexivity.
  - vm_compute. reflexivity.
Defined.

(** C7 as first worded does not hold.  A header record that has neither
    [trace_id] nor [name] is no error for [load], which reads both with
    [header.get] and a default: the file loads, with the name "unnamed"
    and sixteen characters of a fresh [uuid4().hex] as id.  And the
    exception for a span record without [name] is the built-in
    [KeyError], raised by [d["name"]] in [Span.from_dict]. *)
Lemma load_header_without_id :
  let header := [("type", JStr "trace_header"); ("start_time", JNum 5)] in
  let nameless := [("type", JStr "span"); ("span_id", JStr "span-9"); ("start_time", JNum 0)] in
  dict_lookup header "trace_id" = None /\
  dict_lookup header "name" = None /\
  Trace.load (Doc (JDict header) :: map span_line (Trace.spans sample_short)) sample_world
  = Ok (Trace.mk "0123456789abcdef" "unnamed" 5 None (Trace.spans sample_short) [],
        uuid_tick 2 sample_world) /\
  Trace.load [Doc (JDict header); Doc (JDict nameless)] sample_world
  = Raise (KeyError "name").
Proof.
  cbv zeta. split; [reflexivity|]. split; [reflexivity|].
  split; vm_compute; reflexivity.
Qed.

(** ** Python equality *)

Lemma json_wf_list (l : list json) :
  json_wf (JList l) = forallb json_wf l.
Proof. induction l as [|a l IH]; simpl in *; [reflexivity | now rewrite IH]. Qed.

Lemma json_wf_dict (d : dict) :
  json_wf (JDict d) = unique_keys (map fst d) && forallb (fun kv => json_wf (snd kv)) d.
Proof.
  cbn [json_wf]. f_equal.
  induction d as [|[k a] d IH]; simpl in *; [reflexivity | now rewrite IH].
Qed.

Lemma unique_keys_lookup (d : dict) (k : string) (v : json) :
  unique_keys (map fst d) = true -> In (k, v) d -> dict_lookup d k = Some v.
Proof.
  induction d as [|[k0 v0] d IH]; simpl; [tauto|].
  intros H [Heq|Hin].
  - injection Heq as -> ->. now rewrite String.eqb_refl.
  - apply andb_true_iff in H as [H1 H2].
    destruct (String.eqb k0 k) eqn:E; [|now apply IH].
    apply String.eqb_eq in E. subst k0.
    apply negb_true_iff in H1.
    assert (Hex : existsb (String.eqb k) (map fst d) = true).
    { apply existsb_exists. exists k. split; [|apply String.eqb_refl].
      apply in_map_iff. now exists (k, v). }
    congruence.
Qed.

Lemma py_eq_list (x y : list json) :
  py_eq (JList x) (JList y)
  = match x, y with
    | [], [] => true
    | a :: x', b :: y' => py_eq a b && py_eq (JList x') (JList y')
    | _, _ => false
    end.
Proof. now destruct x, y. Qed.

Lemma py_eq_dict_bindings (x y : dict) :
  py_eq (JDict x) (JDict y)
  = Nat.eqb (List.length x) (List.length y)
    && forallb (fun kv => match dict_lookup y (fst kv) with
                          | Some w => py_eq (snd kv) w
                          | None => false
                          end) x.
Proof.
  cbn [py_eq]. f_equal.
  induction x as [|[k v] x IH]; simpl; [reflexivity | now rewrite IH].
Qed.

(** [v == v] holds of every JSON value (there is no NaN among them). *)
Lemma py_eq_refl (v : json) : json_wf v = true -> py_eq v v = true.
Proof.
  induction v as [| b | n | s | l IH | d IH] using json_induction; intros Hwf.
  - reflexivity.
  - apply Bool.eqb_reflx.
  - apply Z.eqb_refl.
  - apply String.eqb_refl.
  - rewrite json_wf_list in Hwf.
    induction IH as [|a l Ha _ IHl]; [reflexivity|].
    rewrite py_eq_list. simpl in Hwf. apply andb_true_iff in Hwf as [H1 H2].
    now rewrite Ha, IHl.
  - rewrite json_wf_dict in Hwf. apply andb_true_iff in Hwf as [Hk Hv].
    rewrite py_eq_dict_bindings, Nat.eqb_refl. cbn [andb].
    apply forallb_forall. intros [k v] Hin. cbn [fst snd].
    rewrite (unique_keys_lookup d k v Hk Hin).
    rewrite Forall_forall in IH. apply (IH (k, v) Hin).
    rewrite forallb_forall in Hv. apply (Hv (k, v) Hin).
Qed.

Lemma dict_get_wf (d : dict) (k : string) (default : json) :
  dict_wf d = true -> json_wf default = true -> json_wf (dict_get d k default) = true.
Proof.
  unfold dict_wf, dict_get. rewrite json_wf_dict. intros H Hd.
  apply andb_true_iff in H as [_ H].
  induction d as [|[k0 v0] d IH]; simpl in *; [exact Hd|].
  apply andb_true_iff in H as [H1 H2].
  destruct (String.eqb k0 k); [exact H1 | now apply IH].
Qed.

Lemma py_ne_same (d : dict) (k : string) (default : json) :
  dict_wf d = true -> json_wf default = true ->
  py_ne (dict_get d k default) (dict_get d k default) = false.
Proof.
  intros H Hd. unfold py_ne. now rewrite py_eq_refl by now apply dict_get_wf.
Qed.

(** ** The diff engine *)

Lemma diff_divergences (A B : Trace.t) :
  DiffResult.divergences (diff_traces A B)
  = List.concat
      (map (fun i => diff_at A B i (nth_error (Trace.all_events A) i)
                       (nth_error (Trace.all_events B) i))
         (seq 0 (Nat.max (List.length (Trace.all_events A))
                   (List.length (Trace.all_events B))))).
Proof.
  unfold diff_traces. cbn [DiffResult.divergences].
  now rewrite (fold_left_app_concat
                 (fun i => diff_at A B i (nth_error (Trace.all_events A) i)
                             (nth_error (Trace.all_events B) i))).
Qed.

Lemma concat_map_nil {X Y : Type} (f : X -> list Y) (l : list X) :
  (forall x, In x l -> f x = []) -> List.concat (map f l) = [].
Proof.
  induction l as [|x l IH]; intros H; simpl; [reflexivity|].
  rewrite (H x (or_introl eq_refl)), IH; [reflexivity|].
  intros y Hy. apply H. now right.
Qed.

Lemma event_type_eqb_refl (ty : EventType) : EventTypes.eqb ty ty = true.
Proof. apply String.eqb_refl. Qed.

(** An event compared with itself gives no divergence. *)
Lemma diff_at_same (A B : Trace.t) (i : nat) (o : option Event.t) :
  (forall e, o = Some e -> dict_wf (Event.data e) = true) ->
  diff_at A B i o o = [].
Proof.
  destruct o as [e|]; [|reflexivity]. intros H. specialize (H e eq_refl).
  unfold diff_at. rewrite event_type_eqb_refl. cbn [negb].
  destruct (Event.event_type e); try reflexivity; now rewrite py_ne_same.
Qed.

Lemma trace_wf_all_events (T : Trace.t) (e : Event.t) :
  trace_wf T = true -> In e (Trace.all_events T) -> dict_wf (Event.data e) = true.
Proof.
  unfold trace_wf. rewrite forallb_forall. intros H Hin. apply H.
  eapply Permutation_in; [|exact Hin].
  rewrite all_events_unfold. apply py_sorted_perm.
Qed.

Lemma identical_iff (r : DiffResult.t) :
  DiffResult.identical r = true <-> DiffResult.divergences r = [].
Proof.
  unfold DiffResult.identical. destruct (DiffResult.divergences r); simpl.
  - tauto.
  - split; discriminate.
Qed.

(** C4: a trace diffed with itself is identical; [identical] holds exactly
    when the list of divergences is empty; two traces without events are
    identical, with no divergence. *)
Theorem diff_identity :
  (forall T : Trace.t,
      trace_wf T = true -> DiffResult.identical (diff_traces T T) = true) /\
  (forall r : DiffResult.t,
      DiffResult.identical r = true <-> DiffResult.divergences r = []) /\
  (forall A B : Trace.t,
      Trace.all_events A = [] -> Trace.all_events B = [] ->
      DiffResult.identical (diff_traces A B) = true /\
      DiffResult.divergences (diff_traces A B) = []).
Proof.
  split; [|split].
  - intros T Hwf. apply identical_iff. rewrite diff_divergences.
    apply concat_map_nil. intros i _. apply diff_at_same.
    intros e He. apply (trace_wf_all_events T e Hwf).
    eapply nth_error_In. exact He.
  - exact identical_iff.
  - intros A B HA HB.
    assert (H : DiffResult.divergences (diff_traces A B) = []).
    { rewrite diff_divergences, HA, HB. reflexivity. }
    split; [now apply identical_iff | exact H].
Qed.

Lemma diff_identity_witness :
  DiffResult.identical (diff_traces sample_two_spans sample_two_spans) = true /\
  DiffResult.divergences
    (diff_traces (Trace.mk "a" "a" 0 None [] []) (Trace.mk "b" "b" 0 None [sample_span "s" "s-1" []] []))
  = [].
Proof.
  split.
  - apply (proj1 diff_identity). reflexivity.
  - apply (proj2 (proj2 diff_identity)); reflexivity.
Defined.

Lemma nth_error_other {X : Type} (l1 l2 : list X) (x y : X) (i : nat) :
  i <> List.length l1 ->
  nth_error (l1 ++ x :: l2) i = nth_error (l1 ++ y :: l2) i /\
  (forall z, nth_error (l1 ++ x :: l2) i = Some z -> In z (l1 ++ l2)).
Proof.
  revert i; induction l1 as [|a l1 IH]; intros [|i] H; simpl in *; try congruence.
  - split; [reflexivity|]. intros z Hz. eapply nth_error_In; exact Hz.
  - split; [reflexivity|]. intros z [= <-]. now left.
  - destruct (IH i) as [H1 H2]; [congruence|]. split; [exact H1|].
    intros z Hz. right. now apply H2.
Qed.



(** C6: when the canonical sequences of A and B are the same but for one
    position, where both hold a [tool_call] and the [tool] values differ
    (a payload without the key reads as [None]), the diff returns (it
    never raises) exactly one divergence, at that position, of severity
    "critical", and [critical_count] is 1. *)
Theorem diff_tool_change (A B : Trace.t) (l1 l2 : list Event.t) (ea eb : Event.t) :
  trace_wf A = true ->
  Trace.all_events A = l1 ++ ea :: l2 ->
  Trace.all_events B = l1 ++ eb :: l2 ->
  Event.event_type ea = TOOL_CALL ->
  Event.event_type eb = TOOL_CALL ->
  py_ne (dict_get (Event.data ea) "tool" JNull) (dict_get (Event.data eb) "tool" JNull) = true ->
  DiffResult.divergences (diff_traces A B)
  = [divergence_at A B (List.length l1)
       ("Different tool called: " ++ py_str (dict_get (Event.data ea) "tool" JNull)
          ++ " vs " ++ py_str (dict_get (Event.data eb) "tool" JNull))%string
       ea eb "critical"] /\
  DiffResult.critical_count (diff_traces A B) = 1%nat /\
  DiffResult.identical (diff_traces A B) = false.
Proof.
  intros Hwf HA HB Hta Htb Hne.
  assert (H : DiffResult.divergences (diff_traces A B)
              = [divergence_at A B (List.length l1)
                   ("Different tool called: " ++ py_str (dict_get (Event.data ea) "tool" JNull)
                      ++ " vs " ++ py_str (dict_get (Event.data eb) "tool" JNull))%string
                   ea eb "critical"]).
  { rewrite diff_divergences, HA, HB.
    assert (Hsame : forall i, i <> List.length l1 ->
                diff_at A B i (nth_error (l1 ++ ea :: l2) i) (nth_error (l1 ++ eb :: l2) i) = []).
    { intros i Hi. destruct (nth_error_other l1 l2 ea eb i Hi) as [H1 H2].
      rewrite <- H1. apply diff_at_same. intros e He.
      apply (trace_wf_all_events A e Hwf). rewrite HA.
      apply H2 in He. apply in_app_iff in He as [He|He]; apply in_app_iff; [now left|].
      right. now right. }
    rewrite !length_app. cbn [List.length]. rewrite Nat.max_id.
    rewrite seq_app, map_app, concat_app. cbn [Nat.add seq map List.concat].
    rewrite !concat_map_nil.
    - cbn [app]. rewrite app_nil_r.
      rewrite !nth_error_app2 by lia. rewrite Nat.sub_diag. cbn [nth_error].
      unfold diff_at. rewrite Hta, Htb.
      change (EventTypes.eqb TOOL_CALL TOOL_CALL) with true.
      cbn [negb]. rewrite Hne. reflexivity.
    - intros i Hi. apply in_seq in Hi. apply Hsame. lia.
    - intros i Hi. apply in_seq in Hi. apply Hsame. lia. }
  split; [exact H|]. unfold DiffResult.critical_count, DiffResult.identical.
  rewrite H. split; reflexivity.
Qed.

Lemma diff_tool_change_witness :
  DiffResult.critical_count (diff_traces sample_search sample_browse) = 1%nat /\
  DiffResult.critical_count (diff_traces sample_no_tool sample_browse) = 1%nat /\
  map Divergence.description (DiffResult.divergences (diff_traces sample_no_tool sample_browse))
  = ["Different tool called: None vs browse"%string].
Proof.
  split; [|split].
  - apply (diff_tool_change sample_search sample_browse [] []
             (Event.mk TOOL_CALL 1 [("tool", JStr "search"); ("args", JDict [])] "ev-a1")
             (Event.mk TOOL_CALL 1 [("tool", JStr "browse"); ("args", JDict [])] "ev-b1"));
      reflexivity.
  - apply (diff_tool_change sample_no_tool sample_browse [] []
             (Event.mk TOOL_CALL 1 [] "ev-c1")
             (Event.mk TOOL_CALL 1 [("tool", JStr "browse"); ("args", JDict [])] "ev-b1"));
      reflexivity.
  - rewrite (proj1 (diff_tool_change sample_no_tool sample_browse [] []
             (Event.mk TOOL_CALL 1 [] "ev-c1")
             (Event.mk TOOL_CALL 1 [("tool", JStr "browse"); ("args", JDict [])] "ev-b1")
             eq_refl eq_refl eq_refl eq_refl eq_refl eq_refl)).
    reflexivity.
Defined.

(** * Further properties of the code *)

(** ** Dicts of spans and traces *)

Lemma span_dict_roundtrip (s : Span.t) (w : world) :
  Span.from_dict (Span.to_dict s) w = Ok (s, uuid_tick (List.length (Span.events s)) w).
Proof.
  destruct s as [nm id pid st en es md].
  unfold Span.from_dict, bind. cbn.
  destruct pid, en; cbn; rewrite events_roundtrip; reflexivity.
Qed.

Lemma spans_dict_roundtrip (ss : list Span.t) (w : world) :
  mapM Trace.span_of_json (map (fun s => JDict (Span.to_dict s)) ss) w
  = Ok (ss, uuid_tick (List.length (List.concat (map Span.events ss))) w).
Proof.
  revert w; induction ss as [|s ss IH]; intros w.
  - now destruct w.
  - cbn [map mapM Trace.span_of_json]. unfold bind at 1.
    rewrite span_dict_roundtrip. unfold bind at 1. rewrite IH. cbn [ret].
    rewrite uuid_tick_add. cbn [List.concat map]. rewrite length_app.
    now rewrite Nat.add_comm.
Qed.

(** X1: [Trace.from_dict] reads the dict of [Trace.to_dict] (the document
    that [export_json] writes) back as the same trace, after one
    [uuid4()] call per event. *)
Theorem trace_dict_roundtrip (tr : Trace.t) (w : world) :
  export_json tr = JDict (Trace.to_dict tr) /\
  Trace.from_dict (Trace.to_dict tr) w
  = Ok (tr, uuid_tick (List.length (stored_events tr)) w).
Proof.
  split; [reflexivity|].
  destruct tr as [id nm st en ss md].
  unfold Trace.from_dict, Trace.to_dict, stored_events, bind. cbn.
  destruct en; cbn; rewrite spans_dict_roundtrip; reflexivity.
Qed.

(** X2: the keys of a trace dict.  [trace_id] and [start_time] are
    required: without one of them [Trace.from_dict] raises the [KeyError]
    of that key.  [name], [end_time], [spans] and [metadata] are optional:
    without one of them the trace is read with "unnamed", [None], no span,
    an empty dict in its place. *)
Theorem trace_from_dict_keys (tr : Trace.t) (w : world) :
  (forall d : dict,
      dict_lookup d "trace_id" = None ->
      Trace.from_dict d w = Raise (KeyError "trace_id")) /\
  Trace.from_dict (dict_pop (Trace.to_dict tr) "start_time") w
  = Raise (KeyError "start_time") /\
  Trace.from_dict (dict_pop (Trace.to_dict tr) "name") w
  = Ok (Trace.mk (Trace.trace_id tr) "unnamed" (Trace.start_time tr) (Trace.end_time tr)
          (Trace.spans tr) (Trace.metadata tr),
        uuid_tick (List.length (stored_events tr)) w) /\
  Trace.from_dict (dict_pop (Trace.to_dict tr) "end_time") w
  = Ok (Trace.mk (Trace.trace_id tr) (Trace.name tr) (Trace.start_time tr) None
          (Trace.spans tr) (Trace.metadata tr),
        uuid_tick (List.length (stored_events tr)) w) /\
  Trace.from_dict (dict_pop (Trace.to_dict tr) "spans") w
  = Ok (Trace.mk (Trace.trace_id tr) (Trace.name tr) (Trace.start_time tr)
          (Trace.end_time tr) [] (Trace.metadata tr), w) /\
  Trace.from_dict (dict_pop (Trace.to_dict tr) "metadata") w
  = Ok (Trace.mk (Trace.trace_id tr) (Trace.name tr) (Trace.start_time tr)
          (Trace.end_time tr) (Trace.spans tr) [],
        uuid_tick (List.length (stored_events tr)) w).
Proof.
  split.
  { intros d H. unfold Trace.from_dict, bind, getitem. now rewrite H. }
  destruct tr as [id nm st en ss md].
  unfold Trace.from_dict, Trace.to_dict, stored_events, bind. cbn.
  repeat split.
  - destruct en; cbn; rewrite spans_dict_roundtrip; reflexivity.
  - rewrite spans_dict_roundtrip; reflexivity.
  - destruct en; cbn; now destruct w.
  - destruct en; cbn; rewrite spans_dict_roundtrip; reflexivity.
Qed.

Lemma trace_from_dict_keys_witness :
  Trace.from_dict [("name", JStr "t"); ("start_time", JNum 0)]
    (mkWorld (fun _ => "") 0 (fun _ => 0) 0)
  = Raise (KeyError "trace_id").
Proof.
  apply (proj1 (trace_from_dict_keys sample_short (mkWorld (fun _ => "") 0 (fun _ => 0) 0))).
  reflexivity.
Defined.

Lemma events_then_bad (es : list Event.t) (v : json) (rest : list json) (w : world) :
  (forall d, v <> JDict d) ->
  mapM Span.event_of_json (map (fun e => JDict (Event.to_dict e)) es ++ v :: rest) w
  = Raise TypeError.
Proof.
  intros Hv. revert w; induction es as [|e es IH]; intros w.
  - cbn [map app mapM]. unfold bind.
    destruct v; try reflexivity. now destruct (Hv d).
  - cbn [map app mapM Span.event_of_json]. unfold bind at 1.
    rewrite event_roundtrip. unfold bind at 1. now rewrite IH.
Qed.

(** X3: the keys of a span dict.  [name], [span_id] and [start_time] are
    required ([KeyError] of the key); [parent_id], [end_time], [events]
    and [metadata] are optional ([None], [None], no event, an empty dict).
    An [events] value that is a number, a boolean or [null], or a list
    with an item that is not a dict after items that are events, is a
    [TypeError]. *)
Theorem span_from_dict_keys (s : Span.t) (w : world) :
  (forall d : dict,
      dict_lookup d "name" = None -> Span.from_dict d w = Raise (KeyError "name")) /\
  Span.from_dict (dict_pop (Span.to_dict s) "span_id") w = Raise (KeyError "span_id") /\
  Span.from_dict (dict_pop (Span.to_dict s) "start_time") w = Raise (KeyError "start_time") /\
  Span.from_dict (dict_pop (Span.to_dict s) "parent_id") w
  = Ok (Span.mk (Span.name s) (Span.span_id s) None (Span.start_time s) (Span.end_time s)
          (Span.events s) (Span.metadata s),
        uuid_tick (List.length (Span.events s)) w) /\
  Span.from_dict (dict_pop (Span.to_dict s) "end_time") w
  = Ok (Span.set_end_time s None, uuid_tick (List.length (Span.events s)) w) /\
  Span.from_dict (dict_pop (Span.to_dict s) "events") w = Ok (Span.set_events s [], w) /\
  Span.from_dict (dict_pop (Span.to_dict s) "metadata") w
  = Ok (Span.mk (Span.name s) (Span.span_id s) (Span.parent_id s) (Span.start_time s)
          (Span.end_time s) (Span.events s) [],
        uuid_tick (List.length (Span.events s)) w) /\
  (forall v : json,
      v = JNull \/ (exists b, v = JBool b) \/ (exists n, v = JNum n) ->
      Span.from_dict (dict_set (Span.to_dict s) "events" v) w = Raise TypeError) /\
  (forall (v : json) (rest : list json),
      (forall d, v <> JDict d) ->
      Span.from_dict
        (dict_set (Span.to_dict s) "events"
           (JList (map (fun e => JDict (Event.to_dict e)) (Span.events s) ++ v :: rest))) w
      = Raise TypeError).
Proof.
  split.
  { intros d H. unfold Span.from_dict, bind, getitem. now rewrite H. }
  destruct s as [nm id pid st en es md].
  unfold Span.from_dict, Span.to_dict, Span.set_end_time, Span.set_events, bind. cbn.
  split; [reflexivity|]. split; [now destruct pid|].
  split; [destruct en; cbn; rewrite events_roundtrip; reflexivity|].
  split; [destruct pid; cbn; rewrite events_roundtrip; reflexivity|].
  split; [destruct pid, en; cbn; now destruct w|].
  split; [destruct pid, en; cbn; rewrite events_roundtrip; reflexivity|].
  split.
  - intros v [->|[[b ->]|[n ->]]]; destruct pid, en; reflexivity.
  - intros v rest Hv. destruct pid, en; cbn; now rewrite events_then_bad.
Qed.

Lemma span_from_dict_keys_witness :
  let w := mkWorld (fun _ => "") 0 (fun _ => 0) 0 in
  Span.from_dict [("span_id", JStr "s-1"); ("start_time", JNum 0)] w
  = Raise (KeyError "name") /\
  Span.from_dict (dict_set (Span.to_dict (sample_span "s" "s-1" [])) "events" JNull) w
  = Raise TypeError /\
  Span.from_dict
    (dict_set (Span.to_dict (sample_span "s" "s-1" [])) "events" (JList [JStr "event"])) w
  = Raise TypeError.
Proof.
  intros w.
  destruct (span_from_dict_keys (sample_span "s" "s-1" []) w)
    as (H1 & _ & _ & _ & _ & _ & _ & H8 & H9).
  split; [apply H1; reflexivity|].
  split; [apply H8; now left|].
  apply (H9 (JStr "event") []). discriminate.
Defined.

Lemma of_value_unknown (v : json) (w : world) :
  (forall t : EventType, v <> JStr (EventTypes.value t)) ->
  EventTypes.of_value v w = Raise ValueError.
Proof.
  intros H. destruct v; try reflexivity. unfold EventTypes.of_value.
  destruct (find (fun t => String.eqb (EventTypes.value t) s) EventTypes.members)
    as [t|] eqn:E; [|reflexivity].
  apply find_some in E as [_ E]. apply String.eqb_eq in E.
  destruct (H t). now rewrite E.
Qed.

(** X4: the keys of an event dict.  Without [event_type]:
    [KeyError]; with an [event_type] that is not the value of a member of
    [EventType]: [ValueError]; without [timestamp]: [KeyError]; without
    [data]: an empty payload; without [event_id]: the first twelve
    characters of a fresh [uuid4().hex]. *)
Theorem event_from_dict_keys (e : Event.t) (w : world) :
  (forall d : dict,
      dict_lookup d "event_type" = None ->
      Event.from_dict d w = Raise (KeyError "event_type")) /\
  (forall (d : dict) (v : json),
      dict_lookup d "event_type" = Some v ->
      (forall t : EventType, v <> JStr (EventTypes.value t)) ->
      Event.from_dict d w = Raise ValueError) /\
  Event.from_dict (dict_pop (Event.to_dict e) "timestamp") w = Raise (KeyError "timestamp") /\
  Event.from_dict (dict_pop (Event.to_dict e) "data") w
  = Ok (Event.mk (Event.event_type e) (Event.timestamp e) [] (Event.event_id e),
        uuid_tick 1 w) /\
  Event.from_dict (dict_pop (Event.to_dict e) "event_id") w
  = Ok (Event.mk (Event.event_type e) (Event.timestamp e) (Event.data e)
          (String.substring 0 12 (uuid_src w (uuid_calls w))),
        uuid_tick 1 w).
Proof.
  split; [|split].
  - intros d H. unfold Event.from_dict, bind, getitem. now rewrite H.
  - intros d v H Hv. unfold Event.from_dict, bind, getitem. rewrite H. cbn [ret].
    now rewrite of_value_unknown.
  - destruct e as [ty ts da id]. repeat split; now destruct ty.
Qed.

Lemma event_from_dict_keys_witness :
  let w := mkWorld (fun _ => "") 0 (fun _ => 0) 0 in
  Event.from_dict [("timestamp", JNum 1)] w = Raise (KeyError "event_type") /\
  Event.from_dict [("event_type", JStr "tool-call"); ("timestamp", JNum 1)] w
  = Raise ValueError.
Proof.
  intros w. split.
  - apply (proj1 (event_from_dict_keys sample_request w)). reflexivity.
  - apply (proj1 (proj2 (event_from_dict_keys sample_request w)) _ (JStr "tool-call")).
    + reflexivity.
    + intros t; destruct t; discriminate.
Defined.

(** ** Tolerant loading *)

Lemma load_lines_noise (f : list line) (st : list Span.t * dict) (w : world) :
  Trace.load_lines (filter significant f) st w = Trace.load_lines f st w.
Proof.
  revert st w; induction f as [|l f IH]; intros st w; [reflexivity|].
  cbn [filter]. destruct (significant l) eqn:E.
  - cbn [Trace.load_lines]. unfold bind.
    destruct (Trace.load_line st l w) as [[st' w']| |]; auto.
  - rewrite IH. cbn [Trace.load_lines]. unfold bind.
    assert (H : Trace.load_line st l w = Ok (st, w)).
    { destruct l as [| |v]; try discriminate E; [reflexivity|].
      destruct v; try discriminate E. cbn [significant] in E.
      apply orb_false_iff in E as [E1 E2].
      unfold Trace.load_line. now rewrite E1, E2. }
    now rewrite H.
Qed.

(** X5: blank lines and records whose [type] is neither "trace_header"
    nor "span" (or is missing) do not count: a file loads as the file
    without them does, to the same trace or the same exception. *)
Theorem load_ignores_noise (f : list line) (w : world) :
  Trace.load (filter significant f) w = Trace.load f w.
Proof. unfold Trace.load, bind. now rewrite load_lines_noise. Qed.


Lemma save_lines (tr : Trace.t) :
  Trace.save tr = header_line tr :: map span_line (Trace.spans tr).
Proof. reflexivity. Qed.


(** X7: a file without a header (the empty file among them) loads: the
    trace has the spans of the file, the name "unnamed", start time 0, no
    end time, no metadata, and the first sixteen characters of a fresh
    [uuid4().hex] as its id. *)
Theorem load_without_header (ss : list Span.t) (w : world) :
  Trace.load (map span_line ss) w
  = Ok (Trace.mk
          (String.substring 0 16
             (uuid_src w (List.length (List.concat (map Span.events ss)) + uuid_calls w)))
          "unnamed" 0 None ss [],
        uuid_tick (S (List.length (List.concat (map Span.events ss)))) w).
Proof.
  unfold Trace.load, bind at 1. rewrite span_lines_load. reflexivity.
Qed.

(** X8: a line that is not JSON, or is JSON but not an object, makes the
    whole load fail: no trace is returned, and when the lines before it
    load the exception is [JSONDecodeError] for the first kind and
    [AttributeError] for the second. *)
Theorem load_bad_line (f : list line) (l : line) (w : world) :
  In l f ->
  not_an_object l = true ->
  (forall (tr : Trace.t) (w' : world), Trace.load f w <> Ok (tr, w')) /\
  (forall pre post st w',
      f = pre ++ l :: post ->
      Trace.load_lines pre ([], []) w = Ok (st, w') ->
      Trace.load f w = Raise (line_error l)).
Proof.
  intros Hin Hl.
  assert (Hraise : forall st w1, Trace.load_line st l w1 = Raise (line_error l)).
  { intros st w1. destruct l as [| |v]; try discriminate Hl; [reflexivity|].
    destruct v; try discriminate Hl; reflexivity. }
  split.
  - intros tr w' H. apply in_split in Hin as (pre & post & ->).
    unfold Trace.load, bind in H. rewrite load_lines_app in H.
    destruct (Trace.load_lines pre ([], []) w) as [[st1 w1]| |]; try discriminate.
    cbn [Trace.load_lines] in H. unfold bind in H. now rewrite Hraise in H.
  - intros pre post st w' -> Hpre.
    unfold Trace.load, bind. rewrite load_lines_app, Hpre.
    cbn [Trace.load_lines]. unfold bind. now rewrite Hraise.
Qed.

Lemma load_bad_line_witness :
  let w := mkWorld (fun _ => "") 0 (fun _ => 0) 0 in
  Trace.load (Trace.save sample_short ++ [Garbage]) w = Raise JSONDecodeError /\
  Trace.load (Doc (JList []) :: Trace.save sample_short) w = Raise AttributeError.
Proof.
  intros w. split.
  - refine (proj2 (load_bad_line _ Garbage w _ eq_refl) (Trace.save sample_short) [] _ _ eq_refl _).
    + apply in_or_app. right. now left.
    + vm_compute. reflexivity.
  - refine (proj2 (load_bad_line _ (Doc (JList [])) w _ eq_refl) [] _ _ _ eq_refl _).
    + now left.
    + reflexivity.
Defined.

(** ** Counting, looking up and closing *)

Lemma fold_left_add_length (ss : list Span.t) (n : nat) :
  fold_left (fun acc s => (acc + List.length (Span.events s))%nat) ss n
  = (n + List.length (List.concat (map Span.events ss)))%nat.
Proof.
  revert n; induction ss as [|s ss IH]; intros n; simpl; [lia|].
  rewrite IH, length_app. lia.
Qed.

(** X9: [event_count] is the number of events that [all_events] returns
    and the number of steps of a replay of the trace. *)
Theorem event_count_total_steps (tr : Trace.t) :
  Trace.event_count tr = List.length (Trace.all_events tr) /\
  ReplayEngine.total_steps (ReplayEngine.init tr) = Z.of_nat (Trace.event_count tr).
Proof.
  assert (H : Trace.event_count tr = List.length (Trace.all_events tr)).
  { unfold Trace.event_count. rewrite fold_left_add_length. cbn [Nat.add].
    rewrite all_events_unfold. symmetry. apply Permutation_length, py_sorted_perm. }
  split; [exact H|].
  unfold ReplayEngine.total_steps. rewrite H. f_equal.
  unfold ReplayEngine.init. cbn [ReplayEngine._flat].
  rewrite build_flat_list_unfold, all_events_unfold.
  rewrite (Permutation_length (py_sorted_perm _ (stored_pairs tr))).
  rewrite (Permutation_length (py_sorted_perm _ (stored_events tr))).
  now rewrite <- stored_pairs_events, length_map.
Qed.





Lemma span_close_run (s : Span.t) (w : world) :
  Span.close s w
  = Ok (Span.set_end_time s (Some (clock_src w (clock_calls w))),
        mkWorld (uuid_src w) (uuid_calls w) (clock_src w) (S (clock_calls w))).
Proof. reflexivity. Qed.

Lemma close_spans_spec (ss : list Span.t) (w : world) :
  exists (ss' : list Span.t) (w' : world),
    mapM (fun span => match Span.end_time span with
                      | None => Span.close span
                      | Some _ => ret span
                      end) ss w = Ok (ss', w') /\
    uuid_src w' = uuid_src w /\ uuid_calls w' = uuid_calls w /\
    clock_src w' = clock_src w /\ (clock_calls w <= clock_calls w')%nat /\
    Forall2 (closed_from w (clock_calls w)) ss ss'.
Proof.
  revert w; induction ss as [|s ss IH]; intros w.
  - exists [], w. repeat split; auto.
  - cbn [mapM]. unfold bind at 1.
    destruct (Span.end_time s) as [t|] eqn:E.
    + cbn [ret]. unfold bind at 1.
      destruct (IH w) as (ss' & w' & -> & H1 & H2 & H3 & H4 & H5).
      exists (s :: ss'), w'.
      split; [reflexivity|]. split; [exact H1|]. split; [exact H2|].
      split; [exact H3|]. split; [exact H4|].
      constructor; [|exact H5]. left. unfold is_closed. now rewrite E.
    + rewrite span_close_run. unfold bind at 1.
      set (w1 := mkWorld (uuid_src w) (uuid_calls w) (clock_src w) (S (clock_calls w))).
      destruct (IH w1) as (ss' & w' & -> & H1 & H2 & H3 & H4 & H5).
      exists (Span.set_end_time s (Some (clock_src w (clock_calls w))) :: ss'), w'.
      cbn in H1, H2, H3, H4.
      split; [reflexivity|]. split; [exact H1|]. split; [exact H2|].
      split; [exact H3|]. split; [lia|].
      constructor.
      * right. unfold is_closed. rewrite E. split; [reflexivity|].
        exists (clock_calls w). split; [lia | reflexivity].
      * eapply Forall2_impl; [|exact H5].
        intros a b [Hc|[Ho (k & Hk & ->)]]; [now left | right].
        split; [exact Ho|]. exists k. cbn in Hk. split; [lia | reflexivity].
Qed.

Lemma closed_from_events (w : world) (n : nat) (ss ss' : list Span.t) :
  Forall2 (closed_from w n) ss ss' -> map Span.events ss' = map Span.events ss.
Proof.
  induction 1 as [|s s' ss ss' H _ IH]; [reflexivity|].
  cbn [map]. rewrite IH. f_equal.
  destruct H as [[_ ->]|[_ (k & _ & ->)]]; reflexivity.
Qed.

(** X11: [Trace.close] stamps the trace with the current clock reading,
    then every open span with a later reading; closed spans are left as
    they are, and nothing but the [end_time]s changes: afterwards every
    span is closed and holds the events it held.  With a clock that never
    goes back, a span closed by [Trace.close] ends no earlier than the
    trace does. *)
Theorem close_closes_spans (tr : Trace.t) (w : world) :
  exists (tr' : Trace.t) (w' : world),
    Trace.close tr w = Ok (tr', w') /\
    Trace.end_time tr' = Some (clock_src w (clock_calls w)) /\
    Trace.trace_id tr' = Trace.trace_id tr /\
    Trace.name tr' = Trace.name tr /\
    Trace.start_time tr' = Trace.start_time tr /\
    Trace.metadata tr' = Trace.metadata tr /\
    Forall2 (closed_from w (S (clock_calls w))) (Trace.spans tr) (Trace.spans tr') /\
    forallb is_closed (Trace.spans tr') = true /\
    stored_events tr' = stored_events tr /\
    (monotone_clock w ->
     Forall2 (fun s s' =>
                is_closed s = false ->
                exists t, Span.end_time s' = Some t /\ clock_src w (clock_calls w) <= t)
       (Trace.spans tr) (Trace.spans tr')).
Proof.
  unfold Trace.close, bind at 1, time_time. cbn [ret]. unfold bind at 1.
  set (w1 := mkWorld (uuid_src w) (uuid_calls w) (clock_src w) (S (clock_calls w))).
  destruct (close_spans_spec (Trace.spans tr) w1) as (ss' & w' & -> & _ & _ & _ & _ & H).
  change (clock_calls w1) with (S (clock_calls w)) in H.
  assert (H' : Forall2 (closed_from w (S (clock_calls w))) (Trace.spans tr) ss').
  { eapply Forall2_impl; [|exact H]. intros a b Hab. exact Hab. }
  eexists. eexists. split; [reflexivity|]. cbn.
  repeat split; auto.
  - clear H. induction H' as [|s s' ss ss'' Hs _ IH]; [reflexivity|].
    cbn [forallb]. rewrite IH, andb_true_r.
    destruct Hs as [[Hc ->]|[_ (k & _ & ->)]]; [exact Hc | reflexivity].
  - unfold stored_events. cbn [Trace.spans]. f_equal.
    apply (closed_from_events w (S (clock_calls w))). exact H'.
  - intros Hmono. eapply Forall2_impl; [|exact H'].
    intros a b [[Hc _]|[_ (k & Hk & ->)]] Ho; [congruence|].
    eexists. split; [reflexivity|]. apply Hmono. lia.
Qed.

Lemma close_closes_spans_witness :
  exists (tr' : Trace.t),
    Forall2 (fun s s' =>
               is_closed s = false -> exists t, Span.end_time s' = Some t /\ 5 <= t)
      [Span.mk "open" "s-1" None 1 None [] []; Span.mk "closed" "s-2" None 1 (Some 2) [] []]
      (Trace.spans tr').
Proof.
  destruct (close_closes_spans
              (Trace.mk "t" "t" 0 None
                 [Span.mk "open" "s-1" None 1 None [] [];
                  Span.mk "closed" "s-2" None 1 (Some 2) [] []] [])
              (mkWorld (fun _ => "") 0 (fun n => 5 + Z.of_nat n) 0))
    as (tr' & w' & _ & _ & _ & _ & _ & _ & _ & _ & _ & H).
  exists tr'. apply H. intros i j Hij. cbn [clock_src]. lia.
Defined.

(** ** Storage order and time order *)

Section SortedInput.
Context {A : Type} (key : A -> Z).

Lemma insert_by_last (x : A) (acc : list A) :
  Forall (fun y => key y <= key x) acc -> insert_by key x acc = acc ++ [x].
Proof.
  induction 1 as [|y acc Hy _ IH]; simpl; [reflexivity|].
  destruct (key x <? key y) eqn:E; [apply Z.ltb_lt in E; lia|].
  now rewrite IH.
Qed.

Lemma sorted_app_before (acc l : list A) (x : A) :
  StronglySorted (fun a b => key a <= key b) (acc ++ x :: l) ->
  Forall (fun y => key y <= key x) acc.
Proof.
  induction acc as [|a acc IH]; intros H; [constructor|].
  cbn [app] in H. inversion H as [|? ? Hs Ha]; subst.
  constructor; [|now apply IH].
  rewrite Forall_forall in Ha. apply Ha. apply in_or_app. right. now left.
Qed.

Lemma fold_insert_sorted_input (l acc : list A) :
  StronglySorted (fun a b => key a <= key b) (acc ++ l) ->
  fold_left (fun acc x => insert_by key x acc) l acc = acc ++ l.
Proof.
  revert acc; induction l as [|x l IH]; intros acc H; simpl.
  - now rewrite app_nil_r.
  - rewrite insert_by_last by (eapply sorted_app_before; exact H).
    rewrite IH; rewrite <- app_assoc; [reflexivity | exact H].
Qed.

Lemma py_sorted_sorted_input (l : list A) :
  StronglySorted (fun a b => key a <= key b) l -> py_sorted key l = l.
Proof. intros H. apply (fold_insert_sorted_input l [] H). Qed.
End SortedInput.

(** X12: [all_events] returns the events in storage order (the spans one
    after the other) exactly when that order is already an order of
    non-decreasing timestamps. *)
Theorem all_events_storage_order (tr : Trace.t) :
  Trace.all_events tr = stored_events tr <-> StronglySorted ts_le (stored_events tr).
Proof.
  rewrite all_events_unfold. split.
  - intros H. rewrite <- H. apply (py_sorted_sorted Event.timestamp).
  - apply (py_sorted_sorted_input Event.timestamp).
Qed.

Lemma all_events_storage_order_witness :
  Trace.all_events sample_two_spans = stored_events sample_two_spans.
Proof.
  apply (proj2 (all_events_storage_order sample_two_spans)).
  unfold ts_le. repeat constructor; cbn; lia.
Defined.

(** X13: a replay from the file that [save] wrote is the replay of the
    trace saved: the same tape, the cursor at 0. *)
Theorem from_file_of_save (tr : Trace.t) (w : world) :
  exists w' : world,
    ReplayEngine.from_file (Trace.save tr) w = Ok (ReplayEngine.init tr, w').
Proof.
  destruct (load_save_identity tr w) as (w' & H). exists w'.
  unfold ReplayEngine.from_file, bind. now rewrite H.
Qed.

(** ** Moving the cursor *)

(** X14: on the tape, [peek] returns the entry that [step] returns, and
    [step_back] after [step] returns it once more and puts the engine back
    as it was; past the start, [step] after [step_back] does the same. *)
Theorem step_back_undoes_step (e : ReplayEngine.t) :
  (0 <= ReplayEngine.position e < ReplayEngine.total_steps e ->
   exists p,
     ReplayEngine.peek e = (Ok (Some p), e) /\
     fst (ReplayEngine.step e) = Ok (Some p) /\
     ReplayEngine.position (snd (ReplayEngine.step e)) = ReplayEngine.position e + 1 /\
     ReplayEngine.step_back (snd (ReplayEngine.step e)) = (Ok (Some p), e)) /\
  (0 < ReplayEngine.position e <= ReplayEngine.total_steps e ->
   exists p,
     fst (ReplayEngine.step_back e) = Ok (Some p) /\
     ReplayEngine.position (snd (ReplayEngine.step_back e)) = ReplayEngine.position e - 1 /\
     ReplayEngine.step (snd (ReplayEngine.step_back e)) = (Ok (Some p), e)).
Proof.
  unfold ReplayEngine.position, ReplayEngine.total_steps. split; intros H.
  - destruct (py_getitem_in_range (ReplayEngine._flat e) (ReplayEngine._position e) H)
      as (p & _ & Hg).
    exists p.
    assert (Hn : ReplayEngine.has_next e = true)
      by (unfold ReplayEngine.has_next; apply Z.ltb_lt; lia).
    unfold ReplayEngine.peek, ReplayEngine.step. rewrite Hn, Hg. cbn [negb fst snd].
    split; [reflexivity|]. split; [reflexivity|]. split; [reflexivity|].
    unfold ReplayEngine.step_back, ReplayEngine.has_prev.
    cbn [ReplayEngine.set_position ReplayEngine._position ReplayEngine._flat].
    replace (0 <? ReplayEngine._position e + 1) with true by (symmetry; apply Z.ltb_lt; lia).
    cbn [negb]. replace (ReplayEngine._position e + 1 - 1) with (ReplayEngine._position e) by lia.
    rewrite Hg. now destruct e.
  - destruct (py_getitem_in_range (ReplayEngine._flat e) (ReplayEngine._position e - 1))
      as (p & _ & Hg); [lia|].
    exists p.
    assert (Hp : ReplayEngine.has_prev e = true)
      by (unfold ReplayEngine.has_prev; apply Z.ltb_lt; lia).
    unfold ReplayEngine.step_back. rewrite Hp.
    cbn [negb ReplayEngine.set_position ReplayEngine._position ReplayEngine._flat].
    rewrite Hg. cbn [fst snd].
    split; [reflexivity|]. split; [reflexivity|].
    unfold ReplayEngine.step, ReplayEngine.has_next.
    cbn [ReplayEngine.set_position ReplayEngine._position ReplayEngine._flat].
    replace (ReplayEngine._position e - 1 <? Z.of_nat (List.length (ReplayEngine._flat e)))
      with true by (symmetry; apply Z.ltb_lt; lia).
    cbn [negb]. rewrite Hg. unfold ReplayEngine.set_position.
    cbn [ReplayEngine.trace ReplayEngine._flat ReplayEngine._position].
    replace (ReplayEngine._position e - 1 + 1) with (ReplayEngine._position e) by lia.
    now destruct e.
Qed.

Lemma step_back_undoes_step_witness :
  let e := ReplayEngine.init sample_two_spans in
  ReplayEngine.step_back (snd (ReplayEngine.step e)) = (fst (ReplayEngine.step e), e) /\
  let e3 := snd (ReplayEngine.jump 3 e) in
  ReplayEngine.step (snd (ReplayEngine.step_back e3)) = (fst (ReplayEngine.step_back e3), e3).
Proof.
  intros e. split.
  - destruct (proj1 (step_back_undoes_step e)) as (p & _ & H1 & _ & H2).
    + vm_compute. split; congruence.
    + rewrite H1. exact H2.
  - intros e3. destruct (proj2 (step_back_undoes_step e3)) as (p & H1 & _ & H2).
    + vm_compute. split; congruence.
    + rewrite H1. exact H2.
Defined.

Lemma contains_empty (s : string) : contains s "" = true.
Proof. now destruct s. Qed.

Lemma map_fst_combine_seq {X : Type} (l : list X) (s : nat) :
  map fst (combine (seq s (List.length l)) l) = seq s (List.length l).
Proof.
  revert s; induction l as [|x l IH]; intros s; simpl; [reflexivity|].
  now rewrite IH.
Qed.

(** X15: every index that [search] returns is a valid target of [jump],
    and the entry [jump] returns there is one whose line contains the
    query; the empty query finds every index of the tape. *)
Theorem search_hits_are_jump_targets (e : ReplayEngine.t) (query : string) :
  (forall i : nat,
      In i (ReplayEngine.search query e) ->
      exists p,
        ReplayEngine.jump (Z.of_nat i) e
        = (Ok (Some p), ReplayEngine.set_position e (Z.of_nat i)) /\
        line_contains query p = true) /\
  ReplayEngine.search "" e = seq 0 (List.length (ReplayEngine._flat e)).
Proof.
  split.
  - intros i Hi. rewrite search_unfold in Hi.
    apply in_map_iff in Hi as ([i' p] & Hfst & Hin). cbn in Hfst. subst i'.
    apply filter_In in Hin as [Hc Hl]. cbn [snd] in Hl.
    apply in_combine_seq in Hc as [_ Hn]. rewrite Nat.sub_0_r in Hn.
    assert (Hlt : (i < List.length (ReplayEngine._flat e))%nat)
      by (apply nth_error_Some; congruence).
    destruct (py_getitem_in_range (ReplayEngine._flat e) (Z.of_nat i)) as (p' & Hn' & Hg);
      [lia|].
    rewrite Nat2Z.id in Hn'. assert (p' = p) by congruence. subst p'.
    exists p. split; [|exact Hl].
    unfold ReplayEngine.jump.
    replace (0 <=? Z.of_nat i) with true by (symmetry; apply Z.leb_le; lia).
    replace (Z.of_nat i <? Z.of_nat (List.length (ReplayEngine._flat e))) with true
      by (symmetry; apply Z.ltb_lt; lia).
    cbn. now rewrite Hg.
  - rewrite search_unfold.
    rewrite (filter_ext _ (fun _ => true)).
    + assert (Hall : forall (X : Type) (l : list X), filter (fun _ => true) l = l)
        by (intros X l; induction l as [|x l IH]; simpl; [reflexivity | now rewrite IH]).
      rewrite Hall. apply map_fst_combine_seq.
    + intros [i p]. unfold line_contains. apply contains_empty.
Qed.

Lemma search_hits_are_jump_targets_witness :
  exists p,
    ReplayEngine.jump 2 (ReplayEngine.init sample_two_spans)
    = (Ok (Some p), ReplayEngine.set_position (ReplayEngine.init sample_two_spans) 2) /\
    line_contains "SEARCH" p = true.
Proof.
  apply (proj1 (search_hits_are_jump_targets (ReplayEngine.init sample_two_spans) "SEARCH")
           2%nat).
  vm_compute. tauto.
Defined.

(** ** What the diff reports *)

Lemma diff_at_quiet (A B : Trace.t) (i : nat) (oa ob : option Event.t) :
  diff_at A B i oa ob = [] <-> quiet oa ob = true.
Proof.
  destruct oa as [ea|], ob as [eb|]; cbn [quiet diff_at];
    try (split; [discriminate | discriminate]); [|tauto].
  unfold agree, py_ne.
  destruct (EventTypes.eqb (Event.event_type ea) (Event.event_type eb)); cbn [negb andb];
    [|split; discriminate].
  destruct (Event.event_type ea); try tauto;
    match goal with |- context [py_eq ?a ?b] => destruct (py_eq a b) end;
    cbn [negb]; split; (discriminate || reflexivity).
Qed.

Lemma concat_map_nil_iff {X Y : Type} (f : X -> list Y) (l : list X) :
  List.concat (map f l) = [] <-> forall x, In x l -> f x = [].
Proof.
  split; [|apply concat_map_nil].
  induction l as [|x l IH]; intros H y Hy; [destruct Hy|].
  cbn in H. apply app_eq_nil in H as [H1 H2].
  destruct Hy as [<-|Hy]; [exact H1 | now apply IH].
Qed.

Lemma quiet_everywhere (la lb : list Event.t) :
  (forall i, (i < Nat.max (List.length la) (List.length lb))%nat ->
             quiet (nth_error la i) (nth_error lb i) = true)
  <-> Forall2 (fun a b => agree a b = true) la lb.
Proof.
  revert lb; induction la as [|a la IH]; intros [|b lb]; cbn [List.length].
  - split; [constructor | intros _ i Hi; cbn in Hi; lia].
  - split; [|intros H; inversion H].
    intros H. specialize (H 0%nat). cbn in H. discriminate H. lia.
  - split; [|intros H; inversion H].
    intros H. specialize (H 0%nat). cbn in H. discriminate H. lia.
  - rewrite <- Nat.succ_max_distr. split.
    + intros H. constructor; [apply (H 0%nat); lia|].
      apply IH. intros i Hi. apply (H (S i)). lia.
    + intros H i Hi. inversion H as [|? ? ? ? Hab Hrest]; subst.
      destruct i as [|i]; [exact Hab|].
      cbn [nth_error]. apply (proj2 (IH lb) Hrest). lia.
Qed.

(** X16: two traces are [identical] for the diff exactly when their
    canonical event sequences have the same length and agree position by
    position in event type and, for tool calls, responses and decisions,
    in [tool], [content], [choice]; identifiers, timestamps, span names
    and the rest of the payloads play no part. *)
Theorem diff_identical_iff (A B : Trace.t) :
  DiffResult.identical (diff_traces A B) = true
  <-> Forall2 (fun a b => agree a b = true) (Trace.all_events A) (Trace.all_events B).
Proof.
  rewrite identical_iff, diff_divergences, concat_map_nil_iff, <- quiet_everywhere.
  split.
  - intros H i Hi. apply (diff_at_quiet A B i). apply H. apply in_seq. lia.
  - intros H i Hi. apply in_seq in Hi. apply (diff_at_quiet A B i). apply H. lia.
Qed.

Lemma diff_identical_iff_witness :
  DiffResult.identical
    (diff_traces sample_short
       (Trace.mk "other" "b" 5 None
          [sample_span "s2" "span-x" [Event.mk LLM_REQUEST 7 [("model", JStr "gpt-3")] "ev-x"]]
          []))
  = true.
Proof.
  apply (proj2 (diff_identical_iff _ _)). repeat constructor.
Defined.

Lemma filter_concat_map {X Y : Type} (p : Y -> bool) (f : X -> list Y) (l : list X) :
  filter p (List.concat (map f l)) = List.concat (map (fun x => filter p (f x)) l).
Proof.
  induction l as [|x l IH]; simpl; [reflexivity|].
  now rewrite filter_app, IH.
Qed.

Lemma length_concat_ones {X Y : Type} (f : X -> list Y) (l : list X) :
  (forall x, In x l -> List.length (f x) = 1%nat) ->
  List.length (List.concat (map f l)) = List.length l.
Proof.
  induction l as [|x l IH]; intros H; simpl; [reflexivity|].
  rewrite length_app, (H x (or_introl eq_refl)), IH; [reflexivity|].
  intros y Hy. apply H. now right.
Qed.

Lemma diff_at_both_no_warning (A B : Trace.t) (i : nat) (ea eb : Event.t) :
  filter (has_severity "warning") (diff_at A B i (Some ea) (Some eb)) = [].
Proof.
  unfold diff_at.
  destruct (negb (EventTypes.eqb (Event.event_type ea) (Event.event_type eb)));
    [reflexivity|].
  destruct (Event.event_type ea); try reflexivity;
    match goal with |- context [py_ne ?a ?b] => destruct (py_ne a b) end; reflexivity.
Qed.

Lemma diff_at_one_side_warning (A B : Trace.t) (i : nat) (oa ob : option Event.t) :
  (oa = None /\ ob <> None) \/ (oa <> None /\ ob = None) ->
  List.length (filter (has_severity "warning") (diff_at A B i oa ob)) = 1%nat.
Proof.
  destruct oa, ob; intros [[H1 H2]|[H1 H2]]; try congruence; reflexivity.
Qed.

(** X17: the diff reports one divergence of severity "warning" for each
    event that the longer canonical sequence has beyond the length of the
    shorter one, and no other warning: two traces with different numbers
    of events are never identical. *)
Theorem diff_length_mismatch (A B : Trace.t) :
  let la := List.length (Trace.all_events A) in
  let lb := List.length (Trace.all_events B) in
  List.length (filter (has_severity "warning") (DiffResult.divergences (diff_traces A B)))
  = (Nat.max la lb - Nat.min la lb)%nat /\
  (la <> lb -> DiffResult.identical (diff_traces A B) = false).
Proof.
  intros la lb.
  assert (Hcount :
            List.length (filter (has_severity "warning")
                           (DiffResult.divergences (diff_traces A B)))
            = (Nat.max la lb - Nat.min la lb)%nat).
  { rewrite diff_divergences, filter_concat_map. fold la lb.
    replace (Nat.max la lb) with (Nat.min la lb + (Nat.max la lb - Nat.min la lb))%nat
      at 1 by lia.
    rewrite seq_app, map_app, concat_app, length_app. cbn [Nat.add].
    rewrite concat_map_nil.
    - rewrite length_concat_ones; [apply length_seq|].
      intros i Hi. apply in_seq in Hi. apply diff_at_one_side_warning.
      destruct (Nat.le_ge_cases la lb) as [Hle|Hle].
      + left. split.
        * apply nth_error_None. fold la. lia.
        * apply nth_error_Some. fold lb. lia.
      + right. split.
        * apply nth_error_Some. fold la. lia.
        * apply nth_error_None. fold lb. lia.
    - intros i Hi. apply in_seq in Hi.
      destruct (nth_error (Trace.all_events A) i) as [ea|] eqn:Ea;
        [|apply nth_error_None in Ea; fold la in Ea; lia].
      destruct (nth_error (Trace.all_events B) i) as [eb|] eqn:Eb;
        [|apply nth_error_None in Eb; fold lb in Eb; lia].
      apply diff_at_both_no_warning. }
  split; [exact Hcount|].
  intros Hne. destruct (DiffResult.identical (diff_traces A B)) eqn:E; [|reflexivity].
  apply identical_iff in E. rewrite E in Hcount. cbn in Hcount. lia.
Qed.

Lemma diff_length_mismatch_witness :
  DiffResult.identical (diff_traces sample_two_spans sample_short) = false.
Proof.
  apply (proj2 (diff_length_mismatch sample_two_spans sample_short)).
  vm_compute. congruence.
Defined.

Lemma diff_at_shape (A B : Trace.t) (i : nat) (oa ob : option Event.t) :
  diff_at A B i oa ob = [] \/
  exists d, diff_at A B i oa ob = [d] /\ Divergence.position d = i /\
            In (Divergence.severity d) ["critical"; "warning"; "info"]%string.
Proof.
  destruct oa as [ea|], ob as [eb|]; cbn [diff_at].
  - destruct (negb (EventTypes.eqb (Event.event_type ea) (Event.event_type eb))).
    + right. eexists. split; [reflexivity|]. cbn. tauto.
    + destruct (Event.event_type ea); auto;
        match goal with |- context [py_ne ?a ?b] => destruct (py_ne a b) end; auto;
        right; eexists; (split; [reflexivity|]); cbn; tauto.
  - right. eexists. split; [reflexivity|]. cbn. tauto.
  - right. eexists. split; [reflexivity|]. cbn. tauto.
  - now left.
Qed.

Lemma positions_from (A B : Trace.t) (la lb : list Event.t) (n s : nat) :
  let divs := List.concat
                (map (fun i => diff_at A B i (nth_error la i) (nth_error lb i)) (seq s n)) in
  StronglySorted lt (map Divergence.position divs) /\
  Forall (fun d => (s <= Divergence.position d < s + n)%nat /\
                   In (Divergence.severity d) ["critical"; "warning"; "info"]%string) divs.
Proof.
  revert s; induction n as [|n IH]; intros s; cbn zeta.
  - cbn. split; constructor.
  - cbn [seq map List.concat]. destruct (IH (S s)) as [H1 H2].
    destruct (diff_at_shape A B s (nth_error la s) (nth_error lb s))
      as [->|(d & -> & Hp & Hs)]; cbn [app map].
    + split; [exact H1|]. eapply Forall_impl; [|exact H2].
      intros d [Hd Hsev]. split; [lia | exact Hsev].
    + split.
      * constructor; [exact H1|]. rewrite Forall_map.
        eapply Forall_impl; [|exact H2]. intros d' [Hd' _]. cbn beta. lia.
      * constructor; [split; [lia | exact Hs]|].
        eapply Forall_impl; [|exact H2]. intros d' [Hd' Hsev]. split; [lia | exact Hsev].
Qed.

Lemma diff_severities (A B : Trace.t) :
  Forall (fun d => In (Divergence.severity d) ["critical"; "warning"; "info"]%string)
    (DiffResult.divergences (diff_traces A B)).
Proof.
  rewrite diff_divergences.
  destruct (positions_from A B (Trace.all_events A) (Trace.all_events B)
              (Nat.max (List.length (Trace.all_events A)) (List.length (Trace.all_events B)))
              0) as [_ H].
  eapply Forall_impl; [|exact H]. now intros d [_ Hs].
Qed.

(** X18: the divergences come in strictly increasing order of position,
    so there is at most one for a position; every position is an index of
    the longer canonical sequence; every severity is "critical", "warning"
    or "info"; [critical_count] is at most the number of divergences,
    which is at most the length of the longer sequence. *)
Theorem diff_positions (A B : Trace.t) :
  let divs := DiffResult.divergences (diff_traces A B) in
  let n := Nat.max (List.length (Trace.all_events A)) (List.length (Trace.all_events B)) in
  StronglySorted lt (map Divergence.position divs) /\
  Forall (fun d => (Divergence.position d < n)%nat /\
                   In (Divergence.severity d) ["critical"; "warning"; "info"]%string) divs /\
  (DiffResult.critical_count (diff_traces A B) <= List.length divs <= n)%nat.
Proof.
  intros divs n. subst divs. rewrite diff_divergences. fold n.
  destruct (positions_from A B (Trace.all_events A) (Trace.all_events B) n 0) as [H1 H2].
  split; [exact H1|]. split.
  - eapply Forall_impl; [|exact H2]. intros d [Hd Hs]. split; [lia | exact Hs].
  - split.
    + unfold DiffResult.critical_count. rewrite diff_divergences. fold n.
      apply filter_length_le.
    + clear H1 H2. generalize 0%nat as s.
      induction n as [|k IH]; intros s; [cbn; lia|].
      cbn [seq map List.concat]. rewrite length_app. specialize (IH (S s)).
      destruct (diff_at_shape A B s (nth_error (Trace.all_events A) s)
                  (nth_error (Trace.all_events B) s)) as [->|(d & -> & _)]; cbn; lia.
Qed.

Lemma severity_partition (l : list Divergence.t) :
  Forall (fun d => In (Divergence.severity d) ["critical"; "warning"; "info"]%string) l ->
  List.length l
  = (List.length (filter (has_severity "critical") l)
     + List.length (filter (has_severity "warning") l)
     + List.length (filter (has_severity "info") l))%nat.
Proof.
  induction 1 as [|d l Hd _ IH]; [reflexivity|].
  cbn [filter List.length].
  assert (Hc : has_severity "critical" d = String.eqb (Divergence.severity d) "critical")
    by reflexivity.
  assert (Hw : has_severity "warning" d = String.eqb (Divergence.severity d) "warning")
    by reflexivity.
  assert (Hi : has_severity "info" d = String.eqb (Divergence.severity d) "info")
    by reflexivity.
  rewrite Hc, Hw, Hi.
  destruct Hd as [<-|[<-|[<-|[]]]]; cbn [String.eqb Ascii.eqb Bool.eqb List.length]; lia.
Qed.

(** X19: the summary says that the traces are identical exactly when
    there is no divergence; otherwise it gives the number of divergences,
    the number of critical ones, and as "informational" the rest, that
    is the warnings and the infos together. *)
Theorem diff_summary (A B : Trace.t) :
  let r := diff_traces A B in
  let n := List.length (DiffResult.divergences r) in
  let c := DiffResult.critical_count r in
  (DiffResult.identical r = true ->
   DiffResult.summary r = "Traces are identical in structure and content."%string) /\
  (DiffResult.identical r = false ->
   DiffResult.summary r
   = ("Found " ++ str_of_nat n ++ " divergence(s): " ++ str_of_nat c ++ " critical, "
        ++ str_of_nat (n - c) ++ " informational.")%string) /\
  (n - c)%nat
  = (List.length (filter (has_severity "warning") (DiffResult.divergences r))
     + List.length (filter (has_severity "info") (DiffResult.divergences r)))%nat.
Proof.
  intros r n c. split; [|split].
  - unfold DiffResult.identical. fold n. intros H.
    unfold r, diff_traces. cbn [DiffResult.summary].
    change (List.length (fold_left _ _ _)) with n. now rewrite H.
  - unfold DiffResult.identical. fold n. intros H.
    unfold r, diff_traces. cbn [DiffResult.summary].
    change (List.length (fold_left _ _ _)) with n. now rewrite H.
  - pose proof (severity_partition _ (diff_severities A B)) as Hp. fold r n in Hp.
    unfold c, DiffResult.critical_count.
    change (fun d => String.eqb (Divergence.severity d) "critical")
      with (has_severity "critical").
    lia.
Qed.

Lemma diff_summary_witness :
  DiffResult.summary (diff_traces sample_short sample_long)
  = "Found 1 divergence(s): 0 critical, 1 informational."%string /\
  DiffResult.summary (diff_traces sample_short sample_short)
  = "Traces are identical in structure and content."%string.
Proof.
  split.
  - rewrite (proj1 (proj2 (diff_summary sample_short sample_long)) eq_refl). reflexivity.
  - apply (proj1 (diff_summary sample_short sample_short)). reflexivity.
Defined.




Lemma diff_locality (A B : Trace.t) (l1 l2 : list Event.t) (ea eb : Event.t) :
  trace_wf A = true ->
  Trace.all_events A = l1 ++ ea :: l2 ->
  Trace.all_events B = l1 ++ eb :: l2 ->
  DiffResult.divergences (diff_traces A B)
  = diff_at A B (List.length l1) (Some ea) (Some eb).
Proof.
  intros Hwf HA HB. rewrite diff_divergences, HA, HB.
  assert (Hsame : forall i, i <> List.length l1 ->
              diff_at A B i (nth_error (l1 ++ ea :: l2) i) (nth_error (l1 ++ eb :: l2) i) = []).
  { intros i Hi. destruct (nth_error_other l1 l2 ea eb i Hi) as [H1 H2].
    rewrite <- H1. apply diff_at_same. intros e He.
    apply (trace_wf_all_events A e Hwf). rewrite HA.
    apply H2 in He. apply in_app_iff in He as [He|He]; apply in_app_iff; [now left|].
    right. now right. }
  rewrite !length_app. cbn [List.length]. rewrite Nat.max_id.
  rewrite seq_app, map_app, concat_app. cbn [Nat.add seq map List.concat].
  rewrite !concat_map_nil.
  - cbn [app]. rewrite app_nil_r.
    rewrite !nth_error_app2 by lia. now rewrite Nat.sub_diag.
  - intros i Hi. apply in_seq in Hi. apply Hsame. lia.
  - intros i Hi. apply in_seq in Hi. apply Hsame. lia.
Qed.

Lemma event_type_eqb_neq (a b : EventType) : a <> b -> EventTypes.eqb a b = false.
Proof. destruct a, b; intros H; try reflexivity; now destruct H. Qed.

(** X21: when the canonical sequences of two traces differ at one
    position only, the diff is what the comparison of the two events at
    that position gives: one critical divergence when their types differ,
    whatever the payloads; one divergence of severity "info", that
    [critical_count] does not count, when both are responses of different
    [content]; one critical divergence when both are decisions of
    different [choice]; and none when both are of the same type among
    request, tool result, state change, error and log, whose payloads the
    diff never reads. *)
Theorem diff_one_position (A B : Trace.t) (l1 l2 : list Event.t) (ea eb : Event.t) :
  trace_wf A = true ->
  Trace.all_events A = l1 ++ ea :: l2 ->
  Trace.all_events B = l1 ++ eb :: l2 ->
  let r := diff_traces A B in
  DiffResult.divergences r = diff_at A B (List.length l1) (Some ea) (Some eb) /\
  (Event.event_type ea <> Event.event_type eb ->
   map Divergence.severity (DiffResult.divergences r) = ["critical"%string] /\
   DiffResult.critical_count r = 1%nat) /\
  (Event.event_type ea = LLM_RESPONSE -> Event.event_type eb = LLM_RESPONSE ->
   py_ne (dict_get (Event.data ea) "content" (JStr ""))
     (dict_get (Event.data eb) "content" (JStr "")) = true ->
   map Divergence.severity (DiffResult.divergences r) = ["info"%string] /\
   DiffResult.critical_count r = 0%nat /\ DiffResult.identical r = false) /\
  (Event.event_type ea = DECISION -> Event.event_type eb = DECISION ->
   py_ne (dict_get (Event.data ea) "choice" JNull)
     (dict_get (Event.data eb) "choice" JNull) = true ->
   map Divergence.severity (DiffResult.divergences r) = ["critical"%string] /\
   DiffResult.critical_count r = 1%nat) /\
  (Event.event_type ea = Event.event_type eb ->
   In (Event.event_type ea) [LLM_REQUEST; TOOL_RESULT; STATE_CHANGE; ERROR; LOG] ->
   DiffResult.divergences r = [] /\ DiffResult.identical r = true).
Proof.
  intros Hwf HA HB r.
  pose proof (diff_locality A B l1 l2 ea eb Hwf HA HB) as H. fold r in H.
  unfold DiffResult.critical_count, DiffResult.identical. rewrite H.
  split; [reflexivity|]. unfold diff_at. split; [|split; [|split]].
  - intros Hne. rewrite (event_type_eqb_neq _ _ Hne). cbn. auto.
  - intros Ha Hb Hc. rewrite Ha, Hb. change (EventTypes.eqb _ _) with true.
    cbn [negb]. rewrite Hc. cbn. auto.
  - intros Ha Hb Hc. rewrite Ha, Hb. change (EventTypes.eqb _ _) with true.
    cbn [negb]. rewrite Hc. cbn. auto.
  - intros Heq Hin. rewrite <- Heq, event_type_eqb_refl. cbn [negb].
    destruct Hin as [<-|[<-|[<-|[<-|[<-|[]]]]]]; auto.
Qed.

Lemma diff_one_position_witness :
  let a := Trace.mk "a" "a" 0 None
             [sample_span "s" "s-a" [Event.mk LLM_RESPONSE 1 [("content", JStr "hi")] "e-a"]] [] in
  let b := Trace.mk "b" "b" 0 None
             [sample_span "s" "s-b" [Event.mk LLM_RESPONSE 1 [("content", JStr "hello")] "e-b"]] [] in
  let c := Trace.mk "c" "c" 0 None
             [sample_span "s" "s-c" [Event.mk LOG 1 [("message", JStr "hello")] "e-c"]] [] in
  DiffResult.critical_count (diff_traces a b) = 0%nat /\
  DiffResult.identical (diff_traces a b) = false /\
  DiffResult.critical_count (diff_traces a c) = 1%nat.
Proof.
  intros a b c.
  destruct (diff_one_position a b [] []
              (Event.mk LLM_RESPONSE 1 [("content", JStr "hi")] "e-a")
              (Event.mk LLM_RESPONSE 1 [("content", JStr "hello")] "e-b")
              eq_refl eq_refl eq_refl) as (_ & _ & H & _).
  destruct (H eq_refl eq_refl eq_refl) as (_ & H1 & H2).
  destruct (diff_one_position a c [] []
              (Event.mk LLM_RESPONSE 1 [("content", JStr "hi")] "e-a")
              (Event.mk LOG 1 [("message", JStr "hello")] "e-c")
              eq_refl eq_refl eq_refl) as (_ & H3 & _).
  split; [exact H1|]. split; [exact H2|]. apply H3. discriminate.
Defined.

(** ** The recorder *)

Lemma length_list_update {X : Type} (i : nat) (x : X) (l : list X) :
  (i < List.length l)%nat -> List.length (list_update i x l) = List.length l.
Proof.
  unfold list_update. intros H.
  rewrite length_app, length_firstn. cbn [List.length]. rewrite length_skipn. lia.
Qed.

Lemma nth_error_list_update {X : Type} (i j : nat) (x : X) (l : list X) :
  (i < List.length l)%nat ->
  nth_error (list_update i x l) j = if Nat.eqb j i then Some x else nth_error l j.
Proof.
  unfold list_update. revert i j; induction l as [|a l IH]; intros i j H; [cbn in H; lia|].
  destruct i as [|i]; destruct j as [|j]; cbn; try reflexivity.
  cbn in H. apply (IH i j). lia.
Qed.

Lemma events_length_update (i : nat) (s s' : Span.t) (l : list Span.t) :
  nth_error l i = Some s ->
  (List.length (List.concat (map Span.events (list_update i s' l)))
   + List.length (Span.events s)
   = List.length (List.concat (map Span.events l)) + List.length (Span.events s'))%nat.
Proof.
  unfold list_update. revert i; induction l as [|a l IH]; intros [|i] H; try discriminate.
  - cbn in H. injection H as ->. cbn. rewrite !length_app. lia.
  - cbn in H. specialize (IH i H). cbn [firstn skipn app map List.concat].
    cbn [skipn] in IH. rewrite !length_app. lia.
Qed.

Lemma span_grows_refl (s : Span.t) : span_grows s s.
Proof.
  repeat split; auto. exists []. now rewrite app_nil_r.
Qed.

Lemma span_grows_trans (a b c : Span.t) :
  span_grows a b -> span_grows b c -> span_grows a c.
Proof.
  intros (A1 & A2 & A3 & A4 & A5 & (m1 & A6) & A7) (B1 & B2 & B3 & B4 & B5 & (m2 & B6) & B7).
  repeat split; try congruence.
  - exists (m1 ++ m2). rewrite B6, A6. now rewrite app_assoc.
  - intros H. rewrite B7; [now apply A7|].
    unfold is_closed in *. rewrite (A7 H). exact H.
Qed.

Lemma trace_grows_refl (tr : Trace.t) : trace_grows tr tr.
Proof.
  repeat split; auto. intros i s H. exists s. split; [exact H | apply span_grows_refl].
Qed.

Lemma trace_grows_trans (a b c : Trace.t) :
  trace_grows a b -> trace_grows b c -> trace_grows a c.
Proof.
  intros (A1 & A2 & A3 & A4 & A5 & A6 & A7) (B1 & B2 & B3 & B4 & B5 & B6 & B7).
  repeat split; try congruence; [lia|].
  intros i s H. destruct (A7 i s H) as (s1 & H1 & G1).
  destruct (B7 i s1 H1) as (s2 & H2 & G2).
  exists s2. split; [exact H2 | eapply span_grows_trans; eassumption].
Qed.

Lemma trace_grows_update (tr : Trace.t) (i : nat) (s s' : Span.t) :
  nth_error (Trace.spans tr) i = Some s ->
  span_grows s s' ->
  trace_grows tr (Trace.set_spans tr (list_update i s' (Trace.spans tr))).
Proof.
  intros Hn Hg.
  assert (Hi : (i < List.length (Trace.spans tr))%nat) by (apply nth_error_Some; congruence).
  unfold Trace.set_spans. repeat split; cbn; auto.
  - rewrite length_list_update by exact Hi. lia.
  - intros j sj Hj. rewrite nth_error_list_update by exact Hi.
    destruct (Nat.eqb_spec j i) as [->|Hne].
    + exists s'. split; [reflexivity|]. congruence.
    + exists sj. split; [exact Hj | apply span_grows_refl].
Qed.

Lemma trace_grows_append (tr : Trace.t) (x : Span.t) :
  trace_grows tr (Trace.set_spans tr (Trace.spans tr ++ [x])).
Proof.
  unfold Trace.set_spans. repeat split; cbn; auto.
  - rewrite length_app. lia.
  - intros j sj Hj. exists sj. split; [|apply span_grows_refl].
    rewrite nth_error_app1; [exact Hj|]. apply nth_error_Some. congruence.
Qed.

(** An event recorded in the current span. *)
Lemma event_in_span (ty : EventType) (data : option dict) (r : Recorder.t) (w : world)
    (c : nat) (s : Span.t) :
  Recorder._current_span r = Some c ->
  nth_error (Trace.spans (Recorder.trace r)) c = Some s ->
  Recorder.event ty data r w
  = Ok (Recorder.set_trace r
          (Trace.set_spans (Recorder.trace r)
             (list_update c
                (Span.set_events s
                   (Span.events s
                      ++ [Event.mk ty (clock_src w (clock_calls w))
                            (match data with Some d => d | None => [] end)
                            (String.substring 0 12 (uuid_src w (uuid_calls w)))]))
                (Trace.spans (Recorder.trace r)))),
        mkWorld (uuid_src w) (S (uuid_calls w)) (clock_src w) (S (clock_calls w))).
Proof.
  intros Hc Hn. unfold Recorder.event, Recorder._ensure_span, bind. rewrite Hc. cbn [ret fst snd].
  unfold Recorder.on_span. rewrite Hn. reflexivity.
Qed.

Lemma run_block_unfold (name : string) (md : option dict) (body : list prog)
    (r : Recorder.t) :
  run_prog (Block name md body) r
  = (x <- Recorder.span name md (fun _ r1 => r2 <- run_all body r1 ;; ret (tt, r2)) r ;;
     ret (snd x))%py.
Proof. reflexivity. Qed.

Lemma count_blocks_block (name : string) (md : option dict) (body : list prog) :
  count_blocks (Block name md body) = S (count_blocks_all body).
Proof. reflexivity. Qed.

Lemma count_events_block (name : string) (md : option dict) (body : list prog) :
  count_events (Block name md body) = count_events_all body.
Proof. reflexivity. Qed.

Lemma ev_ok (ty : EventType) (data : option dict) (r : Recorder.t) (w : world) :
  recorder_wf r -> Recorder._current_span r <> None ->
  run_ok 0 1 r (run_prog (Ev ty data) r w).
Proof.
  intros [Hst Hcur] Hc.
  destruct (Recorder._current_span r) as [c|] eqn:Ec; [clear Hc | now destruct Hc].
  destruct (nth_error (Trace.spans (Recorder.trace r)) c) as [s|] eqn:En;
    [|apply nth_error_None in En; lia].
  cbn [run_prog]. rewrite (event_in_span ty data r w c s Ec En).
  eexists. eexists. split; [reflexivity|].
  unfold Recorder.set_trace, Trace.set_spans, recorder_wf, stored_events.
  cbn [Recorder._current_span Recorder._span_stack Recorder.output_path Recorder.trace
       Trace.spans].
  rewrite (length_list_update c _ _ Hcur).
  split; [reflexivity|]. split; [reflexivity|]. split; [reflexivity|].
  split; [split; [exact Hst | rewrite Ec; exact Hcur]|].
  split.
  { apply (trace_grows_update (Recorder.trace r) c s); [exact En|].
    repeat split; auto. eexists. reflexivity. }
  split; [lia|]. split.
  { intros i si Hi Hn. cbn [Trace.spans] in Hn.
    rewrite nth_error_list_update in Hn by exact Hcur.
    assert (Hnone : nth_error (Trace.spans (Recorder.trace r)) i = None)
      by (apply nth_error_None; lia).
    destruct (Nat.eqb_spec i c); [lia | congruence]. }
  pose proof (events_length_update c s
                (Span.set_events s
                   (Span.events s
                      ++ [Event.mk ty (clock_src w (clock_calls w))
                            (match data with Some d => d | None => [] end)
                            (String.substring 0 12 (uuid_src w (uuid_calls w)))]))
                _ En) as H.
  cbn [Span.set_events Span.events] in H. rewrite length_app in H. cbn [List.length] in H.
  lia.
Qed.

Lemma run_ok_seq (a b a' b' : nat) (r r1 : Recorder.t) (w1 : world)
    (res : result (Recorder.t * world)) :
  run_ok a b r (Ok (r1, w1)) -> run_ok a' b' r1 res -> run_ok (a + a') (b + b') r res.
Proof.
  intros (x & wx & Heq & A1 & A2 & A3 & A4 & A5 & A6 & A7 & A8)
         (r2 & w2 & -> & B1 & B2 & B3 & B4 & B5 & B6 & B7 & B8).
  injection Heq as <- <-.
  exists r2, w2. split; [reflexivity|].
  split; [congruence|]. split; [congruence|]. split; [congruence|]. split; [exact B4|].
  split; [eapply trace_grows_trans; eassumption|]. split; [lia|]. split; [|lia].
  intros i s Hi Hn.
  destruct (Nat.lt_ge_cases i (List.length (Trace.spans (Recorder.trace r1)))) as [Hlt|Hge].
  - destruct (nth_error (Trace.spans (Recorder.trace r1)) i) as [s1|] eqn:E1;
      [|apply nth_error_None in E1; lia].
    pose proof (A7 i s1 Hi E1) as Hc1.
    destruct B5 as (_ & _ & _ & _ & _ & _ & Hsp).
    destruct (Hsp i s1 E1) as (s2 & Hn2 & G).
    assert (s2 = s) by congruence. subst s2.
    destruct G as (_ & _ & _ & _ & _ & _ & Hend).
    unfold is_closed in *. now rewrite (Hend Hc1).
  - exact (B7 i s Hge Hn).
Qed.

Lemma run_all_ok (ps : list prog) :
  Forall (fun p => forall r w, recorder_wf r -> Recorder._current_span r <> None ->
                               run_ok (count_blocks p) (count_events p) r (run_prog p r w)) ps ->
  forall r w, recorder_wf r -> Recorder._current_span r <> None ->
              run_ok (count_blocks_all ps) (count_events_all ps) r (run_all ps r w).
Proof.
  induction 1 as [|p ps Hp _ IH]; intros r w Hwf Hc.
  - cbn. exists r, w. split; [reflexivity|].
    repeat split; try apply Hwf; auto; try lia.
    + apply trace_grows_refl.
    + intros i s Hi Hn. apply nth_error_None in Hi. congruence.
  - cbn [run_all count_blocks_all count_events_all fold_right]. unfold bind.
    pose proof (Hp r w Hwf Hc) as H1.
    destruct H1 as (r1 & w1 & Heq & H1).
    rewrite Heq.
    eapply run_ok_seq.
    + exists r1, w1. split; [reflexivity | exact H1].
    + apply IH; [apply H1|]. destruct H1 as (E & _). rewrite E. exact Hc.
Qed.

Lemma span_enter_run (name : string) (md : option dict) (r : Recorder.t) (w : world) :
  recorder_wf r ->
  Recorder.span_enter name md r w
  = Ok ((List.length (Trace.spans (Recorder.trace r)), Recorder._current_span r,
         Recorder.mk
           (Trace.set_spans (Recorder.trace r)
              (Trace.spans (Recorder.trace r)
                 ++ [Span.mk name (String.substring 0 12 (uuid_src w (uuid_calls w)))
                       (parent_at r) (clock_src w (clock_calls w)) None []
                       (match md with Some d => d | None => [] end)]))
           (Recorder.output_path r)
           (Recorder._span_stack r ++ [List.length (Trace.spans (Recorder.trace r))])
           (Some (List.length (Trace.spans (Recorder.trace r))))),
        mkWorld (uuid_src w) (S (uuid_calls w)) (clock_src w) (S (clock_calls w))).
Proof.
  intros [_ Hcur]. unfold Recorder.span_enter, parent_at, bind.
  destruct (Recorder._current_span r) as [c|]; [|reflexivity].
  destruct (nth_error (Trace.spans (Recorder.trace r)) c) as [cur|] eqn:E;
    [reflexivity | apply nth_error_None in E; lia].
Qed.

Lemma span_exit_run (s : nat) (prev : option nat) (r : Recorder.t) (w : world)
    (sp : Span.t) (st : list nat) :
  nth_error (Trace.spans (Recorder.trace r)) s = Some sp ->
  Recorder._span_stack r = st ++ [s] ->
  Recorder.span_exit s prev r w
  = Ok (Recorder.mk
          (Trace.set_spans (Recorder.trace r)
             (list_update s (Span.set_end_time sp (Some (clock_src w (clock_calls w))))
                (Trace.spans (Recorder.trace r))))
          (Recorder.output_path r) st prev,
        mkWorld (uuid_src w) (uuid_calls w) (clock_src w) (S (clock_calls w))).
Proof.
  intros Hn Hst. unfold Recorder.span_exit, Recorder.on_span, bind. rewrite Hn.
  cbn [Span.close bind time_time ret fst snd]. rewrite Hst, removelast_last.
  now destruct st.
Qed.

(** A block: what it does to the recorder, and the span it opened. *)
Lemma block_ok (name : string) (md : option dict) (body : list prog) :
  (forall r w, recorder_wf r -> Recorder._current_span r <> None ->
               run_ok (count_blocks_all body) (count_events_all body) r (run_all body r w)) ->
  forall r w,
    recorder_wf r ->
    run_ok (S (count_blocks_all body)) (count_events_all body) r
      (run_prog (Block name md body) r w) /\
    exists r' w' sp,
      run_prog (Block name md body) r w = Ok (r', w') /\
      nth_error (Trace.spans (Recorder.trace r'))
        (List.length (Trace.spans (Recorder.trace r))) = Some sp /\
      Span.name sp = name /\
      Span.parent_id sp = parent_at r /\
      Span.metadata sp = match md with Some d => d | None => [] end /\
      is_closed sp = true.
Proof.
  intros Hbody r w Hwf.
  rewrite run_block_unfold. unfold Recorder.span.
  set (n := List.length (Trace.spans (Recorder.trace r))).
  set (new0 := Span.mk name (String.substring 0 12 (uuid_src w (uuid_calls w)))
                 (parent_at r) (clock_src w (clock_calls w)) None []
                 (match md with Some d => d | None => [] end)).
  set (r1 := Recorder.mk
               (Trace.set_spans (Recorder.trace r) (Trace.spans (Recorder.trace r) ++ [new0]))
               (Recorder.output_path r) (Recorder._span_stack r ++ [n]) (Some n)).
  set (w1 := mkWorld (uuid_src w) (S (uuid_calls w)) (clock_src w) (S (clock_calls w))).
  assert (Henter : Recorder.span_enter name md r w = Ok ((n, Recorder._current_span r, r1), w1))
    by (apply span_enter_run; exact Hwf).
  assert (Hwf1 : recorder_wf r1).
  { destruct Hwf as [Hst Hcur]. unfold recorder_wf, r1, Trace.set_spans. cbn.
    rewrite length_app. cbn [List.length]. fold n. split; [|lia].
    apply Forall_app. split; [|constructor; [lia | constructor]].
    eapply Forall_impl; [|exact Hst]. cbn beta. intros; lia. }
  assert (Hc1 : Recorder._current_span r1 <> None) by discriminate.
  destruct (Hbody r1 w1 Hwf1 Hc1) as (r2 & w2 & Hrun & C1 & C2 & C3 & C4 & C5 & C6 & C7 & C8).
  assert (Hn1 : nth_error (Trace.spans (Recorder.trace r1)) n = Some new0).
  { unfold r1, Trace.set_spans. cbn. rewrite nth_error_app2 by (fold n; lia).
    fold n. now rewrite Nat.sub_diag. }
  destruct C5 as (G1 & G2 & G3 & G4 & G5 & G6 & G7).
  destruct (G7 n new0 Hn1) as (s2 & Hn2 & Gs).
  assert (Hst2 : Recorder._span_stack r2 = Recorder._span_stack r ++ [n]) by exact C2.
  set (s3 := Span.set_end_time s2 (Some (clock_src w2 (clock_calls w2)))).
  set (r3 := Recorder.mk
               (Trace.set_spans (Recorder.trace r2)
                  (list_update n s3 (Trace.spans (Recorder.trace r2))))
               (Recorder.output_path r2) (Recorder._span_stack r) (Recorder._current_span r)).
  set (w3 := mkWorld (uuid_src w2) (uuid_calls w2) (clock_src w2) (S (clock_calls w2))).
  assert (Hexit : Recorder.span_exit n (Recorder._current_span r) r2 w2 = Ok (r3, w3))
    by (apply span_exit_run; assumption).
  assert (Hres : (x <- (e <- Recorder.span_enter name md r ;;
                        x <- (r2 <- run_all body (snd e) ;; ret (tt, r2)) ;;
                        r2 <- Recorder.span_exit (fst (fst e)) (snd (fst e)) (snd x) ;;
                        ret (fst x, r2)) ;;
                  ret (snd x))%py w = Ok (r3, w3)).
  { unfold bind at 1. unfold bind at 1. rewrite Henter. cbn [fst snd].
    unfold bind at 1. unfold bind at 1. rewrite Hrun. cbn [ret fst snd].
    unfold bind at 1. rewrite Hexit. reflexivity. }
  rewrite Hres.
  assert (Hlen2 : (n < List.length (Trace.spans (Recorder.trace r2)))%nat)
    by (apply nth_error_Some; congruence).
  assert (Hlen1 : List.length (Trace.spans (Recorder.trace r1)) = S n).
  { unfold r1, Trace.set_spans. cbn. rewrite length_app. cbn. fold n. lia. }
  split.
  - exists r3, w3. split; [reflexivity|].
    unfold r3, Trace.set_spans, recorder_wf, closed_from_index, stored_events.
    cbn [Recorder._current_span Recorder._span_stack Recorder.output_path Recorder.trace
         Trace.spans Trace.trace_id Trace.name Trace.start_time Trace.end_time Trace.metadata].
    rewrite (length_list_update n s3 _ Hlen2).
    split; [reflexivity|]. split; [reflexivity|]. split; [exact C3|].
    split.
    { destruct Hwf as [Hst Hcur]. split.
      - eapply Forall_impl; [|exact Hst]. cbn beta. fold n. intros; lia.
      - destruct (Recorder._current_span r); [fold n in Hcur; lia | exact I]. }
    split.
    { unfold trace_grows.
      cbn [Trace.spans Trace.trace_id Trace.name Trace.start_time Trace.end_time
           Trace.metadata].
      rewrite (length_list_update n s3 _ Hlen2).
      split; [exact G1|]. split; [exact G2|]. split; [exact G3|]. split; [exact G4|].
      split; [exact G5|]. split; [fold n; lia|].
      intros i s Hi.
      assert (Hlt : (i < n)%nat) by (apply nth_error_Some; fold n; congruence).
      rewrite nth_error_list_update by exact Hlen2.
      destruct (Nat.eqb_spec i n); [lia|].
      apply G7. unfold r1, Trace.set_spans. cbn.
      rewrite nth_error_app1 by (fold n; lia). exact Hi. }
    split; [fold n; lia|]. split.
    { fold n. intros i s Hi Hn. rewrite nth_error_list_update in Hn by exact Hlen2.
      destruct (Nat.eqb_spec i n) as [->|Hne].
      - injection Hn as <-. reflexivity.
      - apply (C7 i s); [lia | exact Hn]. }
    pose proof (events_length_update n s2 s3 _ Hn2) as He.
    unfold stored_events in C8. cbn [Span.events Span.set_end_time s3] in He.
    assert (H0 : List.length (List.concat (map Span.events (Trace.spans (Recorder.trace r1))))
                 = List.length (List.concat (map Span.events (Trace.spans (Recorder.trace r))))).
    { unfold r1, Trace.set_spans. cbn. rewrite map_app, concat_app, length_app. cbn. lia. }
    unfold s3 in *. cbn [Span.events Span.set_end_time] in He. lia.
  - exists r3, w3, s3. split; [reflexivity|].
    unfold r3, Trace.set_spans. cbn [Recorder.trace Trace.spans].
    rewrite nth_error_list_update by exact Hlen2. rewrite Nat.eqb_refl.
    destruct Gs as (S1 & S2 & S3 & S4 & S5 & _).
    split; [reflexivity|]. unfold s3. cbn [Span.name Span.parent_id Span.metadata Span.set_end_time].
    split; [exact S1|]. split; [exact S3|]. split; [exact S5 | reflexivity].
Qed.

Lemma run_prog_ok (p : prog) :
  forall r w, recorder_wf r -> Recorder._current_span r <> None ->
              run_ok (count_blocks p) (count_events p) r (run_prog p r w).
Proof.
  induction p as [ty data | name md body IH] using prog_induction; intros r w Hwf Hc.
  - now apply ev_ok.
  - rewrite count_blocks_block, count_events_block.
    apply (block_ok name md body (run_all_ok body IH) r w Hwf).
Qed.

(** X22: a [with rec.span(name, metadata)] block, whatever client code is
    in it, opens one span at the end of the trace, of that name and
    metadata, whose parent is the span that was current (none at top
    level), and leaves it closed; after the block the current span and
    the stack are what they were. *)
Theorem recorder_block_nesting (name : string) (md : option dict) (body : list prog)
    (r : Recorder.t) (w : world) :
  recorder_wf r ->
  exists (r' : Recorder.t) (w' : world) (sp : Span.t),
    run_prog (Block name md body) r w = Ok (r', w') /\
    nth_error (Trace.spans (Recorder.trace r'))
      (List.length (Trace.spans (Recorder.trace r))) = Some sp /\
    Span.name sp = name /\
    Span.metadata sp = match md with Some d => d | None => [] end /\
    is_closed sp = true /\
    Span.parent_id sp = parent_at r /\
    (forall c cur,
        Recorder._current_span r = Some c ->
        nth_error (Trace.spans (Recorder.trace r)) c = Some cur ->
        Span.parent_id sp = Some (Span.span_id cur) /\
        exists cur', nth_error (Trace.spans (Recorder.trace r')) c = Some cur' /\
                     Span.span_id cur' = Span.span_id cur) /\
    (Recorder._current_span r = None -> Span.parent_id sp = None) /\
    Recorder._current_span r' = Recorder._current_span r /\
    Recorder._span_stack r' = Recorder._span_stack r.
Proof.
  intros Hwf.
  assert (Hbody : forall r w, recorder_wf r -> Recorder._current_span r <> None ->
                    run_ok (count_blocks_all body) (count_events_all body) r (run_all body r w)).
  { apply run_all_ok. apply Forall_forall. intros p _. apply run_prog_ok. }
  destruct (block_ok name md body Hbody r w Hwf)
    as ((r' & w' & Hrun & F1 & F2 & _ & _ & G & _) & (r'' & w'' & sp & Hrun' & Hn & N1 & N2 & N3 & N4)).
  rewrite Hrun in Hrun'. injection Hrun' as <- <-.
  exists r', w', sp. split; [exact Hrun|]. split; [exact Hn|]. split; [exact N1|].
  split; [exact N3|]. split; [exact N4|]. split; [exact N2|].
  split; [|split; [|split; [exact F1 | exact F2]]].
  - intros c cur Hc Hcur. split.
    + rewrite N2. unfold parent_at. now rewrite Hc, Hcur.
    + destruct G as (_ & _ & _ & _ & _ & _ & Hsp).
      destruct (Hsp c cur Hcur) as (cur' & Hn' & Hg). exists cur'. split; [exact Hn'|].
      apply Hg.
  - intros Hc. rewrite N2. unfold parent_at. now rewrite Hc.
Qed.

Lemma sample_recorder_wf : recorder_wf sample_recorder.
Proof. split; [repeat constructor | cbn; lia]. Qed.

Lemma recorder_block_nesting_witness :
  exists (r' : Recorder.t) (sp : Span.t),
    nth_error (Trace.spans (Recorder.trace r')) 1 = Some sp /\
    Span.name sp = "inner"%string /\
    Span.parent_id sp = Some "span-o"%string /\
    is_closed sp = true /\
    Recorder._current_span r' = Some 0%nat.
Proof.
  destruct (recorder_block_nesting "inner" None
              [Ev DECISION (Some [("description", JStr "choose tool"); ("choice", JStr "search")])]
              sample_recorder sample_world sample_recorder_wf)
    as (r' & w' & sp & _ & Hn & H1 & _ & H3 & _ & H5 & _ & H7 & _).
  exists r', sp. split; [exact Hn|]. split; [exact H1|].
  split; [exact (proj1 (H5 0%nat _ eq_refl eq_refl))|]. split; [exact H3 | exact H7].
Defined.

(** X23: client code made of events and span blocks, run inside a
    current span, runs to its end and leaves the current span and the
    stack as they were; the trace then has one more span for each block,
    all of them closed, and one more event for each event recorded; the
    spans it had keep their name, identifier, parent and events, and get
    only more events. *)
Theorem recorder_program_invariants (ps : list prog) (r : Recorder.t) (w : world) :
  recorder_wf r ->
  Recorder._current_span r <> None ->
  run_ok (count_blocks_all ps) (count_events_all ps) r (run_all ps r w).
Proof.
  intros Hwf Hc. apply run_all_ok; [|exact Hwf|exact Hc].
  apply Forall_forall. intros p _. apply run_prog_ok.
Qed.

Lemma recorder_program_invariants_witness :
  run_ok 2 3 sample_recorder
    (run_all [Ev LOG (Some [("message", JStr "starting")]);
              Block "inner" None
                [Ev DECISION None; Block "deeper" None []];
              Ev LOG None] sample_recorder sample_world).
Proof.
  refine (recorder_program_invariants
            [Ev LOG (Some [("message", JStr "starting")]);
             Block "inner" None [Ev DECISION None; Block "deeper" None []];
             Ev LOG None]
            sample_recorder sample_world sample_recorder_wf _).
  discriminate.
Defined.

Lemma bind_ok {X Y : Type} (m : M X) (f : X -> M Y) (w w' : world) (a : X) :
  m w = Ok (a, w') -> bind m f w = f a w'.
Proof. intros H. unfold bind. now rewrite H. Qed.

Lemma on_span_run {X : Type} (i : nat) (f : Span.t -> M (X * Span.t)) (tr : Trace.t)
    (w w' : world) (s s' : Span.t) (a : X) :
  nth_error (Trace.spans tr) i = Some s ->
  f s w = Ok ((a, s'), w') ->
  Recorder.on_span i f tr w
  = Ok ((a, Trace.set_spans tr (list_update i s' (Trace.spans tr))), w').
Proof.
  intros Hn Hf. unfold Recorder.on_span, bind. now rewrite Hn, Hf.
Qed.

Lemma list_update_last {X : Type} (l : list X) (x y : X) :
  list_update (List.length l) x (l ++ [y]) = l ++ [x].
Proof.
  unfold list_update. rewrite firstn_app, firstn_all, Nat.sub_diag. cbn [firstn].
  rewrite app_nil_r. rewrite skipn_all2 by (rewrite length_app; cbn; lia).
  reflexivity.
Qed.

Lemma ev_default (ty : EventType) (data : option dict) (r : Recorder.t) (w : world) :
  Recorder._current_span r = None ->
  Recorder.event ty data r w
  = Ok (Recorder.mk
          (Trace.set_spans (Recorder.trace r)
             (Trace.spans (Recorder.trace r)
                ++ [Span.mk "default" (String.substring 0 12 (uuid_src w (uuid_calls w)))
                      None (clock_src w (clock_calls w)) None
                      [Event.mk ty (clock_src w (S (clock_calls w)))
                         (match data with Some d => d | None => [] end)
                         (String.substring 0 12 (uuid_src w (S (uuid_calls w))))]
                      []]))
          (Recorder.output_path r)
          (Recorder._span_stack r ++ [List.length (Trace.spans (Recorder.trace r))])
          (Some (List.length (Trace.spans (Recorder.trace r)))),
        mkWorld (uuid_src w) (S (S (uuid_calls w))) (clock_src w) (S (S (clock_calls w)))).
Proof.
  intros Hc.
  set (n := List.length (Trace.spans (Recorder.trace r))).
  set (sp0 := Span.mk "default" (String.substring 0 12 (uuid_src w (uuid_calls w)))
                None (clock_src w (clock_calls w)) None [] []).
  set (r1 := Recorder.mk
               (Trace.set_spans (Recorder.trace r) (Trace.spans (Recorder.trace r) ++ [sp0]))
               (Recorder.output_path r) (Recorder._span_stack r ++ [n]) (Some n)).
  assert (H1 : Recorder._ensure_span r w
               = Ok ((n, r1),
                     mkWorld (uuid_src w) (S (uuid_calls w)) (clock_src w) (S (clock_calls w)))).
  { unfold Recorder._ensure_span. rewrite Hc. reflexivity. }
  unfold Recorder.event. rewrite (bind_ok _ _ _ _ _ H1). cbn [fst snd].
  assert (Hn : nth_error (Trace.spans (Recorder.trace r1)) n = Some sp0).
  { unfold r1, Trace.set_spans. cbn. rewrite nth_error_app2 by (fold n; lia).
    fold n. now rewrite Nat.sub_diag. }
  erewrite bind_ok; [|eapply on_span_run; [exact Hn | reflexivity]].
  subst r1. unfold Recorder.set_trace, Trace.set_spans, ret.
  cbn [fst snd Recorder.trace Recorder.output_path Recorder._span_stack
       Recorder._current_span Trace.spans Trace.trace_id Trace.name Trace.start_time
       Trace.end_time Trace.metadata].
  subst n. rewrite list_update_last. reflexivity.
Qed.

(** X24: an event recorded while no span is current opens a span named
    "default" at the end of the trace, without parent, and goes into it;
    that span becomes the current one and is never popped: through any
    client code that follows it is current again after every block, so
    the events recorded outside blocks all go into it, and the blocks
    opened at top level have it as parent. *)
Theorem recorder_default_span (ty : EventType) (data : option dict) (r : Recorder.t)
    (w : world) :
  recorder_wf r ->
  Recorder._current_span r = None ->
  exists (r1 : Recorder.t) (w1 : world) (sp : Span.t) (e : Event.t),
    Recorder.event ty data r w = Ok (r1, w1) /\
    Trace.spans (Recorder.trace r1) = Trace.spans (Recorder.trace r) ++ [sp] /\
    Span.name sp = "default"%string /\ Span.parent_id sp = None /\
    Span.end_time sp = None /\ Span.events sp = [e] /\
    Event.event_type e = ty /\
    Event.data e = match data with Some d => d | None => [] end /\
    Recorder._current_span r1 = Some (List.length (Trace.spans (Recorder.trace r))) /\
    Recorder._span_stack r1
    = Recorder._span_stack r ++ [List.length (Trace.spans (Recorder.trace r))] /\
    parent_at r1 = Some (Span.span_id sp) /\
    forall (ps : list prog) (w' : world),
      run_ok (count_blocks_all ps) (count_events_all ps) r1 (run_all ps r1 w').
Proof.
  intros Hwf Hc. rewrite (ev_default ty data r w Hc).
  eexists. eexists. eexists. eexists. split; [reflexivity|].
  cbn [Recorder.trace Trace.set_spans Trace.spans Recorder._current_span
       Recorder._span_stack Span.name Span.parent_id Span.end_time Span.events
       Event.event_type Event.data].
  split; [reflexivity|]. split; [reflexivity|]. split; [reflexivity|].
  split; [reflexivity|]. split; [reflexivity|]. split; [reflexivity|].
  split; [reflexivity|]. split; [reflexivity|]. split; [reflexivity|].
  split.
  - unfold parent_at. cbn [Recorder._current_span Recorder.trace Trace.set_spans Trace.spans].
    rewrite nth_error_app2 by lia. now rewrite Nat.sub_diag.
  - intros ps w'. apply run_all_ok.
    + apply Forall_forall. intros p _. apply run_prog_ok.
    + destruct Hwf as [Hst _]. split.
      * cbn [Recorder._span_stack Recorder.trace Trace.set_spans Trace.spans].
        rewrite length_app. cbn [List.length]. apply Forall_app. split.
        -- eapply Forall_impl; [|exact Hst]. cbn beta. intros; lia.
        -- constructor; [lia | constructor].
      * cbn [Recorder._current_span Recorder.trace Trace.set_spans Trace.spans].
        rewrite length_app. cbn [List.length]. lia.
    + discriminate.
Qed.

Lemma recorder_default_span_witness :
  exists (r1 : Recorder.t) (sp : Span.t),
    Trace.spans (Recorder.trace r1) = [sp] /\ Span.name sp = "default"%string /\
    Recorder._current_span r1 = Some 0%nat.
Proof.
  destruct (recorder_default_span LOG None
              (Recorder.mk (Trace.mk "t" "run" 0 None [] []) None [] None) sample_world)
    as (r1 & w1 & sp & e & _ & H1 & H2 & _ & _ & _ & _ & _ & H3 & _).
  - split; [constructor | exact I].
  - reflexivity.
  - exists r1, sp. split; [exact H1|]. split; [exact H2 | exact H3].
Defined.

Lemma trace_close_run (tr : Trace.t) (w : world) :
  exists (tr' : Trace.t) (w' : world),
    Trace.close tr w = Ok (tr', w') /\
    Trace.trace_id tr' = Trace.trace_id tr /\
    Trace.name tr' = Trace.name tr /\
    Trace.end_time tr' = Some (clock_src w (clock_calls w)) /\
    forallb is_closed (Trace.spans tr') = true /\
    stored_events tr' = stored_events tr.
Proof.
  unfold Trace.close, bind at 1, time_time. cbn [ret]. unfold bind at 1.
  set (w1 := mkWorld (uuid_src w) (uuid_calls w) (clock_src w) (S (clock_calls w))).
  destruct (close_spans_spec (Trace.spans tr) w1) as (ss' & w' & -> & _ & _ & _ & _ & H).
  eexists. eexists. split; [reflexivity|]. cbn.
  split; [reflexivity|]. split; [reflexivity|]. split; [reflexivity|]. split.
  - induction H as [|s s' ss ss'' Hs _ IH]; [reflexivity|].
    cbn [forallb]. rewrite IH, andb_true_r.
    destruct Hs as [[Hc ->]|[_ (k & _ & ->)]]; [exact Hc | reflexivity].
  - unfold stored_events. cbn [Trace.spans]. f_equal.
    apply (closed_from_events w1 (clock_calls w1)). exact H.
Qed.

(** X25: [finish] closes the trace and every span still open and loses
    no event; with an [output_path] it writes the file of [save] there,
    and that file loads back as the trace returned; without one it writes
    nothing. *)
Theorem recorder_finish (r : Recorder.t) (w : world) :
  exists (tr' : Trace.t) (w' : world),
    Recorder.finish r w
    = Ok ((tr', Recorder.set_trace r tr',
           match Recorder.output_path r with
           | Some p => Some (p, Trace.save tr')
           | None => None
           end), w') /\
    Trace.trace_id tr' = Trace.trace_id (Recorder.trace r) /\
    Trace.name tr' = Trace.name (Recorder.trace r) /\
    Trace.end_time tr' = Some (clock_src w (clock_calls w)) /\
    forallb is_closed (Trace.spans tr') = true /\
    stored_events tr' = stored_events (Recorder.trace r) /\
    exists w'' : world, Trace.load (Trace.save tr') w' = Ok (tr', w'').
Proof.
  destruct (trace_close_run (Recorder.trace r) w) as (tr' & w' & Hc & H1 & H2 & H3 & H4 & H5).
  exists tr', w'. split.
  - unfold Recorder.finish. now rewrite (bind_ok _ _ _ _ _ Hc).
  - repeat (split; [assumption|]). apply load_save_identity.
Qed.

Lemma ran_of_run_ok (nb ne : nat) (r : Recorder.t) (res : result (Recorder.t * world)) :
  run_ok nb ne r res -> ran ne r res.
Proof.
  intros (r' & w' & H & _ & _ & H3 & H4 & H5 & _ & _ & H8).
  exists r', w'. split; [exact H|]. split; [exact H3|]. split; [exact H4|].
  split; [exact H5 | exact H8].
Qed.

Lemma ran_seq (b b' : nat) (r r1 : Recorder.t) (w1 : world)
    (res : result (Recorder.t * world)) :
  ran b r (Ok (r1, w1)) -> ran b' r1 res -> ran (b + b') r res.
Proof.
  intros (x & wx & Heq & A1 & A2 & A3 & A4) (r2 & w2 & -> & B1 & B2 & B3 & B4).
  injection Heq as <- <-. exists r2, w2. split; [reflexivity|].
  split; [congruence|]. split; [exact B2|].
  split; [eapply trace_grows_trans; eassumption | lia].
Qed.

Lemma run_all_ran (ps : list prog) (r : Recorder.t) (w : world) :
  recorder_wf r -> ran (count_events_all ps) r (run_all ps r w).
Proof.
  revert r w; induction ps as [|p ps IH]; intros r w Hwf.
  - exists r, w. repeat split; try apply Hwf; auto; try (cbn; lia).
    apply trace_grows_refl.
  - destruct (Recorder._current_span r) as [c|] eqn:Ec.
    { eapply ran_of_run_ok. apply run_all_ok; [|exact Hwf|congruence].
      apply Forall_forall. intros q _. apply run_prog_ok. }
    cbn [run_all count_events_all fold_right].
    assert (Hp : ran (count_events p) r (run_prog p r w)).
    { destruct p as [ty data | name md body].
      - cbn [run_prog count_events]. rewrite (ev_default ty data r w Ec).
        eexists. eexists. split; [reflexivity|].
        cbn [Recorder.output_path Recorder.trace]. split; [reflexivity|].
        destruct Hwf as [Hst _]. split; [split|split].
        + cbn [Recorder._span_stack Recorder.trace Trace.set_spans Trace.spans].
          rewrite length_app. cbn [List.length]. apply Forall_app. split.
          * eapply Forall_impl; [|exact Hst]. cbn beta. intros; lia.
          * constructor; [lia | constructor].
        + cbn [Recorder._current_span Recorder.trace Trace.set_spans Trace.spans].
          rewrite length_app. cbn [List.length]. lia.
        + apply trace_grows_append.
        + unfold stored_events, Trace.set_spans. cbn [Trace.spans].
          rewrite map_app, concat_app, length_app. cbn. lia.
      - change (count_events (Block name md body)) with (count_events_all body).
        eapply ran_of_run_ok.
        apply (block_ok name md body); [|exact Hwf].
        apply run_all_ok. apply Forall_forall. intros q _. apply run_prog_ok. }
    destruct Hp as (r1 & w1 & Heq & Hp).
    rewrite (bind_ok _ _ _ _ _ Heq).
    eapply ran_seq.
    + exists r1, w1. split; [reflexivity | exact Hp].
    + apply IH. apply Hp.
Qed.

(** X26: a function decorated with [record_trace(name, output_path)],
    whose body is client code of the recorder, returns what the function
    returns; the trace recorded has the name given, one event for each
    event recorded, and all its spans closed; with an [output_path] that
    is not empty it is written there, as a file that loads back as that
    trace, and without one nothing is written. *)
Theorem record_trace_file (name : string) (output_path : option string) (ps : list prog)
    (X : Type) (x : X) (w : world) :
  exists (tr : Trace.t) (w' : world),
    Recorder.record_trace name output_path (fun rec => r' <- run_all ps rec ;; ret (x, r')) w
    = Ok ((x, match output_path with
              | Some EmptyString => None
              | Some p => Some (p, Trace.save tr)
              | None => None
              end), w') /\
    Trace.name tr = name /\
    List.length (stored_events tr) = count_events_all ps /\
    forallb is_closed (Trace.spans tr) = true /\
    exists w'' : world, Trace.load (Trace.save tr) w' = Ok (tr, w'').
Proof.
  set (r0 := Recorder.mk
               (Trace.mk (String.substring 0 16 (uuid_src w (uuid_calls w))) name
                  (clock_src w (clock_calls w)) None [] [])
               (match output_path with Some EmptyString => None | o => o end) [] None).
  set (w0 := mkWorld (uuid_src w) (S (uuid_calls w)) (clock_src w) (S (clock_calls w))).
  assert (Hinit : Recorder.init name None output_path w = Ok (r0, w0)) by reflexivity.
  assert (Hwf0 : recorder_wf r0) by (split; [constructor | exact I]).
  destruct (run_all_ran ps r0 w0 Hwf0) as (r1 & w1 & Hrun & Hout & _ & Hg & Hev).
  destruct (trace_close_run (Recorder.trace r1) w1)
    as (tr & w2 & Hclose & _ & Hname & _ & Hcl & Hst).
  assert (Hfin : Recorder.finish r1 w1
                 = Ok ((tr, Recorder.set_trace r1 tr,
                        match Recorder.output_path r1 with
                        | Some p => Some (p, Trace.save tr)
                        | None => None
                        end), w2))
    by (unfold Recorder.finish; now rewrite (bind_ok _ _ _ _ _ Hclose)).
  pose proof (load_save_identity tr w2) as Hload.
  exists tr, w2. split.
  - unfold Recorder.record_trace. rewrite (bind_ok _ _ _ _ _ Hinit).
    rewrite (bind_ok _ (fun x0 => f <- Recorder.finish (snd x0) ;; ret (fst x0, snd f))
               w0 w1 (x, r1)) by (now rewrite (bind_ok _ _ _ _ _ Hrun)).
    cbn [fst snd]. rewrite (bind_ok _ _ _ _ _ Hfin). cbn [ret fst snd].
    rewrite Hout. unfold r0. cbn [Recorder.output_path].
    destruct output_path as [[|c p]|]; reflexivity.
  - split; [rewrite Hname; destruct Hg as (_ & Hn & _); exact Hn|].
    split; [rewrite Hst, Hev; reflexivity|]. split; [exact Hcl | exact Hload].
Qed.

(** ** The diff the other way round *)

Lemma unique_keys_NoDup (l : list string) : unique_keys l = true -> NoDup l.
Proof.
  induction l as [|k l IH]; intros H; [constructor|].
  cbn in H. apply andb_true_iff in H as [H1 H2]. constructor; [|now apply IH].
  intros Hin. apply negb_true_iff in H1.
  assert (existsb (String.eqb k) l = true)
    by (apply existsb_exists; exists k; split; [exact Hin | apply String.eqb_refl]).
  congruence.
Qed.

Lemma dict_lookup_in (d : dict) (k : string) (v : json) :
  dict_lookup d k = Some v -> In (k, v) d.
Proof.
  induction d as [|[k0 v0] d IH]; simpl; [discriminate|].
  destruct (String.eqb k0 k) eqn:E.
  - intros [= <-]. apply String.eqb_eq in E. subst. now left.
  - intros H. right. now apply IH.
Qed.

(** Two dicts of the same size with unique keys: when every binding of
    the first has a related binding in the second, every binding of the
    second has one in the first. *)
Lemma bindings_sym (R : json -> json -> bool) (x y : dict) :
  unique_keys (map fst x) = true -> unique_keys (map fst y) = true ->
  List.length x = List.length y ->
  (forall k v, In (k, v) x -> exists w, dict_lookup y k = Some w /\ R v w = true) ->
  forall k w, In (k, w) y -> exists v, In (k, v) x /\ R v w = true.
Proof.
  intros Ux Uy Hlen Hfwd k w Hin.
  assert (Hincl : incl (map fst x) (map fst y)).
  { intros k0 Hk0. apply in_map_iff in Hk0 as ([k1 v1] & <- & H1).
    destruct (Hfwd k1 v1 H1) as (w1 & Hl & _). apply dict_lookup_in in Hl.
    apply in_map_iff. now exists (k1, w1). }
  assert (Hback : incl (map fst y) (map fst x)).
  { apply NoDup_length_incl; [now apply unique_keys_NoDup | | exact Hincl].
    rewrite !length_map. lia. }
  assert (Hk : In k (map fst x)) by (apply Hback, in_map_iff; now exists (k, w)).
  apply in_map_iff in Hk as ([k1 v] & Hk1 & Hv). cbn in Hk1. subst k1.
  exists v. split; [exact Hv|].
  destruct (Hfwd k v Hv) as (w' & Hl & HR).
  rewrite (unique_keys_lookup y k w Uy Hin) in Hl. now injection Hl as <-.
Qed.

Lemma forallb_bindings (f : json -> json -> bool) (x y : dict) :
  forallb (fun kv => match dict_lookup y (fst kv) with
                     | Some w => f (snd kv) w
                     | None => false
                     end) x = true
  <-> forall k v, In (k, v) x -> exists w, dict_lookup y k = Some w /\ f v w = true.
Proof.
  rewrite forallb_forall. split.
  - intros H k v Hin. specialize (H (k, v) Hin). cbn in H.
    destruct (dict_lookup y k) as [w|]; [now exists w | discriminate].
  - intros H [k v] Hin. cbn. destruct (H k v Hin) as (w & -> & Hf). exact Hf.
Qed.

Lemma py_eq_dict_half (x y : dict) :
  unique_keys (map fst x) = true -> unique_keys (map fst y) = true ->
  (forall k v w, In (k, v) x -> In (k, w) y -> py_eq v w = py_eq w v) ->
  py_eq (JDict x) (JDict y) = true -> py_eq (JDict y) (JDict x) = true.
Proof.
  intros Ux Uy Hsym H. rewrite py_eq_dict_bindings in *.
  apply andb_true_iff in H as [Hlen Hb]. apply Nat.eqb_eq in Hlen.
  rewrite <- Hlen, Nat.eqb_refl. cbn [andb].
  apply forallb_bindings. intros k w Hin.
  rewrite forallb_bindings in Hb.
  destruct (bindings_sym py_eq x y Ux Uy Hlen Hb k w Hin) as (v & Hv & HR).
  exists v. split; [now apply unique_keys_lookup|].
  now rewrite <- (Hsym k v w Hv Hin).
Qed.

Lemma py_eq_dict_half' (x y : dict) :
  unique_keys (map fst x) = true -> unique_keys (map fst y) = true ->
  (forall k v w, In (k, v) x -> In (k, w) y -> py_eq v w = py_eq w v) ->
  py_eq (JDict y) (JDict x) = true -> py_eq (JDict x) (JDict y) = true.
Proof.
  intros Ux Uy Hsym H. rewrite py_eq_dict_bindings in *.
  apply andb_true_iff in H as [Hlen Hb]. apply Nat.eqb_eq in Hlen.
  rewrite <- Hlen, Nat.eqb_refl. cbn [andb].
  apply forallb_bindings. intros k v Hin.
  rewrite forallb_bindings in Hb.
  destruct (bindings_sym py_eq y x Uy Ux Hlen Hb k v Hin) as (w & Hw & HR).
  exists w. split; [now apply unique_keys_lookup|].
  now rewrite (Hsym k v w Hin Hw).
Qed.

(** [a == b] and [b == a] agree on JSON values. *)
Lemma py_eq_sym (a : json) :
  forall b, json_wf a = true -> json_wf b = true -> py_eq a b = py_eq b a.
Proof.
  induction a as [| x | n | s | l IH | d IH] using json_induction; intros b Ha Hb.
  - now destruct b.
  - destruct b; try reflexivity; cbn [py_eq]; [now destruct x, b | apply Z.eqb_sym].
  - destruct b; try reflexivity; cbn [py_eq]; apply Z.eqb_sym.
  - destruct b; try reflexivity. apply String.eqb_sym.
  - destruct b as [| | | | l' |]; try reflexivity.
    rewrite json_wf_list in Ha, Hb.
    revert l' Hb. induction IH as [|a l Hsym _ IHl]; intros l' Hb.
    + now destruct l'.
    + destruct l' as [|b l']; [reflexivity|].
      rewrite !(py_eq_list (_ :: _)). cbn [forallb] in Ha, Hb.
      apply andb_true_iff in Ha as [Ha1 Ha2]. apply andb_true_iff in Hb as [Hb1 Hb2].
      now rewrite (Hsym b Ha1 Hb1), (IHl Ha2 l' Hb2).
  - destruct b as [| | | | | d']; try reflexivity.
    rewrite json_wf_dict in Ha, Hb.
    apply andb_true_iff in Ha as [Ua Va]. apply andb_true_iff in Hb as [Ub Vb].
    assert (Hsym : forall k v w, In (k, v) d -> In (k, w) d' -> py_eq v w = py_eq w v).
    { intros k v w Hv Hw. rewrite Forall_forall in IH. apply (IH (k, v) Hv w).
      - rewrite forallb_forall in Va. apply (Va (k, v) Hv).
      - rewrite forallb_forall in Vb. apply (Vb (k, w) Hw). }
    destruct (py_eq (JDict d) (JDict d')) eqn:E1, (py_eq (JDict d') (JDict d)) eqn:E2;
      try reflexivity.
    + rewrite (py_eq_dict_half d d' Ua Ub Hsym E1) in E2. discriminate.
    + rewrite (py_eq_dict_half' d d' Ua Ub Hsym E2) in E1. discriminate.
Qed.

Lemma event_type_eqb_eq (a b : EventType) : EventTypes.eqb a b = true -> a = b.
Proof. destruct a, b; intros H; try reflexivity; discriminate H. Qed.

Lemma diff_at_sym (A B : Trace.t) (i : nat) (oa ob : option Event.t) :
  (forall e, oa = Some e -> dict_wf (Event.data e) = true) ->
  (forall e, ob = Some e -> dict_wf (Event.data e) = true) ->
  map where_and_how (diff_at A B i oa ob) = map where_and_how (diff_at B A i ob oa).
Proof.
  intros Ha Hb. destruct oa as [ea|], ob as [eb|]; try reflexivity.
  specialize (Ha ea eq_refl). specialize (Hb eb eq_refl).
  unfold diff_at, EventTypes.eqb.
  rewrite (String.eqb_sym (EventTypes.value (Event.event_type eb))).
  destruct (String.eqb (EventTypes.value (Event.event_type ea))
              (EventTypes.value (Event.event_type eb))) eqn:E; [|reflexivity].
  apply (event_type_eqb_eq (Event.event_type ea) (Event.event_type eb)) in E.
  rewrite <- E. cbn [negb]. unfold py_ne.
  destruct (Event.event_type ea); try reflexivity;
    match goal with
    | |- context [py_eq (dict_get ?d1 ?k ?v) (dict_get ?d2 ?k ?v)] =>
        rewrite (py_eq_sym (dict_get d2 k v) (dict_get d1 k v))
          by (apply dict_get_wf; [assumption | reflexivity]);
        destruct (py_eq (dict_get d1 k v) (dict_get d2 k v)); reflexivity
    end.
Qed.

(** X27: diffing B against A reports what diffing A against B reports:
    divergences at the same positions with the same severities (the sides
    of the events swapped); in particular the same [identical] and the
    same [critical_count]. *)
Theorem diff_symmetric (A B : Trace.t) :
  trace_wf A = true -> trace_wf B = true ->
  map where_and_how (DiffResult.divergences (diff_traces A B))
  = map where_and_how (DiffResult.divergences (diff_traces B A)) /\
  DiffResult.identical (diff_traces A B) = DiffResult.identical (diff_traces B A) /\
  DiffResult.critical_count (diff_traces A B) = DiffResult.critical_count (diff_traces B A).
Proof.
  intros HA HB.
  assert (H : map where_and_how (DiffResult.divergences (diff_traces A B))
              = map where_and_how (DiffResult.divergences (diff_traces B A))).
  { rewrite !diff_divergences, !concat_map, !map_map.
    rewrite (Nat.max_comm (List.length (Trace.all_events B))).
    f_equal. apply map_ext. intros i. apply diff_at_sym.
    - intros e He. apply (trace_wf_all_events A e HA). eapply nth_error_In. exact He.
    - intros e He. apply (trace_wf_all_events B e HB). eapply nth_error_In. exact He. }
  split; [exact H|]. split.
  - unfold DiffResult.identical.
    rewrite <- (length_map where_and_how), H, length_map. reflexivity.
  - unfold DiffResult.critical_count.
    assert (Hf : forall l,
               List.length (filter (fun d => String.eqb (Divergence.severity d) "critical") l)
               = List.length (filter (fun p => String.eqb (snd p) "critical")
                                (map where_and_how l))).
    { induction l as [|d l IH]; [reflexivity|]. cbn [map filter where_and_how snd].
      destruct (String.eqb (Divergence.severity d) "critical"); cbn [List.length];
        now rewrite IH. }
    now rewrite !Hf, H.
Qed.

Lemma diff_symmetric_witness :
  DiffResult.critical_count (diff_traces sample_browse sample_search)
  = DiffResult.critical_count (diff_traces sample_search sample_browse).
Proof.
  apply (proj2 (proj2 (diff_symmetric sample_browse sample_search eq_refl eq_refl))).
Defined.

(** ** The payloads the recorder writes *)

Lemma dict_set_lookup (d : dict) (k k' : string) (v : json) :
  dict_lookup (dict_set d k v) k'
  = if String.eqb k k' then Some v else dict_lookup d k'.
Proof.
  induction d as [|[k0 v0] d IH]; cbn [dict_set dict_lookup]; [reflexivity|].
  destruct (String.eqb k0 k) eqn:E0; cbn [dict_lookup].
  - apply String.eqb_eq in E0. subst k0. now destruct (String.eqb k k').
  - destruct (String.eqb k0 k') eqn:E1; [|exact IH].
    apply String.eqb_eq in E1. subst k0. now rewrite String.eqb_sym, E0.
Qed.

Lemma dict_update_lookup_other (d kwargs : dict) (k : string) :
  dict_lookup kwargs k = None ->
  dict_lookup (dict_update d kwargs) k = dict_lookup d k.
Proof.
  unfold dict_update. revert d; induction kwargs as [|[k1 v1] kw IH]; intros d H;
    [reflexivity|].
  cbn [dict_lookup] in H. destruct (String.eqb k1 k) eqn:E; [discriminate|].
  cbn [fold_left fst snd]. rewrite (IH _ H), dict_set_lookup. now rewrite E.
Qed.

Lemma dict_update_lookup_kwargs (d kwargs : dict) (k : string) (v : json) :
  unique_keys (map fst kwargs) = true ->
  dict_lookup kwargs k = Some v ->
  dict_lookup (dict_update d kwargs) k = Some v.
Proof.
  unfold dict_update. revert d; induction kwargs as [|[k1 v1] kw IH]; intros d Hu H;
    [discriminate|].
  cbn [map fst unique_keys] in Hu. apply andb_true_iff in Hu as [Hn Hu].
  cbn [dict_lookup] in H. cbn [fold_left fst snd].
  destruct (String.eqb k1 k) eqn:E.
  - injection H as ->. apply String.eqb_eq in E. subst k1.
    assert (Hnone : dict_lookup kw k = None).
    { destruct (dict_lookup kw k) as [x|] eqn:Ex; [|reflexivity].
      apply dict_lookup_in in Ex. apply negb_true_iff in Hn.
      assert (existsb (String.eqb k) (map fst kw) = true).
      { apply existsb_exists. exists k. split; [|apply String.eqb_refl].
        apply in_map_iff. now exists (k, x). }
      congruence. }
    change (dict_lookup (dict_update (dict_set d k v) kw) k = Some v).
    rewrite (dict_update_lookup_other _ _ _ Hnone), dict_set_lookup.
    now rewrite String.eqb_refl.
  - now apply IH.
Qed.

(** X28: [tool_call], [llm_response] and [decision] record, at the end of
    the current span, an event of their type, stamped with the clock,
    whose payload answers the lookups of the diff with the arguments
    given: [tool], [content], [choice]; every keyword argument is in the
    payload under its own name. *)
Theorem recorder_payloads (r : Recorder.t) (w : world) (c : nat) (s : Span.t)
    (kwargs : dict) :
  Recorder._current_span r = Some c ->
  nth_error (Trace.spans (Recorder.trace r)) c = Some s ->
  unique_keys (map fst kwargs) = true ->
  let recorded (run : Recorder.t -> M Recorder.t) (ty : EventType) (key : string)
               (value : json) : Prop :=
    exists (r' : Recorder.t) (w' : world) (e : Event.t),
      run r w = Ok (r', w') /\
      nth_error (Trace.spans (Recorder.trace r')) c
      = Some (Span.set_events s (Span.events s ++ [e])) /\
      Event.event_type e = ty /\
      Event.timestamp e = clock_src w (clock_calls w) /\
      (dict_lookup kwargs key = None -> dict_lookup (Event.data e) key = Some value) /\
      (forall k v, dict_lookup kwargs k = Some v -> dict_lookup (Event.data e) k = Some v) in
  (forall tool args, recorded (Recorder.tool_call tool args kwargs) TOOL_CALL "tool" (JStr tool)) /\
  (forall content tokens,
      recorded (Recorder.llm_response content tokens kwargs) LLM_RESPONSE "content"
        (JStr content)) /\
  (forall description choice,
      recorded (Recorder.decision description choice kwargs) DECISION "choice" (JStr choice)).
Proof.
  intros Hc Hn Hu recorded.
  assert (Hi : (c < List.length (Trace.spans (Recorder.trace r)))%nat)
    by (apply nth_error_Some; congruence).
  assert (Hgen : forall ty named key value,
             dict_lookup named key = Some value ->
             recorded (Recorder.event ty (Some (dict_update named kwargs))) ty key value).
  { intros ty named key value Hnamed. unfold recorded.
    rewrite (event_in_span ty _ r w c s Hc Hn).
    eexists. eexists. eexists. split; [reflexivity|].
    unfold Recorder.set_trace, Trace.set_spans. cbn [Recorder.trace Trace.spans].
    rewrite nth_error_list_update by exact Hi. rewrite Nat.eqb_refl.
    split; [reflexivity|]. cbn [Event.event_type Event.timestamp Event.data].
    split; [reflexivity|]. split; [reflexivity|]. split.
    - intros Hk. now rewrite (dict_update_lookup_other _ _ _ Hk).
    - intros k v Hk. now apply dict_update_lookup_kwargs. }
  split; [|split].
  - intros tool args. apply Hgen. reflexivity.
  - intros content tokens. apply Hgen. reflexivity.
  - intros description choice. apply Hgen. reflexivity.
Qed.

Lemma recorder_payloads_witness :
  exists (r' : Recorder.t) (e : Event.t),
    nth_error (Trace.spans (Recorder.trace r')) 0
    = Some (Span.set_events (Span.mk "outer" "span-o" None 1 None [] []) [e]) /\
    dict_lookup (Event.data e) "tool" = Some (JStr "search") /\
    dict_lookup (Event.data e) "attempt" = Some (JNum 2).
Proof.
  destruct (proj1 (recorder_payloads sample_recorder sample_world 0
                     (Span.mk "outer" "span-o" None 1 None [] [])
                     [("attempt", JNum 2)] eq_refl eq_refl eq_refl)
              "search" None)
    as (r' & w' & e & _ & Hn & _ & _ & H1 & H2).
  exists r', e. split; [exact Hn|]. split; [apply H1; reflexivity | apply H2; reflexivity].
Defined.
